(** * Pain-point analyzer: the ingestion-to-insight pipeline

    A shallow embedding of the pipeline core of the repository:

    - [processors/pain_point_extractor.py]: [_calculate_opportunity],
      [extract], [batch_extract];
    - [processors/sentiment_filter.py]: [analyze_sentiment],
      [filter_negative];
    - [main.py]: the duplicate-tolerant save loop of
      [scrape_reddit_by_sort], [process_sentiment], [extract_pain_points],
      the save loops of [scrape_reddit] and
      [scrape_reddit_with_comments], and the read endpoints
      [get_pain_points] and [get_extraction_session_detail];
    - [tasks/scheduler.py]: [process_sentiment], [extract_pain_points];
    - [database/models.py]: the three tables the pipeline touches.

    Python integers are [Z] ([//] with a positive divisor is [Z.div], both
    round towards minus infinity), Python dictionaries with free keys are
    [gmap string _], Python sets are [gset], nullable columns are [option].
    Confidence scores are IEEE doubles in the source; the pipeline only
    compares them with a constant and negates them, so they are embedded as
    rationals. *)

From Stdlib Require Import ZArith QArith Lia.
From stdpp Require Import base option list gmap strings pretty sorting.

Open Scope Z_scope.
Open Scope string_scope.
Open Scope list_scope.

(** ** Exceptions *)

(** The exception classes that the pipeline raises or catches.  [str] is
    Python's [str(e)], which is what the handlers record. *)
Inductive exn :=
| KeyError (key : string)        (* d['k'] on a missing key *)
| IntegrityError (msg : string)  (* sqlalchemy.exc.IntegrityError *)
| OperationalError (msg : string)(* storage unreachable, statement refused *)
| AdapterError (msg : string)    (* the extraction client cannot be built *)
| AttributeError (msg : string)  (* obj.attr on an object without it *)
| TypeError (msg : string)       (* an operation its operand does not support *)
| HTTPException (status_code : Z) (detail : string).

Definition str (e : exn) : string :=
  match e with
  | KeyError k => String.append "'" (String.append k "'")
  | IntegrityError m | OperationalError m | AdapterError m
  | AttributeError m | TypeError m => m
  | HTTPException _ d => d
  end.

Definition is_IntegrityError (e : exn) : bool :=
  match e with IntegrityError _ => true | _ => false end.

(** Result of a computation that may raise. *)
Inductive res (A : Type) :=
| Ok (a : A)
| Raise (e : exn).
Arguments Ok {A} a.
Arguments Raise {A} e.

#[global] Instance res_ret : MRet res := fun A a => Ok a.
#[global] Instance res_bind : MBind res := fun A B f r =>
  match r with
  | Ok a => f a
  | Raise e => Raise e
  end.

(** ** Dictionaries produced by the extraction adapter *)

(** [source_metadata]: the JSON object stored with a raw item.  The scoring
    code reads the keys ['score'] and ['num_comments'] with integer
    arithmetic, so the values are integers. *)
Abbreviation Metadata := (gmap string Z).

(** The dictionary decoded from the adapter's JSON answer, later extended
    with ['opportunity_score'] and ['raw_data_id'].  [None] is an absent
    key. *)
Module PainPointDict.
Record t := mk {
  problem_statement : option string;
  category : option string;
  severity : option string;
  context : option string;
  suggested_solution : option string;
  tags : option (list string);
  target_audience : option string;
  related_industry : option string;
  opportunity_score : option Z;
  raw_data_id : option nat
}.

Definition set_opportunity_score (v : Z) (d : t) : t :=
  mk (problem_statement d) (category d) (severity d) (context d)
     (suggested_solution d) (tags d) (target_audience d)
     (related_industry d) (Some v) (raw_data_id d).

Definition set_raw_data_id (v : nat) (d : t) : t :=
  mk (problem_statement d) (category d) (severity d) (context d)
     (suggested_solution d) (tags d) (target_audience d)
     (related_industry d) (opportunity_score d) (Some v).
End PainPointDict.

(** ** Opportunity score ([PainPointExtractor._calculate_opportunity]) *)

Definition severity_scores : gmap string Z :=
  {[ "critical" := 30; "high" := 20; "medium" := 10; "low" := 5 ]}.

(** What reaches the [metadata] parameter: [None] (the default of
    [extract]), a dictionary (a row's [source_metadata]), or another
    object.  The last case is what the scheduled task passes: it reads
    [item.metadata], and on a declarative class that attribute is not a
    column ([database/models.py] names the column [source_metadata] for
    this reason) but the mapper's table registry, an object that is true
    in a condition and has no [get]. *)
Inductive MetadataArg :=
| MetaNone
| MetaDict (m : Metadata)
| MetaObject.

(** Python truthiness: [None] and the empty dictionary are false. *)
Definition truthy (metadata : MetadataArg) : bool :=
  match metadata with
  | MetaNone => false
  | MetaDict m => negb (bool_decide (m = ∅))
  | MetaObject => true
  end.

(** [metadata.get(key, 0)] *)
Definition get0 (metadata : MetadataArg) (key : string) : res Z :=
  match metadata with
  | MetaDict m => Ok (default 0 (m !! key))
  | MetaNone => Raise (AttributeError "'NoneType' object has no attribute 'get'")
  | MetaObject => Raise (AttributeError "'MetaData' object has no attribute 'get'")
  end.

Definition _calculate_opportunity
    (pain_point : PainPointDict.t) (metadata : MetadataArg) : res Z :=
  let score := 50 in
  match PainPointDict.severity pain_point with
  | None => Raise (KeyError "severity")
  | Some sev =>
      let score := score + default 0 (severity_scores !! sev) in
      if truthy metadata then
        engagement ← get0 metadata "score";
        let score := score + Z.min (engagement / 10) 15 in
        comments ← get0 metadata "num_comments";
        let score := score + Z.min (comments / 5) 10 in
        mret (Z.min score 100)
      else mret (Z.min score 100)
  end.

(** The argument for a metadata value that is absent or a dictionary. *)
Definition metadata_arg (metadata : option Metadata) : MetadataArg :=
  match metadata with
  | Some m => MetaDict m
  | None => MetaNone
  end.

(** The formula of the specification, for comparison with the code. *)
Definition spec_severity_bonus (sev : string) : Z :=
  if String.eqb sev "critical" then 30
  else if String.eqb sev "high" then 20
  else if String.eqb sev "medium" then 10
  else if String.eqb sev "low" then 5
  else 0.

Definition spec_social_bonus (metadata : option Metadata) : Z :=
  match metadata with
  | Some m =>
      Z.min (default 0 (m !! "score") / 10) 15
      + Z.min (default 0 (m !! "num_comments") / 5) 10
  | None => 0
  end.

Definition spec_opportunity (sev : string) (metadata : option Metadata) : Z :=
  Z.min (50 + spec_severity_bonus sev + spec_social_bonus metadata) 100.

Definition with_severity (sev : string) : PainPointDict.t :=
  PainPointDict.mk (Some "p") (Some "other") (Some sev)
                   None None None None None None None.


(** ** Tables ([database/models.py]) *)

(** Timestamps are seconds on an integer clock. *)
Abbreviation timestamp := Z.

Module RawData.
(** [content] is [nullable=False], so a stored row always has a text;
    [source_id] carries the [unique=True] constraint.  The columns
    [product_name], [scraped_at] and [created_at] play no part in the
    pipeline and are left out. *)
Record t := mk {
  id : nat;
  source : string;
  source_id : string;
  content : string;
  author : option string;
  url : option string;
  subreddit : option string;
  source_metadata : option Metadata;
  sentiment_score : option Q;
  is_negative : option bool;
  processed : bool
}.

Definition set_negative (sc : option Q) (r : t) : t :=
  mk (id r) (source r) (source_id r) (content r) (author r) (url r)
     (subreddit r) (source_metadata r) sc (Some true) (processed r).

Definition set_processed (r : t) : t :=
  mk (id r) (source r) (source_id r) (content r) (author r) (url r)
     (subreddit r) (source_metadata r) (sentiment_score r)
     (is_negative r) true.
End RawData.

Inductive Status := in_progress | completed | failed.

Module ExtractionSession.
Record t := mk {
  id : nat;
  session_name : string;
  items_processed : Z;
  pain_points_extracted : Z;
  items_skipped : Z;
  avg_opportunity_score : option Q;
  high_severity_count : Z;
  critical_severity_count : Z;
  category_breakdown : option (gmap string Z);
  severity_breakdown : option (gmap string Z);
  started_at : option timestamp;
  completed_at : option timestamp;
  duration_seconds : option Z;
  status : Status;
  error_message : option string
}.

(** [ExtractionSession(session_name=..., started_at=..., status=...)]
    with the column defaults that the INSERT fills in. *)
Definition create (i : nat) (name : string) (start : timestamp) : t :=
  mk i name 0 0 0 None 0 0 None None (Some start) None None
     in_progress None.

(** The assignments of the empty-candidate branch. *)
Definition complete_empty (now : timestamp) (s : t) : t :=
  mk (id s) (session_name s) 0 0 (items_skipped s)
     (avg_opportunity_score s) (high_severity_count s)
     (critical_severity_count s) (category_breakdown s)
     (severity_breakdown s) (started_at s) (Some now)
     (duration_seconds s) completed (error_message s).

(** The assignments of the exception handler. *)
Definition fail (msg : string) (now : timestamp) (s : t) : t :=
  mk (id s) (session_name s) (items_processed s)
     (pain_points_extracted s) (items_skipped s)
     (avg_opportunity_score s) (high_severity_count s)
     (critical_severity_count s) (category_breakdown s)
     (severity_breakdown s) (started_at s) (Some now)
     (duration_seconds s) failed (Some msg).
End ExtractionSession.

Module PainPoint.
(** The columns that the pipeline writes; [mention_count], the
    timestamps, [embedding] and [related_product] keep their defaults. *)
Record t := mk {
  id : nat;
  raw_data_id : option nat;
  extraction_session_id : option nat;
  problem_statement : string;
  category : string;
  severity : string;
  context : option string;
  suggested_solution : option string;
  tags : list string;
  target_audience : option string;
  related_industry : option string;
  opportunity_score : Z
}.
End PainPoint.

(** The three record sets of the store. *)
Record Db := mkDb {
  raw_data : list RawData.t;
  pain_points : list PainPoint.t;
  extraction_sessions : list ExtractionSession.t
}.

(** Autoincrement primary key: larger than every key in use. *)
Definition next_id (ids : list nat) : nat := S (foldr Nat.max 0%nat ids).

(** The [unique=True] constraint on [raw_data.source_id]. *)
Definition unique_source_ids (rows : list RawData.t) : bool :=
  bool_decide (NoDup (RawData.source_id <$> rows)).

(** ** The ORM session of one request *)

(** [committed] is what the database holds; [work] is the session's view:
    the committed rows plus the objects added or changed since the last
    commit.  [db_ops] counts the round trips to the database and
    [clock_reads] the calls of [datetime.now()]. *)
Record World := mkWorld {
  committed : Db;
  work : Db;
  db_ops : nat;
  clock_reads : nat
}.

Module Sentiment.
(** A JSON value, as far as the filter tells values apart: a string, a
    number ([true] and [false] count as 1 and 0, as Python compares and
    negates them), or anything else (null, a list, an object) with the
    name of its Python type. *)
Inductive value :=
| Str (s : string)
| Num (q : Q)
| Other (type_name : string).

(** [result['result'][0]] of the classifier's answer, which the call
    returns unchecked: a JSON object, of which the keys ['label'] and
    ['score'] matter ([None] is an absent key), or another JSON value,
    with the text of the [TypeError] that subscripting it with a string
    raises. *)
Inductive t :=
| Dict (label score : option value)
| NotDict (msg : string).

(** The answer that the docstring describes. *)
Definition mk (label : string) (score : Q) : t :=
  Dict (Some (Str label)) (Some (Num score)).
End Sentiment.

(** What the request cannot control: storage failures, the clock and the
    two adapters.  Adapter calls are numbered by the position of the item
    in the batch, so two items with the same text may get different
    answers. *)
Record Env := mkEnv {
  (** the [n]-th database round trip of the request fails, with the
    message of the error: storage cannot be reached, or the database
    refuses the statement for a value that does not fit its column (an
    error that, like [OperationalError], is no [IntegrityError]) *)
  db_error : nat -> option string;
  (** the [n]-th call of [datetime.now()] *)
  datetime_now : nat -> timestamp;
  (** [strftime('%Y-%m-%d %H:%M')] *)
  strftime : timestamp -> string;
  (** the HTTP call of [analyze_sentiment] up to [result['result'][0]];
      [None] is any exception raised inside its [try] *)
  classify : nat -> string -> option Sentiment.t;
  (** [PainPointExtractor()] raising, with the message *)
  extractor_init : option string;
  (** [messages.create] and the decoding of its answer; [None] is any
      exception raised before the score is computed *)
  complete : nat -> string -> option PainPointDict.t
}.

Definition M (A : Type) : Type := World -> res A * World.

#[global] Instance M_ret : MRet M := fun A a w => (Ok a, w).
#[global] Instance M_bind : MBind M := fun A B f m w =>
  match m w with
  | (Ok a, w') => f a w'
  | (Raise e, w') => (Raise e, w')
  end.

Definition raise {A} (e : exn) : M A := fun w => (Raise e, w).

(** A computation on values, run inside a request. *)
Definition lift {A} (r : res A) : M A := fun w => (r, w).

(** [try: body except Exception as e: handler e] *)
Definition try_except {A} (body : M A) (handler : exn -> M A) : M A :=
  fun w =>
    match body w with
    | (Ok a, w') => (Ok a, w')
    | (Raise e, w') => handler e w'
    end.

Definition set_work (d : Db) (w : World) : World :=
  mkWorld (committed w) d (db_ops w) (clock_reads w).

Definition modify_work (f : Db -> Db) : M unit :=
  fun w => (Ok tt, set_work (f (work w)) w).

Section Session.
Context (env : Env).

Definition now : M timestamp := fun w =>
  (Ok (datetime_now env (clock_reads w)),
   mkWorld (committed w) (work w) (db_ops w) (S (clock_reads w))).

(** A statement sent to the database: it fails when storage does. *)
Definition db_query {A} (q : Db -> A) : M A := fun w =>
  let w' := mkWorld (committed w) (work w) (S (db_ops w)) (clock_reads w) in
  match db_error env (db_ops w) with
  | Some msg => (Raise (OperationalError msg), w')
  | None => (Ok (q (work w)), w')
  end.

(** [db.commit()]: flush the pending changes and make them durable.  A
    storage failure or a violated constraint raises and the transaction
    is rolled back.  The unique constraint on [source_id] is checked
    here; every other refusal of the database comes through
    [db_error]. *)
Definition db_commit : M unit := fun w =>
  let n := S (db_ops w) in
  match db_error env (db_ops w) with
  | Some msg =>
    (Raise (OperationalError msg),
     mkWorld (committed w) (committed w) n (clock_reads w))
  | None =>
      if unique_source_ids (raw_data (work w)) then
        (Ok tt, mkWorld (work w) (work w) n (clock_reads w))
      else
        (Raise (IntegrityError "duplicate key value violates unique constraint"),
         mkWorld (committed w) (committed w) n (clock_reads w))
  end.

(** [db.rollback()] *)
Definition db_rollback : M unit := fun w =>
  (Ok tt, mkWorld (committed w) (committed w) (db_ops w) (clock_reads w)).
End Session.

(** A request starts with a fresh session on the stored data and leaves
    the committed rows behind. *)
Definition run_request {A} (m : M A) (d : Db) : res A * Db :=
  let '(r, w) := m (mkWorld d d 0 0) in (r, committed w).

(** Update, through the ORM object, of the row whose primary key is [i]. *)
Definition update_raw (i : nat) (f : RawData.t -> RawData.t) (d : Db) : Db :=
  mkDb ((fun r => if bool_decide (RawData.id r = i) then f r else r)
          <$> raw_data d)
       (pain_points d) (extraction_sessions d).

Definition update_session (i : nat)
    (f : ExtractionSession.t -> ExtractionSession.t) (d : Db) : Db :=
  mkDb (raw_data d) (pain_points d)
       ((fun s => if bool_decide (ExtractionSession.id s = i) then f s else s)
          <$> extraction_sessions d).

(** ** Sentiment filter ([processors/sentiment_filter.py]) *)

Module SentimentItem.
(** The dictionaries [{'id', 'content'}] handed to [filter_negative],
    which adds ['sentiment_score'] and ['is_negative'] to the ones it
    keeps. *)
Record t := mk {
  id : nat;
  content : string;
  sentiment_score : option Q;
  is_negative : option bool
}.
End SentimentItem.

(** The threshold [0.7] of [filter_negative]. *)
Definition threshold : Q := 7 # 10.

Definition neutral : Sentiment.t := Sentiment.mk "NEUTRAL" (1 # 2).

Section SentimentFilter.
Context (env : Env).

(** The [k]-th call of the batch; the text is cut to 1000 characters
    and any exception of the call yields the neutral answer. *)
Definition analyze_sentiment (k : nat) (text : string) : Sentiment.t :=
  match classify env k (String.substring 0 1000 text) with
  | Some result => result
  | None => neutral
  end.

(** The text of the [TypeError] of [value > 0.7]. *)
Definition not_comparable (type_name : string) : string :=
  String.append "'>' not supported between instances of '"
    (String.append type_name "' and 'float'").

(** [sentiment['label'] == 'NEGATIVE' and sentiment['score'] > 0.7], which
    stands outside every [try] of the filter: subscripting raises
    [TypeError] on a value that is no object and [KeyError] on a missing
    key; [and] looks at the score only when the label is ['NEGATIVE'];
    comparing a score that is no number with a float raises
    [TypeError]. *)
Definition keep (sentiment : Sentiment.t) : res bool :=
  match sentiment with
  | Sentiment.NotDict msg => Raise (TypeError msg)
  | Sentiment.Dict None _ => Raise (KeyError "label")
  | Sentiment.Dict (Some (Sentiment.Str label)) score =>
      if String.eqb label "NEGATIVE" then
        match score with
        | None => Raise (KeyError "score")
        | Some (Sentiment.Num q) => Ok (negb (Qle_bool q threshold))
        | Some (Sentiment.Str _) => Raise (TypeError (not_comparable "str"))
        | Some (Sentiment.Other name) => Raise (TypeError (not_comparable name))
        end
      else Ok false
  | Sentiment.Dict (Some _) _ => Ok false
  end.

(** [-sentiment['score']], evaluated for a kept item only. *)
Definition negated_score (sentiment : Sentiment.t) : option Q :=
  match sentiment with
  | Sentiment.Dict _ (Some (Sentiment.Num q)) => Some (- q)%Q
  | _ => None
  end.

(** The loop of [filter_negative]; an exception of the condition ends
    it. *)
Fixpoint filter_negative_from (k : nat) (items : list SentimentItem.t)
    : res (list SentimentItem.t) :=
  match items with
  | [] => Ok []
  | item :: rest =>
      let sentiment := analyze_sentiment k (SentimentItem.content item) in
      kept ← keep sentiment;
      filtered ← filter_negative_from (S k) rest;
      mret (if kept : bool then
              SentimentItem.mk (SentimentItem.id item)
                               (SentimentItem.content item)
                               (negated_score sentiment) (Some true)
                :: filtered
            else filtered)
  end.

Definition filter_negative (items : list SentimentItem.t)
    : res (list SentimentItem.t) :=
  filter_negative_from 0 items.
End SentimentFilter.

(** ** Sentiment pass ([process_sentiment] in [main.py] and
       [tasks/scheduler.py]) *)

Inductive SentimentResponse :=
| NoItemsToProcess
| SentimentProcessed (items_processed items_negative : nat).

(** [processed == False] and [sentiment_score == None] *)
Definition unprocessed (r : RawData.t) : bool :=
  negb (RawData.processed r) && bool_decide (RawData.sentiment_score r = None).

Definition select_unprocessed (limit : nat) (d : Db) : list RawData.t :=
  take limit (filter (fun r => unprocessed r = true) (raw_data d)).

(** [next(i['sentiment_score'] for i in negative_items if i['id'] == id)] *)
Definition negative_score (negative_items : list SentimentItem.t) (i : nat)
    : option Q :=
  head (filter (fun it => SentimentItem.id it = i) negative_items)
    ≫= SentimentItem.sentiment_score.

(** The body of the update loop for one selected row. *)
Definition mark (negative_items : list SentimentItem.t) (r : RawData.t)
    : RawData.t :=
  let negative_ids : gset nat :=
    list_to_set (SentimentItem.id <$> negative_items) in
  let r :=
    if bool_decide (RawData.id r ∈ negative_ids) then
      RawData.set_negative (negative_score negative_items (RawData.id r)) r
    else r in
  RawData.set_processed r.

Definition mark_all (negative_items : list SentimentItem.t)
    (items : list RawData.t) (d : Db) : Db :=
  foldl (fun d item => update_raw (RawData.id item) (mark negative_items) d)
        d items.
#[global] Arguments mark_all : simpl never.

Section SentimentPass.
Context (env : Env).

Definition sentiment_pass (limit : nat) : M SentimentResponse :=
  items ← db_query env (select_unprocessed limit);
  match items with
  | [] => mret NoItemsToProcess
  | _ =>
      let items_dict :=
        (fun item => SentimentItem.mk (RawData.id item)
                       (RawData.content item) None None) <$> items in
      negative_items ← lift (filter_negative env items_dict);
      _ ← modify_work (mark_all negative_items items);
      _ ← db_commit env;
      mret (SentimentProcessed (length items) (length negative_items))
  end.

(** [main.py]: the endpoint turns every exception into a 500 answer. *)
Definition process_sentiment (limit : nat) : M SentimentResponse :=
  try_except (sentiment_pass limit)
             (fun e => raise (HTTPException 500 (str e))).

(** [tasks/scheduler.py]: the hourly task, with its fixed limit and no
    handler. *)
Definition scheduler_process_sentiment : M SentimentResponse :=
  sentiment_pass 100.
End SentimentPass.

(** ** Ingestion: the save loop of [scrape_reddit_by_sort] ([main.py]) *)

Module CandidateItem.
(** One dictionary of the scraper's result list. *)
Record t := mk {
  source : string;
  source_id : string;
  content : string;
  author : option string;
  url : option string;
  subreddit : option string;
  metadata : option Metadata
}.
End CandidateItem.

(** [RawData(source=..., ...)]: the scores are unset and [processed] takes
    its default. *)
Definition new_raw (i : nat) (item : CandidateItem.t) : RawData.t :=
  RawData.mk i (CandidateItem.source item) (CandidateItem.source_id item)
             (CandidateItem.content item) (CandidateItem.author item)
             (CandidateItem.url item) (CandidateItem.subreddit item)
             (CandidateItem.metadata item) None None false.

(** [db.add(raw_data)] *)
Definition add_raw (item : CandidateItem.t) (d : Db) : Db :=
  mkDb (raw_data d ++ [new_raw (next_id (RawData.id <$> raw_data d)) item])
       (pain_points d) (extraction_sessions d).

Record IngestResponse := mkIngestResponse {
  items_scraped : nat;
  items_skipped : nat;
  total_found : nat
}.

Section Ingestion.
Context (env : Env).

(** One turn of the loop: [counts] is [(items_added, items_skipped)]. *)
Definition save_item (item : CandidateItem.t) (counts : nat * nat)
    : M (nat * nat) :=
  try_except
    (_ ← modify_work (add_raw item);
     _ ← db_commit env;
     mret (S counts.1, counts.2))
    (fun e =>
       if is_IntegrityError e then
         _ ← db_rollback;
         mret (counts.1, S counts.2)
       else raise e).

Fixpoint save_items (results : list CandidateItem.t) (counts : nat * nat)
    : M (nat * nat) :=
  match results with
  | [] => mret counts
  | item :: rest => counts ← save_item item counts; save_items rest counts
  end.

Definition ingest (results : list CandidateItem.t) : M IngestResponse :=
  try_except
    (counts ← save_items results (0, 0)%nat;
     mret (mkIngestResponse counts.1 counts.2 (length results)))
    (fun e => raise (HTTPException 500 (str e))).
End Ingestion.

(** The contract of the specification's ingestion gate, for comparison:
    insert a candidate whose [externalId] is not stored, skip it
    otherwise. *)
Fixpoint spec_ingest (items : list CandidateItem.t) (rows : list RawData.t)
    (accepted skipped : nat) : nat * nat * list RawData.t :=
  match items with
  | [] => (accepted, skipped, rows)
  | item :: rest =>
      if bool_decide (CandidateItem.source_id item ∈ RawData.source_id <$> rows)
      then spec_ingest rest rows accepted (S skipped)
      else spec_ingest rest
             (rows ++ [new_raw (next_id (RawData.id <$> rows)) item])
             (S accepted) skipped
  end.

(** ** Pain point extractor ([processors/pain_point_extractor.py]) *)

Module ExtractItem.
(** The dictionaries [{'id', 'content', 'metadata'}] of a batch. *)
Record t := mk {
  id : nat;
  content : string;
  metadata : MetadataArg
}.
End ExtractItem.

Section Extractor.
Context (env : Env).

(** The [k]-th call of the batch.  Every exception, from the client, the
    decoding or the scoring, is logged and turned into [None]. *)
Definition extract (k : nat) (text : string)
    (source_metadata : MetadataArg) : option PainPointDict.t :=
  match complete env k text with
  | None => None
  | Some pain_point =>
      match _calculate_opportunity pain_point source_metadata with
      | Ok score => Some (PainPointDict.set_opportunity_score score pain_point)
      | Raise _ => None
      end
  end.

Fixpoint batch_extract_from (k : nat) (items : list ExtractItem.t)
    : list PainPointDict.t :=
  match items with
  | [] => []
  | item :: rest =>
      match extract k (ExtractItem.content item)
                    (ExtractItem.metadata item) with
      | Some pain_point =>
          PainPointDict.set_raw_data_id (ExtractItem.id item) pain_point
            :: batch_extract_from (S k) rest
      | None => batch_extract_from (S k) rest
      end
  end.

Definition batch_extract (items : list ExtractItem.t)
    : list PainPointDict.t :=
  batch_extract_from 0 items.
End Extractor.

(** ** Extraction session ([extract_pain_points] in [main.py]) *)

(** The running tallies of the save loop. *)
Record Tally := mkTally {
  saved_count : Z;
  category_counts : gmap string Z;
  severity_counts : gmap string Z;
  total_opportunity_score : Z
}.

Definition initial_tally : Tally :=
  mkTally 0 ∅ {[ "critical" := 0; "high" := 0; "medium" := 0; "low" := 0 ]} 0.

(** [db.add(pain_point)] *)
Definition add_pain_point (p : PainPoint.t) (d : Db) : Db :=
  mkDb (raw_data d) (pain_points d ++ [p]) (extraction_sessions d).

(** One turn of the save loop.  A missing ['problem_statement'],
    ['category'] or ['severity'] raises [KeyError] while the arguments of
    [PainPoint(...)] are evaluated; the loop catches it and goes on with
    nothing changed. *)
Definition save_pain_point (session_id : nat) (st : Db * Tally)
    (pp_data : PainPointDict.t) : Db * Tally :=
  let '(d, t) := st in
  match PainPointDict.problem_statement pp_data,
        PainPointDict.category pp_data,
        PainPointDict.severity pp_data with
  | Some problem_statement, Some category_, Some severity_ =>
      let pain_point :=
        PainPoint.mk (next_id (PainPoint.id <$> pain_points d))
          (PainPointDict.raw_data_id pp_data) (Some session_id)
          problem_statement category_ severity_
          (PainPointDict.context pp_data)
          (PainPointDict.suggested_solution pp_data)
          (default [] (PainPointDict.tags pp_data))
          (PainPointDict.target_audience pp_data)
          (PainPointDict.related_industry pp_data)
          (default 50 (PainPointDict.opportunity_score pp_data)) in
      let d := add_pain_point pain_point d in
      let saved := saved_count t + 1 in
      let category := default "other" (PainPointDict.category pp_data) in
      let cc :=
        <[ category := default 0 (category_counts t !! category) + 1 ]>
          (category_counts t) in
      let severity := default "low" (PainPointDict.severity pp_data) in
      let sc :=
        match severity_counts t !! severity with
        | Some n => <[ severity := n + 1 ]> (severity_counts t)
        | None => severity_counts t
        end in
      let total :=
        total_opportunity_score t
        + default 50 (PainPointDict.opportunity_score pp_data) in
      (d, mkTally saved cc sc total)
  | _, _, _ => (d, t)
  end.

Definition save_pain_points (session_id : nat)
    (pain_points_data : list PainPointDict.t) : M Tally :=
  fun w =>
    let '(d, t) :=
      foldl (save_pain_point session_id) (work w, initial_tally)
            pain_points_data in
    (Ok t, set_work d w).

(** [db.query(PainPoint.raw_data_id).filter(... != None).distinct()] as
    the set the code builds from it. *)
Definition processed_ids_of (d : Db) : gset nat :=
  list_to_set (omap PainPoint.raw_data_id (pain_points d)).

(** The candidate query: the rows whose key is not in [processed_ids]
    (the condition is dropped when the set is empty), cut to [limit].
    [content != None] holds for every stored row.  The query has no
    ORDER BY: the rows are listed here in table order, and which of them
    a limit below their number keeps is the database's choice. *)
Definition candidate (processed_ids : gset nat) (r : RawData.t) : bool :=
  if bool_decide (processed_ids = ∅) then true
  else bool_decide (RawData.id r ∉ processed_ids).

Definition select_candidates (processed_ids : gset nat) (limit : nat)
    (d : Db) : list RawData.t :=
  take limit (filter (fun r => candidate processed_ids r = true) (raw_data d)).

Definition lookup0 (m : gmap string Z) (k : string) : Z := default 0 (m !! k).

(** The assignments that close a run. *)
Definition finalize (items : nat) (t : Tally) (duration : Z)
    (now : timestamp) (s : ExtractionSession.t) : ExtractionSession.t :=
  ExtractionSession.mk (ExtractionSession.id s)
    (ExtractionSession.session_name s)
    (Z.of_nat items) (saved_count t) (Z.of_nat items - saved_count t)
    (Some (if bool_decide (0 < saved_count t)
           then (inject_Z (total_opportunity_score t)
                 / inject_Z (saved_count t))%Q
           else 0%Q))
    (lookup0 (severity_counts t) "high")
    (lookup0 (severity_counts t) "critical")
    (Some (category_counts t)) (Some (severity_counts t))
    (ExtractionSession.started_at s) (Some now) (Some duration)
    completed (ExtractionSession.error_message s).

Record ExtractionResponse := mkExtractionResponse {
  resp_message : option string;
  resp_session_id : nat;
  resp_session_name : option string;
  resp_pain_points_extracted : Z;
  resp_items_processed : Z;
  resp_items_skipped : Z;
  resp_duration_seconds : option Z
}.

Definition sum_values (m : gmap string Z) : Z :=
  map_fold (fun _ v acc => v + acc) 0 m.

Section ExtractionSession.
Context (env : Env).

(** [ExtractionSession(...)] and [db.add]: the object exists, with its
    key, from here on. *)
Definition open_session (start_time : timestamp) : M (nat * string) :=
  fun w =>
    let session_name :=
  String.append "Analysis " (strftime env start_time) in
    let i := next_id (ExtractionSession.id <$> extraction_sessions (work w)) in
    let d := mkDb (raw_data (work w)) (pain_points (work w))
                  (extraction_sessions (work w)
                     ++ [ExtractionSession.create i session_name start_time]) in
    (Ok (i, session_name), set_work d w).

(** The [try] block after [db.add(extraction_session)]. *)
Definition extraction_run (limit : nat) (start_time : timestamp)
    (session_id : nat) (session_name : string) : M ExtractionResponse :=
  _ ← db_commit env;
  _ ← db_query env (fun _ => tt);                         (* db.refresh *)
  processed_ids ← db_query env processed_ids_of;
  items ← db_query env (select_candidates processed_ids limit);
  match items with
  | [] =>
      t ← now env;
      _ ← modify_work
            (update_session session_id (ExtractionSession.complete_empty t));
      _ ← db_commit env;
      mret (mkExtractionResponse (Some "No new items to extract")
              session_id None 0 0 0 None)
  | _ =>
      let items_dict :=
        (fun item => ExtractItem.mk (RawData.id item) (RawData.content item)
                       (MetaDict (default ∅ (RawData.source_metadata item))))
          <$> items in
      _ ← match extractor_init env with
          | Some msg => raise (AdapterError msg)
          | None => mret tt
          end;
      let pain_points_data := batch_extract env items_dict in
      t ← save_pain_points session_id pain_points_data;
      end_time ← now env;
      let duration_seconds := end_time - start_time in
      t_done ← now env;
      _ ← modify_work
            (update_session session_id
               (finalize (length items) t duration_seconds t_done));
      _ ← db_commit env;
      mret (mkExtractionResponse None session_id (Some session_name)
              (saved_count t) (Z.of_nat (length items))
              (Z.of_nat (length items) - saved_count t)
              (Some duration_seconds))
  end.

(** The [except Exception] clause: [extraction_session] is always among
    the locals here, since nothing before its creation can raise. *)
Definition mark_failed (session_id : nat) (e : exn) : M ExtractionResponse :=
  t ← now env;
  _ ← modify_work
        (update_session session_id (ExtractionSession.fail (str e) t));
  _ ← db_commit env;
  raise (HTTPException 500 (str e)).

Definition extract_pain_points (limit : nat) : M ExtractionResponse :=
  start_time ← now env;
  '(session_id, session_name) ← open_session start_time;
  try_except (extraction_run limit start_time session_id session_name)
             (mark_failed session_id).
End ExtractionSession.

(** ** The scheduled extraction task ([extract_pain_points] in
       [tasks/scheduler.py]) *)

Inductive SchedulerResult :=
| NoItemsToExtract
| ExtractedCount (n : nat).

(** The task takes the rows marked negative; it has no anti-join. *)
Definition select_negative (d : Db) : list RawData.t :=
  take 50 (filter (fun r => RawData.is_negative r = Some true) (raw_data d)).

(** One turn of the task's save loop.  The loop has no [try], so a missing
    key ends the task. *)
Definition scheduler_save (d : Db) (pp_data : PainPointDict.t) : res Db :=
  match PainPointDict.problem_statement pp_data,
        PainPointDict.category pp_data,
        PainPointDict.severity pp_data with
  | Some problem_statement, Some category_, Some severity_ =>
      Ok (add_pain_point
            (PainPoint.mk (next_id (PainPoint.id <$> pain_points d))
               (PainPointDict.raw_data_id pp_data) None
               problem_statement category_ severity_
               (PainPointDict.context pp_data)
               (PainPointDict.suggested_solution pp_data)
               (default [] (PainPointDict.tags pp_data))
               (PainPointDict.target_audience pp_data)
               (PainPointDict.related_industry pp_data)
               (default 50 (PainPointDict.opportunity_score pp_data)))
            d)
  | None, _, _ => Raise (KeyError "problem_statement")
  | _, None, _ => Raise (KeyError "category")
  | _, _, None => Raise (KeyError "severity")
  end.

Fixpoint scheduler_save_all (d : Db) (pain_points_data : list PainPointDict.t)
    : res Db :=
  match pain_points_data with
  | [] => Ok d
  | pp_data :: rest => d ← scheduler_save d pp_data; scheduler_save_all d rest
  end.

Section ScheduledExtraction.
Context (env : Env).

(** The batch carries [item.metadata or {}] for each row, which is the
    registry object described at [MetadataArg]. *)
Definition scheduler_extract_pain_points : M SchedulerResult :=
  items ← db_query env select_negative;
  match items with
  | [] => mret NoItemsToExtract
  | _ =>
      let items_dict :=
        (fun item => ExtractItem.mk (RawData.id item) (RawData.content item)
                       MetaObject) <$> items in
      _ ← match extractor_init env with
          | Some msg => raise (AdapterError msg)
          | None => mret tt
          end;
      let pain_points_data := batch_extract env items_dict in
      _ ← (fun w =>
             match scheduler_save_all (work w) pain_points_data with
             | Ok d => (Ok tt, set_work d w)
             | Raise e => (Raise e, w)
             end);
      _ ← db_commit env;
      mret (ExtractedCount (length pain_points_data))
  end.
End ScheduledExtraction.

(** An extraction run is a request to the endpoint or a firing of the
    scheduled task, each with its own environment. *)
Inductive ExtractionRun :=
| SessionRun (env : Env) (limit : nat)
| ScheduledRun (env : Env).

Definition run_extraction (run : ExtractionRun) (d : Db) : Db :=
  match run with
  | SessionRun env limit => (run_request (extract_pain_points env limit) d).2
  | ScheduledRun env => (run_request (scheduler_extract_pain_points env) d).2
  end.

Definition run_sessions (runs : list ExtractionRun) (d : Db) : Db :=
  foldl (fun d run => run_extraction run d) d runs.

(** ** Sample stores and environments *)

Definition sample_raw (i : nat) (sid : string) : RawData.t :=
  RawData.mk i "reddit" sid "the export is terribly slow"
             None None None None None None false.

(** A row that carries a score although it was never marked processed. *)
Definition scored_raw : RawData.t :=
  RawData.mk 7 "reddit" "t3_scored" "support never answers"
             None None None None (Some (- (9 # 10))%Q) (Some true) false.

Definition sample_clock (n : nat) : timestamp := Z.of_nat n.
Definition sample_strftime (_ : timestamp) : string := "2024-05-01 10:00".

(** Storage works, both adapters fail on every call. *)
Definition calm_env : Env :=
  mkEnv (fun _ => None) sample_clock sample_strftime
        (fun _ _ => None) None (fun _ _ => None).

(** Storage works; the classifier answers every call with an empty
    object. *)
Definition blank_env : Env :=
  mkEnv (fun _ => None) sample_clock sample_strftime
        (fun _ _ => Some (Sentiment.Dict None None)) None (fun _ _ => None).

Definition store1 : Db := mkDb [sample_raw 1 "t3_a"] [] [].
Definition store2 : Db := mkDb [scored_raw; sample_raw 8 "t3_b"] [] [].

(** The fail-open property as the specification words it: with a
    classifier that fails on every call, each selected row ends with
    [processed = true] and [is_negative = false]. *)
Definition fail_open_as_specified (env : Env) (limit : nat) (d : Db) : Prop :=
  (forall j t, classify env j t = None) ->
  exists resp d',
    run_request (process_sentiment env limit) d = (Ok resp, d')
    /\ forall k r,
         raw_data d !! k = Some r -> r ∈ select_unprocessed limit d ->
         exists r', raw_data d' !! k = Some r'
                    /\ RawData.processed r' = true
                    /\ RawData.is_negative r' = Some false.

Definition sample_candidate : CandidateItem.t :=
  CandidateItem.mk "reddit" "t3_a" "the export is terribly slow"
                   (Some "alice") None (Some "saas") None.

Definition empty_store : Db := mkDb [] [] [].

(** ** Names for the states of an extraction request *)

(** The session object that [extract_pain_points] creates on store [d]. *)
Definition opened (env : Env) (d : Db) : ExtractionSession.t :=
  ExtractionSession.create
    (next_id (ExtractionSession.id <$> extraction_sessions d))
    (String.append "Analysis " (strftime env (datetime_now env 0)))
    (datetime_now env 0).

(** Store [d] with one more session and some more pain points. *)
Definition extend (d : Db) (new : list PainPoint.t)
    (s : ExtractionSession.t) : Db :=
  mkDb (raw_data d) (pain_points d ++ new) (extraction_sessions d ++ [s]).

(** The batch that a request on [d] hands to the extractor. *)
Definition candidates (limit : nat) (d : Db) : list RawData.t :=
  select_candidates (processed_ids_of d) limit d.

Definition items_dict_of (items : list RawData.t) : list ExtractItem.t :=
  (fun item => ExtractItem.mk (RawData.id item) (RawData.content item)
                 (MetaDict (default ∅ (RawData.source_metadata item))))
    <$> items.

(** The four severities that [severity_counts] tallies. *)
Definition known_severity (p : PainPoint.t) : bool :=
  bool_decide (PainPoint.severity p ∈ ["critical"; "high"; "medium"; "low"]).

(** Sum of the values of a breakdown column; a null column has none. *)
Definition breakdown_sum (b : option (gmap string Z)) : Z :=
  sum_values (default ∅ b).

(** The ways a request on store [d] can end: the answer and the rows it
    leaves committed. *)
Inductive Outcome (env : Env) (limit : nat) (d : Db)
  : res ExtractionResponse -> Db -> Prop :=
| NotOpened e :
    (** the commit that opens the session failed *)
    db_error env 0 <> None \/ unique_source_ids (raw_data d) = false ->
    Outcome env limit d (Raise e) d
| LeftInProgress msg :
    (** the run failed and so did the commit of the exception clause *)
    (exists n, db_error env n = Some msg) ->
    Outcome env limit d (Raise (OperationalError msg))
            (extend d [] (opened env d))
| Failed msg t :
    (** the run failed and the exception clause recorded it *)
    (extractor_init env = Some msg /\ candidates limit d <> [])
    \/ (exists n, db_error env n = Some msg) ->
    Outcome env limit d (Raise (HTTPException 500 msg))
            (extend d [] (ExtractionSession.fail msg t (opened env d)))
| CompletedEmpty t :
    candidates limit d = [] ->
    Outcome env limit d
            (Ok (mkExtractionResponse (Some "No new items to extract")
                   (ExtractionSession.id (opened env d)) None 0 0 0 None))
            (extend d [] (ExtractionSession.complete_empty t (opened env d)))
| Completed new tally duration t :
    candidates limit d <> [] ->
    foldl (save_pain_point (ExtractionSession.id (opened env d)))
          (extend d [] (opened env d), initial_tally)
          (batch_extract env (items_dict_of (candidates limit d)))
    = (extend d new (opened env d), tally) ->
    Outcome env limit d
            (Ok (mkExtractionResponse None
                   (ExtractionSession.id (opened env d))
                   (Some (ExtractionSession.session_name (opened env d)))
                   (saved_count tally)
                   (Z.of_nat (length (candidates limit d)))
                   (Z.of_nat (length (candidates limit d)) - saved_count tally)
                   (Some duration)))
            (extend d new
               (finalize (length (candidates limit d)) tally duration t
                         (opened env d))).

(** Storage goes away right after the session was opened. *)
Definition outage_env : Env :=
  mkEnv (fun n => match n with
                  | O => None
                  | S _ => Some "server closed the connection unexpectedly"
                  end)
        sample_clock sample_strftime (fun _ _ => None) None (fun _ _ => None).

(** The extraction client cannot be built, and its exception carries no
    text. *)
Definition mute_env : Env :=
  mkEnv (fun _ => None) sample_clock sample_strftime
        (fun _ _ => None) (Some "") (fun _ _ => None).

(** The extraction adapter answers with a severity outside the four. *)
Definition urgent_reply : PainPointDict.t :=
  PainPointDict.mk (Some "Exports are slow") (Some "performance")
                   (Some "urgent") None None None None None None None.

Definition urgent_env : Env :=
  mkEnv (fun _ => None) sample_clock sample_strftime
        (fun _ _ => None) None (fun _ _ => Some urgent_reply).

(** The failure path as the specification words it: whenever an exception
    escapes a run whose session was opened, the stored session is failed,
    with a message that is not empty and a completion time, and the run
    stored no pain point. *)
Definition failure_path_as_specified (env : Env) (limit : nat) (d : Db)
    : Prop :=
  forall e d',
    db_error env 0 = None -> unique_source_ids (raw_data d) = true ->
    run_request (extract_pain_points env limit) d = (Raise e, d') ->
    exists s,
      extraction_sessions d' = extraction_sessions d ++ [s]
      /\ ExtractionSession.status s = failed
      /\ (exists msg, ExtractionSession.error_message s = Some msg
                      /\ msg <> "")
      /\ is_Some (ExtractionSession.completed_at s)
      /\ pain_points d' = pain_points d.

(** Aggregate consistency as the specification words it: both breakdowns
    of a completed session sum to its number of extracted pain points. *)
Definition aggregates_as_specified (env : Env) (limit : nat) (d : Db)
    : Prop :=
  forall resp d',
    run_request (extract_pain_points env limit) d = (Ok resp, d') ->
    exists s,
      last (extraction_sessions d') = Some s
      /\ ExtractionSession.status s = completed
      /\ breakdown_sum (ExtractionSession.severity_breakdown s)
         = ExtractionSession.pain_points_extracted s
      /\ breakdown_sum (ExtractionSession.category_breakdown s)
         = ExtractionSession.pain_points_extracted s.

(** ** Further sample inputs *)

(** Storage is unreachable for the whole request. *)
Definition down_env : Env :=
  mkEnv (fun _ => Some "could not connect to server")
        sample_clock sample_strftime (fun _ _ => None) None (fun _ _ => None).

(** The classifier finds every text negative with confidence 0.95. *)
Definition harsh_env : Env :=
  mkEnv (fun _ => None) sample_clock sample_strftime
        (fun _ _ => Some (Sentiment.mk "NEGATIVE" (95 # 100)))
        None (fun _ _ => None).

Definition store3 : Db := mkDb [sample_raw 1 "t3_a"; sample_raw 8 "t3_b"] [] [].

Definition other_candidate : CandidateItem.t :=
  CandidateItem.mk "reddit" "t3_b" "support never answers"
                   (Some "bob") None (Some "saas") None.

(** ** What a candidate yields *)

(** The row that the save loop builds from a dictionary, with primary key
    [i]; [None] when one of the three keys read with [\[\]] is absent. *)
Definition pain_point_of (session_id : option nat) (i : nat)
    (pp_data : PainPointDict.t) : option PainPoint.t :=
  match PainPointDict.problem_statement pp_data,
        PainPointDict.category pp_data,
        PainPointDict.severity pp_data with
  | Some problem_statement, Some category_, Some severity_ =>
      Some (PainPoint.mk i (PainPointDict.raw_data_id pp_data) session_id
              problem_statement category_ severity_
              (PainPointDict.context pp_data)
              (PainPointDict.suggested_solution pp_data)
              (default [] (PainPointDict.tags pp_data))
              (PainPointDict.target_audience pp_data)
              (PainPointDict.related_industry pp_data)
              (default 50 (PainPointDict.opportunity_score pp_data)))
  | _, _, _ => None
  end.

(** A row with its primary key replaced. *)
Definition with_id (i : nat) (p : PainPoint.t) : PainPoint.t :=
  PainPoint.mk i (PainPoint.raw_data_id p) (PainPoint.extraction_session_id p)
    (PainPoint.problem_statement p) (PainPoint.category p)
    (PainPoint.severity p) (PainPoint.context p)
    (PainPoint.suggested_solution p) (PainPoint.tags p)
    (PainPoint.target_audience p) (PainPoint.related_industry p)
    (PainPoint.opportunity_score p).

(** What the endpoint makes of the candidate [r] at position [j] of its
    batch: the pain point, up to its primary key, or nothing. *)
Definition yield (env : Env) (session_id : nat) (j : nat) (r : RawData.t)
    : option PainPoint.t :=
  pp ← extract env j (RawData.content r)
         (MetaDict (default ∅ (RawData.source_metadata r)));
  pain_point_of (Some session_id) 0
    (PainPointDict.set_raw_data_id (RawData.id r) pp).

(** The extraction adapter answers every call with a complete record. *)
Definition high_reply : PainPointDict.t :=
  PainPointDict.mk (Some "Support does not answer") (Some "support")
                   (Some "high") None None (Some ["support"; "sla"])
                   None None None None.

Definition fluent_env : Env :=
  mkEnv (fun _ => None) sample_clock sample_strftime
        (fun _ _ => None) None (fun _ _ => Some high_reply).

(** ** Requests of every kind *)

(** What changes the store: the duplicate-tolerant save loop, the
    sentiment pass (endpoint and scheduled task) and the extraction
    (endpoint and scheduled task), each with its own environment. *)
Inductive Request :=
| IngestRequest (env : Env) (results : list CandidateItem.t)
| SentimentRequest (env : Env) (limit : nat)
| ScheduledSentiment (env : Env)
| ExtractionRequest (env : Env) (limit : nat)
| ScheduledExtraction (env : Env).

Definition serve (q : Request) (d : Db) : Db :=
  match q with
  | IngestRequest env results => (run_request (ingest env results) d).2
  | SentimentRequest env limit =>
      (run_request (process_sentiment env limit) d).2
  | ScheduledSentiment env =>
      (run_request (scheduler_process_sentiment env) d).2
  | ExtractionRequest env limit =>
      (run_request (extract_pain_points env limit) d).2
  | ScheduledExtraction env =>
      (run_request (scheduler_extract_pain_points env) d).2
  end.

Definition serve_all (qs : list Request) (d : Db) : Db :=
  foldl (fun d q => serve q d) d qs.

(** The schema's constraints on a store: primary keys, the unique
    [source_id], and the two foreign keys of a pain point. *)
Record consistent (d : Db) : Prop := mkConsistent {
  raw_keys : NoDup (RawData.id <$> raw_data d);
  raw_source_ids : NoDup (RawData.source_id <$> raw_data d);
  pain_point_keys : NoDup (PainPoint.id <$> pain_points d);
  session_keys : NoDup (ExtractionSession.id <$> extraction_sessions d);
  raw_references :
    forall p i, p ∈ pain_points d -> PainPoint.raw_data_id p = Some i ->
                i ∈ RawData.id <$> raw_data d;
  session_references :
    forall p i, p ∈ pain_points d ->
                PainPoint.extraction_session_id p = Some i ->
                i ∈ ExtractionSession.id <$> extraction_sessions d
}.

(** What identifies a raw row and never changes: key, origin and text. *)
Definition raw_identity (r : RawData.t)
    : nat * string * string * string * option Metadata :=
  (RawData.id r, RawData.source r, RawData.source_id r, RawData.content r,
   RawData.source_metadata r).

(** ** The other save loops ([main.py]) *)

Record CommentsResponse := mkCommentsResponse {
  posts_scraped : nat;
  posts_skipped : nat;
  comments_scraped : nat;
  comments_skipped : nat;
  total_items : nat
}.

Section OtherSaveLoops.
Context (env : Env).

(** The loop of [scrape_reddit]: every item is added to the session and
    nothing is sent to the database before the loop is over. *)
Definition add_all (results : list CandidateItem.t) (d : Db) : Db :=
  foldl (fun d item => add_raw item d) d results.

(** [scrape_reddit] from the scraper's [results] on: one commit for the
    whole batch.  The answer is ["items_scraped"]. *)
Definition scrape_reddit (subreddit : option string)
    (results : list CandidateItem.t) : M nat :=
  if bool_decide (subreddit = None \/ subreddit = Some "") then
    raise (HTTPException 400 "subreddit is required for Reddit scraping")
  else
    try_except
      (_ ← modify_work (add_all results);
       _ ← db_commit env;
       mret (length results))
      (fun e => raise (HTTPException 500 (str e))).

(** [scrape_reddit_with_comments] from the scraper's [results] on: the
    duplicate-tolerant loop over the posts, then over the comments. *)
Definition scrape_reddit_with_comments (posts comments : list CandidateItem.t)
    : M CommentsResponse :=
  try_except
    (p ← save_items env posts (0, 0)%nat;
     c ← save_items env comments (0, 0)%nat;
     mret (mkCommentsResponse p.1 p.2 c.1 c.2 (p.1 + c.1)))
    (fun e => raise (HTTPException 500 (str e))).
End OtherSaveLoops.

(** ** Read endpoints ([main.py]) *)

(** [ORDER BY opportunity_score DESC]: the rows come back in an order
    that descends in the score; the order among rows of equal score is
    the database's choice.  [Ordering] is what a caller can rely on, and
    [sort_by_score] is one such order. *)
Definition score_desc (p q : PainPoint.t) : Prop :=
  PainPoint.opportunity_score q <= PainPoint.opportunity_score p.

#[global] Instance score_desc_dec p q : Decision (score_desc p q) :=
  Z_le_dec _ _.

Record Ordering (order_by : list PainPoint.t -> list PainPoint.t) : Prop :=
  mkOrdering {
    ordering_sorted : forall rows, Sorted score_desc (order_by rows);
    ordering_permutation : forall rows, order_by rows ≡ₚ rows
  }.

Definition sort_by_score : list PainPoint.t -> list PainPoint.t :=
  merge_sort score_desc.

(** [if value: query = query.filter(cond)]: the filter is added for a
    truthy value only. *)
Definition filter_if {A} (value : option A) (falsy : A -> bool)
    (cond : A -> PainPoint.t -> bool) (query : list PainPoint.t)
    : list PainPoint.t :=
  match value with
  | Some v => if falsy v then query else filter (fun p => cond v p = true) query
  | None => query
  end.

Module PainPointResponse.
(** The response model of [/pain-points], with the fields that the
    embedding has columns for ([created_at] is filled in by the
    insert). *)
Record t := mk {
  id : nat;
  problem_statement : string;
  category : string;
  severity : string;
  context : string;
  opportunity_score : Z;
  tags : list string
}.
End PainPointResponse.

(** Validation of one returned row against the response model:
    [context: str] is required, so a row stored with a null context is
    refused; the other fields are never null in the embedding. *)
Definition to_response (p : PainPoint.t) : option PainPointResponse.t :=
  context ← PainPoint.context p;
  Some (PainPointResponse.mk (PainPoint.id p) (PainPoint.problem_statement p)
          (PainPoint.category p) (PainPoint.severity p) context
          (PainPoint.opportunity_score p) (PainPoint.tags p)).

(** What the client of an endpoint gets when the handler catches nothing:
    the validated body, or a server error for an exception of the
    handler or of the validation. *)
Inductive Http (A : Type) :=
| Http200 (body : A)
| Http500.
Arguments Http200 {A} body.
Arguments Http500 {A}.

Record SessionDetail := mkSessionDetail {
  detail_session : ExtractionSession.t;
  detail_pain_points : list PainPoint.t
}.

Section ReadEndpoints.
Context (env : Env) (order_by : list PainPoint.t -> list PainPoint.t).

(** The handler [get_pain_points], up to its [return]. *)
Definition get_pain_points (category severity : option string)
    (min_score : option Z) (limit : nat) : M (list PainPoint.t) :=
  db_query env (fun d =>
    let query := pain_points d in
    let query :=
      filter_if category (fun c => bool_decide (c = ""))
                (fun c p => bool_decide (PainPoint.category p = c)) query in
    let query :=
      filter_if severity (fun s => bool_decide (s = ""))
                (fun s p => bool_decide (PainPoint.severity p = s)) query in
    let query :=
      filter_if min_score (fun m => bool_decide (m = 0))
                (fun m p => bool_decide (m <= PainPoint.opportunity_score p))
                query in
    take limit (order_by query)).

(** The endpoint [/pain-points]: the handler, then the validation of what
    it returned against [response_model=List[PainPointResponse]]. *)
Definition pain_points_endpoint (category severity : option string)
    (min_score : option Z) (limit : nat) (d : Db)
    : Http (list PainPointResponse.t) :=
  match run_request (get_pain_points category severity min_score limit) d with
  | (Ok rows, _) =>
      match mapM to_response rows with
      | Some body => Http200 body
      | None => Http500
      end
  | (Raise _, _) => Http500
  end.

(** [get_extraction_session_detail]: the session row and the rows of its
    pain points; the response lists their columns. *)
Definition get_extraction_session_detail (session_id : nat)
    : M SessionDetail :=
  try_except
    (session ← db_query env (fun d =>
       head (filter (fun s => ExtractionSession.id s = session_id)
                    (extraction_sessions d)));
     match session with
     | None =>
         raise (HTTPException 404
                  (String.append "Session "
                     (String.append (pretty session_id) " not found")))
     | Some session =>
         pain_points ← db_query env (fun d =>
           order_by (filter (fun p => PainPoint.extraction_session_id p
                                      = Some session_id)
                            (pain_points d)));
         mret (mkSessionDetail session pain_points)
     end)
    (fun e =>
       match e with
       | HTTPException _ _ => raise e
       | _ => raise (HTTPException 500 (str e))
       end).
End ReadEndpoints.

(** What the filters of a [get_pain_points] request ask of a row. *)
Definition wanted (category severity : option string) (min_score : option Z)
    (p : PainPoint.t) : Prop :=
  (forall c, category = Some c -> c <> "" -> PainPoint.category p = c)
  /\ (forall s, severity = Some s -> s <> "" -> PainPoint.severity p = s)
  /\ (forall m, min_score = Some m -> m <> 0 ->
        m <= PainPoint.opportunity_score p).

(** A store with two scored pain points of one session. *)
Definition scored_point (i : nat) (severity_ : string) (score : Z)
    : PainPoint.t :=
  PainPoint.mk i (Some i) (Some 1%nat) "Exports are slow" "performance"
               severity_ None None [] None None score.

Definition store4 : Db :=
  mkDb [sample_raw 1 "t3_a"; sample_raw 2 "t3_b"]
       [scored_point 1 "low" 25; scored_point 2 "high" 80]
       [ExtractionSession.create 1 "Analysis 2024-05-01 10:00" 0].

(** The same rows, stored with a context. *)
Definition with_context (c : string) (p : PainPoint.t) : PainPoint.t :=
  PainPoint.mk (PainPoint.id p) (PainPoint.raw_data_id p)
    (PainPoint.extraction_session_id p) (PainPoint.problem_statement p)
    (PainPoint.category p) (PainPoint.severity p) (Some c)
    (PainPoint.suggested_solution p) (PainPoint.tags p)
    (PainPoint.target_audience p) (PainPoint.related_industry p)
    (PainPoint.opportunity_score p).

Definition store5 : Db :=
  mkDb (raw_data store4)
       (with_context "when exporting a month of data" <$> pain_points store4)
       (extraction_sessions store4).

(** The rows that satisfy the WHERE clause of the candidate query, before
    its LIMIT. *)
Definition eligible (d : Db) : list RawData.t :=
  filter (fun r => candidate (processed_ids_of d) r = true) (raw_data d).

(** Reduction of the projections of an explicit session state. *)
Ltac run_step := cbn [work committed db_ops clock_reads fst snd].

(** * Properties *)

(** ** Opportunity score *)

Lemma severity_bonus_agrees (sev : string) :
  default 0 (severity_scores !! sev) = spec_severity_bonus sev.
Proof.
  unfold severity_scores, spec_severity_bonus.
  destruct (String.eqb_spec sev "critical") as [->|Hc]; [reflexivity|].
  rewrite lookup_insert_ne by congruence.
  destruct (String.eqb_spec sev "high") as [->|Hh]; [reflexivity|].
  rewrite lookup_insert_ne by congruence.
  destruct (String.eqb_spec sev "medium") as [->|Hm]; [reflexivity|].
  rewrite lookup_insert_ne by congruence.
  destruct (String.eqb_spec sev "low") as [->|Hl]; [reflexivity|].
  rewrite lookup_singleton_ne by congruence. reflexivity.
Qed.

Lemma severity_bonus_range (sev : string) :
  0 <= spec_severity_bonus sev <= 30.
Proof.
  unfold spec_severity_bonus.
  repeat match goal with |- context [String.eqb ?a ?b] =>
    destruct (String.eqb a b) end; lia.
Qed.

(** The code never returns more than 100. *)
Lemma opportunity_score_le_100 pain_point metadata score :
  _calculate_opportunity pain_point metadata = Ok score -> score <= 100.
Proof.
  unfold _calculate_opportunity.
  destruct (PainPointDict.severity pain_point); [|discriminate].
  destruct metadata as [|m|]; cbn; try discriminate;
    try destruct (bool_decide (m = ∅)); cbn;
    intros [= <-]; apply Z.le_min_r.
Qed.

(** With counts that are not negative the score stays within 50..100. *)
Lemma opportunity_score_ge_50 pain_point (m : Metadata) score :
  0 <= default 0 (m !! "score") -> 0 <= default 0 (m !! "num_comments") ->
  _calculate_opportunity pain_point (MetaDict m) = Ok score ->
  50 <= score <= 100.
Proof.
  intros Hs Hn. unfold _calculate_opportunity.
  destruct (PainPointDict.severity pain_point) as [sev|]; [|discriminate].
  rewrite severity_bonus_agrees.
  pose proof (severity_bonus_range sev).
  pose proof (Z.div_pos _ 10 Hs ltac:(lia)).
  pose proof (Z.div_pos _ 5 Hn ltac:(lia)).
  cbn. destruct (bool_decide (m = ∅)); cbn; intros [= <-]; lia.
Qed.

(** C3: the score of a heavily downvoted item falls below the promised
    range 1..100: with severity [low], an engagement score of -600 and no
    comments the code returns -5, because only the upper end is
    clamped. *)
Theorem opportunity_score_below_range :
  _calculate_opportunity (with_severity "low")
    (MetaDict {[ "score" := -600; "num_comments" := 0 ]}) = Ok (-5)
  /\ ~ (1 <= -5 <= 100).
Proof. split; [vm_compute; reflexivity | lia]. Qed.

(** C4: the code computes the formula of the specification: base 50, the
    severity bonus, the two capped social-proof terms when metadata is
    there, the total capped at 100; severity critical with engagement 120
    and 30 comments gives 98. *)
Theorem opportunity_score_formula pain_point metadata sev
    (Hsev : PainPointDict.severity pain_point = Some sev) :
  _calculate_opportunity pain_point (metadata_arg metadata)
  = Ok (spec_opportunity sev metadata)
  /\ (forall m, sev = "critical" -> metadata = Some m ->
        m !! "score" = Some 120 -> m !! "num_comments" = Some 30 ->
        _calculate_opportunity pain_point (metadata_arg metadata) = Ok 98).
Proof.
  assert (Hmain : _calculate_opportunity pain_point (metadata_arg metadata)
                  = Ok (spec_opportunity sev metadata)).
  { unfold _calculate_opportunity, spec_opportunity. rewrite Hsev.
    rewrite severity_bonus_agrees.
    destruct metadata as [m|]; cbn; [|do 2 f_equal; lia].
    destruct (bool_decide_reflect (m = ∅)) as [->|_]; cbn.
    - rewrite !lookup_empty. cbn. change (0 `div` 10) with 0.
      change (0 `div` 5) with 0. do 2 f_equal. lia.
    - do 2 f_equal. lia. }
  split; [exact Hmain|].
  intros m -> -> Hs Hn. rewrite Hmain.
  unfold spec_opportunity, spec_social_bonus. rewrite Hs, Hn. reflexivity.
Qed.

Lemma opportunity_score_formula_witness :
  _calculate_opportunity (with_severity "critical")
    (MetaDict {[ "score" := 120; "num_comments" := 30 ]}) = Ok 98.
Proof.
  refine (proj2 (opportunity_score_formula (with_severity "critical")
            (Some {[ "score" := 120; "num_comments" := 30 ]}) "critical"
            eq_refl) _ eq_refl eq_refl _ _); vm_compute; reflexivity.
Defined.

(** ** Sentiment filter *)

Lemma keep_spec (s : Sentiment.t) :
  keep s = Ok true <->
  exists q, s = Sentiment.mk "NEGATIVE" q /\ (threshold < q)%Q.
Proof.
  assert (Hq : forall q,
            negb (Qle_bool q threshold) = true <-> (threshold < q)%Q).
  { intros q. rewrite negb_true_iff. split.
    - intros Hb. apply Qnot_le_lt. intros Hle. apply Qle_bool_iff in Hle.
      congruence.
    - intros Hlt. destruct (Qle_bool q threshold) eqn:E; [|reflexivity].
      apply Qle_bool_iff in E. exfalso. exact (Qlt_not_le _ _ Hlt E). }
  unfold Sentiment.mk.
  destruct s as [[[l|q|n]|] score|msg]; cbn [keep];
    try (split; [discriminate | intros (q0 & [=] & _)]).
  destruct (String.eqb_spec l "NEGATIVE") as [->|Hne].
  - destruct score as [[l'|q|n]|];
      try (split; [discriminate | intros (q0 & [=] & _)]).
    split.
    + intros [= Hb]. exists q. split; [reflexivity|]. apply Hq, Hb.
    + intros (q0 & [= <-] & Hlt). f_equal. apply Hq, Hlt.
  - split; [discriminate|]. intros (q0 & [= ->] & _). contradiction.
Qed.

(** The answers on which the condition can be evaluated. *)
Lemma keep_returns (s : Sentiment.t) :
  (exists b, keep s = Ok b) <->
  exists label score,
    s = Sentiment.Dict (Some label) score
    /\ (label = Sentiment.Str "NEGATIVE" ->
        exists q, score = Some (Sentiment.Num q)).
Proof.
  destruct s as [[[l|q|n]|] score|msg]; cbn [keep].
  - destruct (String.eqb_spec l "NEGATIVE") as [->|Hne].
    + destruct score as [[l'|q|n]|].
      * split; [intros [b [=]]|].
        intros (label & score & [= <- <-] & H).
        destruct (H eq_refl) as [q [=]].
      * split; [|eauto]. intros _. eexists _, _. eauto.
      * split; [intros [b [=]]|].
        intros (label & score & [= <- <-] & H).
        destruct (H eq_refl) as [q [=]].
      * split; [intros [b [=]]|].
        intros (label & score & [= <- <-] & H).
        destruct (H eq_refl) as [q [=]].
    + split; [|eauto]. intros _. eexists _, _. split; [reflexivity|].
      intros [= ->]. contradiction.
  - split; [|eauto]. intros _. eexists _, _. split; [reflexivity|].
    intros [=].
  - split; [|eauto]. intros _. eexists _, _. split; [reflexivity|].
    intros [=].
  - split; [intros [b [=]] | intros (l & s & [=] & _)].
  - split; [intros [b [=]] | intros (l & s & [=] & _)].
Qed.

(** A call that failed counts as neutral. *)
Lemma keep_neutral : keep neutral = Ok false.
Proof. reflexivity. Qed.

Lemma keep_failed_call env k text :
  classify env k (String.substring 0 1000 text) = None ->
  keep (analyze_sentiment env k text) = Ok false.
Proof. intros Hfail. unfold analyze_sentiment. rewrite Hfail. reflexivity. Qed.

Lemma filter_negative_from_spec env k items outs out :
  filter_negative_from env k items = Ok outs ->
  out ∈ outs <->
  exists j item q,
    items !! j = Some item /\
    analyze_sentiment env (k + j) (SentimentItem.content item)
    = Sentiment.mk "NEGATIVE" q /\
    (threshold < q)%Q /\
    out = SentimentItem.mk (SentimentItem.id item) (SentimentItem.content item)
            (Some (- q)%Q) (Some true).
Proof.
  revert k outs. induction items as [|item rest IH]; intros k outs;
    cbn [filter_negative_from].
  - intros [= <-].
    split; [intros H; inversion H
           | intros (j & it & q & H & _); discriminate].
  - unfold mbind, res_bind, mret, res_ret.
    destruct (keep (analyze_sentiment env k (SentimentItem.content item)))
      as [kept|e] eqn:Hk; [|discriminate].
    destruct (filter_negative_from env (S k) rest) as [filtered|e] eqn:Hrest;
      [|discriminate].
    intros [= <-]. specialize (IH (S k) filtered Hrest).
    destruct kept.
    + apply keep_spec in Hk as (q & Ha & Hq).
      rewrite elem_of_cons, IH, Ha. cbn [negated_score Sentiment.mk]. split.
      * intros [-> | (j & it & q' & Hj & Ha' & Hq' & ->)].
        -- exists 0%nat, item, q. rewrite Nat.add_0_r. auto.
        -- exists (S j), it, q'. rewrite Nat.add_succ_r. auto.
      * intros (j & it & q' & Hj & Ha' & Hq' & ->).
        destruct j as [|j]; cbn in Hj.
        -- injection Hj as <-. rewrite Nat.add_0_r, Ha in Ha'.
           injection Ha' as <-. left. reflexivity.
        -- right. exists j, it, q'. rewrite Nat.add_succ_r in Ha'. auto.
    + rewrite IH. split.
      * intros (j & it & q' & Hj & Ha' & Hq' & ->). exists (S j), it, q'.
        rewrite Nat.add_succ_r. auto.
      * intros (j & it & q' & Hj & Ha' & Hq' & ->).
        destruct j as [|j]; cbn in Hj.
        -- injection Hj as <-. rewrite Nat.add_0_r in Ha'.
           assert (Hk' : keep (analyze_sentiment env k
                                 (SentimentItem.content item)) = Ok true)
             by (apply keep_spec; eauto).
           congruence.
        -- exists j, it, q'. rewrite Nat.add_succ_r in Ha'. auto.
Qed.

(** The filter returns when the condition can be evaluated on every
    answer, and otherwise raises what the first answer on which it cannot
    raises. *)
Lemma filter_negative_from_cases env k items :
  (exists outs,
     filter_negative_from env k items = Ok outs
     /\ forall j item, items !! j = Some item ->
          exists b, keep (analyze_sentiment env (k + j)
                            (SentimentItem.content item)) = Ok b)
  \/ (exists j item e,
        items !! j = Some item
        /\ keep (analyze_sentiment env (k + j) (SentimentItem.content item))
           = Raise e
        /\ filter_negative_from env k items = Raise e
        /\ forall j' item', (j' < j)%nat -> items !! j' = Some item' ->
             exists b, keep (analyze_sentiment env (k + j')
                               (SentimentItem.content item')) = Ok b).
Proof.
  revert k. induction items as [|item rest IH]; intros k;
    cbn [filter_negative_from].
  - left. exists []. split; [reflexivity|]. intros j item Hj. discriminate Hj.
  - unfold mbind, res_bind, mret, res_ret.
    destruct (keep (analyze_sentiment env k (SentimentItem.content item)))
      as [kept|e] eqn:Hk.
    + destruct (IH (S k)) as [(outs & -> & Hall)
                             |(j & it & e & Hj & Hraise & -> & Hbefore)].
      * left. eexists. split; [reflexivity|]. intros [|j] it Hj; cbn in Hj.
        -- injection Hj as <-. rewrite Nat.add_0_r. eauto.
        -- rewrite Nat.add_succ_r. apply (Hall j it Hj).
      * right. exists (S j), it, e. rewrite Nat.add_succ_r.
        split; [exact Hj|]. split; [exact Hraise|]. split; [reflexivity|].
        intros [|j'] it' Hlt Hj'; cbn in Hj'.
        -- injection Hj' as <-. rewrite Nat.add_0_r. eauto.
        -- rewrite Nat.add_succ_r. apply (Hbefore j' it'); [lia | exact Hj'].
    + right. exists 0%nat, item, e. rewrite Nat.add_0_r.
      split; [reflexivity|]. split; [exact Hk|]. split; [reflexivity|].
      intros j' it' Hlt. lia.
Qed.

Lemma filter_negative_from_ok env k items :
  (forall j item, items !! j = Some item ->
     exists b, keep (analyze_sentiment env (k + j)
                       (SentimentItem.content item)) = Ok b) ->
  exists outs, filter_negative_from env k items = Ok outs.
Proof.
  intros Hall.
  destruct (filter_negative_from_cases env k items)
    as [(outs & Hf & _)|(j & item & e & Hj & Hraise & _)]; [eauto|].
  destruct (Hall j item Hj) as [b Hb]. congruence.
Qed.

Lemma filter_negative_from_ok_inv env k items outs :
  filter_negative_from env k items = Ok outs ->
  forall j item, items !! j = Some item ->
    exists b, keep (analyze_sentiment env (k + j)
                      (SentimentItem.content item)) = Ok b.
Proof.
  intros Hf.
  destruct (filter_negative_from_cases env k items)
    as [(outs' & _ & Hall)|(j & item & e & _ & _ & Hr & _)];
    [exact Hall | congruence].
Qed.

Lemma filter_negative_from_raise env k items j item e :
  items !! j = Some item ->
  keep (analyze_sentiment env (k + j) (SentimentItem.content item)) = Raise e ->
  (forall j' item', (j' < j)%nat -> items !! j' = Some item' ->
     exists b, keep (analyze_sentiment env (k + j')
                       (SentimentItem.content item')) = Ok b) ->
  filter_negative_from env k items = Raise e.
Proof.
  intros Hj Hraise Hbefore.
  destruct (filter_negative_from_cases env k items)
    as [(outs & _ & Hall)|(j0 & item0 & e0 & Hj0 & Hraise0 & Hf & Hbefore0)].
  - destruct (Hall j item Hj) as [b Hb]. congruence.
  - destruct (Nat.lt_trichotomy j0 j) as [Hlt|[->|Hgt]].
    + destruct (Hbefore j0 item0 Hlt Hj0) as [b Hb]. congruence.
    + rewrite Hj in Hj0. injection Hj0 as <-. congruence.
    + destruct (Hbefore0 j item Hgt Hj) as [b Hb]. congruence.
Qed.

Lemma filter_negative_from_raise_inv env k items e :
  filter_negative_from env k items = Raise e ->
  exists j item,
    items !! j = Some item
    /\ keep (analyze_sentiment env (k + j) (SentimentItem.content item))
       = Raise e.
Proof.
  intros Hf.
  destruct (filter_negative_from_cases env k items)
    as [(outs & Hok & _)|(j & item & e0 & Hj & Hraise & Hr & _)];
    [congruence|].
  exists j, item. split; [exact Hj|]. congruence.
Qed.

(** ** Sentiment pass *)

(** A primary key identifies its row. *)
Lemma NoDup_fmap_eq {A B} (f : A -> B) (l : list A) (x y : A) :
  NoDup (f <$> l) -> x ∈ l -> y ∈ l -> f x = f y -> x = y.
Proof.
  induction l as [|a l IH]; simpl; intros Hnd Hx Hy Hf.
  - inversion Hx.
  - apply NoDup_cons in Hnd as [Hna Hnd].
    apply elem_of_cons in Hx as [->|Hx]; apply elem_of_cons in Hy as [->|Hy];
      auto.
    + exfalso. apply Hna. rewrite Hf. apply list_elem_of_fmap. eauto.
    + exfalso. apply Hna. rewrite <- Hf. apply list_elem_of_fmap. eauto.
Qed.

Lemma mark_id negs r : RawData.id (mark negs r) = RawData.id r.
Proof. unfold mark. case_bool_decide; reflexivity. Qed.

Lemma mark_source_id negs r :
  RawData.source_id (mark negs r) = RawData.source_id r.
Proof. unfold mark. case_bool_decide; reflexivity. Qed.

Lemma mark_processed negs r : RawData.processed (mark negs r) = true.
Proof. unfold mark. case_bool_decide; reflexivity. Qed.

Lemma mark_idempotent negs r : mark negs (mark negs r) = mark negs r.
Proof.
  unfold mark. simpl.
  repeat case_bool_decide; first [reflexivity | contradiction].
Qed.

Lemma mark_not_negative negs r :
  RawData.id r ∉ (SentimentItem.id <$> negs) ->
  mark negs r = RawData.set_processed r.
Proof.
  intros Hn. unfold mark. rewrite bool_decide_eq_false_2; [reflexivity|].
  rewrite elem_of_list_to_set. exact Hn.
Qed.

Lemma mark_negative negs r :
  RawData.id r ∈ (SentimentItem.id <$> negs) ->
  RawData.is_negative (mark negs r) = Some true
  /\ RawData.sentiment_score (mark negs r)
     = negative_score negs (RawData.id r).
Proof.
  intros Hn. unfold mark. rewrite bool_decide_eq_true_2; [split; reflexivity|].
  rewrite elem_of_list_to_set. exact Hn.
Qed.

(** The update loop in closed form: every row whose key is among the
    selected ones is marked once. *)
Lemma mark_all_spec negs items d :
  mark_all negs items d =
  mkDb ((fun r => if bool_decide (RawData.id r ∈ RawData.id <$> items)
                  then mark negs r else r) <$> raw_data d)
       (pain_points d) (extraction_sessions d).
Proof.
  unfold mark_all. revert d.
  induction items as [|it rest IH]; intros d; simpl.
  - destruct d as [rows pp ss]; simpl. f_equal.
    induction rows as [|r rows IHr]; simpl; [reflexivity|].
    f_equal. exact IHr.
  - rewrite IH. unfold update_raw; simpl. f_equal.
    rewrite <- list_fmap_compose. apply list_fmap_ext. intros _ r _. simpl.
    destruct (bool_decide_reflect (RawData.id r = RawData.id it)) as [He|Hne].
    + rewrite mark_id.
      rewrite (bool_decide_eq_true_2 (RawData.id r ∈ _ :: _))
        by (rewrite He; apply elem_of_cons; auto).
      case_bool_decide; [apply mark_idempotent | reflexivity].
    + destruct (bool_decide_reflect (RawData.id r ∈ RawData.id <$> rest))
        as [Hin|Hnin].
      * rewrite bool_decide_eq_true_2; [reflexivity|].
        apply elem_of_cons; auto.
      * rewrite bool_decide_eq_false_2; [reflexivity|].
        rewrite elem_of_cons. intros [?|?]; contradiction.
Qed.

Lemma mark_all_source_ids negs items d :
  RawData.source_id <$> raw_data (mark_all negs items d)
  = RawData.source_id <$> raw_data d.
Proof.
  rewrite mark_all_spec. simpl. rewrite <- list_fmap_compose.
  apply list_fmap_ext. intros _ r _. simpl.
  case_bool_decide; [apply mark_source_id | reflexivity].
Qed.

(** The pass, run on a fresh session. *)
Lemma sentiment_pass_run env limit d :
  sentiment_pass env limit (mkWorld d d 0 0) =
  match db_error env 0 with
  | Some msg => (Raise (OperationalError msg), mkWorld d d 1 0)
  | None =>
      let items := select_unprocessed limit d in
      match items with
      | [] => (Ok NoItemsToProcess, mkWorld d d 1 0)
      | _ =>
          match filter_negative env
                  ((fun item => SentimentItem.mk (RawData.id item)
                                  (RawData.content item) None None)
                     <$> items) with
          | Raise e => (Raise e, mkWorld d d 1 0)
          | Ok negs =>
              let d1 := mark_all negs items d in
              match db_error env 1 with
              | Some msg => (Raise (OperationalError msg), mkWorld d d 2 0)
              | None =>
                  if unique_source_ids (raw_data d) then
                    (Ok (SentimentProcessed (length items) (length negs)),
                     mkWorld d1 d1 2 0)
                  else
                    (Raise (IntegrityError
                              "duplicate key value violates unique constraint"),
                     mkWorld d d 2 0)
              end
          end
      end
  end.
Proof.
  unfold sentiment_pass, mbind, M_bind, db_query.
  cbn [work committed db_ops clock_reads].
  destruct (db_error env 0); [reflexivity|].
  cbv zeta.
  destruct (select_unprocessed limit d) as [|it rest] eqn:Hsel;
    [reflexivity|].
  unfold lift.
  destruct (filter_negative env _) as [negs|e]; [|reflexivity].
  unfold modify_work, db_commit, set_work.
  cbn [work committed db_ops clock_reads].
  destruct (db_error env 1); [reflexivity|].
  unfold unique_source_ids. rewrite mark_all_source_ids.
  case_bool_decide; reflexivity.
Qed.

(** What the filter makes of the batch of a pass, in terms of the
    selected rows. *)
Lemma filter_negative_of_rows (rows : list RawData.t) :
  let items := (fun item => SentimentItem.mk (RawData.id item)
                              (RawData.content item) None None) <$> rows in
  (forall j item, items !! j = Some item ->
     exists r, rows !! j = Some r
               /\ item = SentimentItem.mk (RawData.id r) (RawData.content r)
                           None None)
  /\ (forall j r, rows !! j = Some r ->
        items !! j = Some (SentimentItem.mk (RawData.id r) (RawData.content r)
                             None None)).
Proof.
  cbv zeta. split.
  - intros j item Hj. rewrite list_lookup_fmap in Hj.
    destruct (rows !! j) as [r|]; [|discriminate].
    injection Hj as <-. eauto.
  - intros j r Hj. rewrite list_lookup_fmap, Hj. reflexivity.
Qed.

Lemma select_unprocessed_spec limit d r :
  r ∈ select_unprocessed limit d ->
  r ∈ raw_data d
  /\ RawData.processed r = false /\ RawData.sentiment_score r = None.
Proof.
  unfold select_unprocessed. intros Hin.
  apply (subseteq_take limit) in Hin.
  apply list_elem_of_filter in Hin as [Hu Hin]. split; [exact Hin|].
  unfold unprocessed in Hu. apply andb_true_iff in Hu as [Hp Hs].
  apply negb_true_iff in Hp. apply bool_decide_eq_true in Hs. auto.
Qed.

Lemma sentiment_pass_keeps_scored env limit d k r result w :
  NoDup (RawData.id <$> raw_data d) ->
  raw_data d !! k = Some r ->
  RawData.sentiment_score r <> None ->
  sentiment_pass env limit (mkWorld d d 0 0) = (result, w) ->
  raw_data (committed w) !! k = Some r.
Proof.
  intros Hpk Hk Hscore. rewrite sentiment_pass_run.
  destruct (db_error env 0); [intros [= _ <-]; exact Hk|].
  cbv zeta.
  destruct (select_unprocessed limit d) as [|it rest] eqn:Hsel;
    [intros [= _ <-]; exact Hk|].
  destruct (filter_negative env _) as [negs|e0]; [|intros [= _ <-]; exact Hk].
  destruct (db_error env 1); [intros [= _ <-]; exact Hk|].
  destruct (unique_source_ids (raw_data d)); [|intros [= _ <-]; exact Hk].
  intros [= _ <-]. cbn [committed]. rewrite mark_all_spec. cbn [raw_data].
  rewrite list_lookup_fmap, Hk. cbn [fmap option_fmap option_map]. f_equal.
  rewrite bool_decide_eq_false_2; [reflexivity|].
  intros Hin. apply list_elem_of_fmap in Hin as (r' & Hid & Hr').
  rewrite <- Hsel in Hr'.
  apply select_unprocessed_spec in Hr' as (Hmem & _ & Hnone).
  assert (r = r') as <-.
  { eapply NoDup_fmap_eq; eauto. eapply list_elem_of_lookup_2; eauto. }
  contradiction.
Qed.

(** C10: the sentiment pass, in the endpoint and in the scheduled task,
    selects only rows with [processed = false] and no score; a row that
    has a score is never selected and is found unchanged in the store
    after the pass, whatever its [processed] flag. *)
Theorem scored_rows_untouched env limit d
    (Hpk : NoDup (RawData.id <$> raw_data d)) :
  (forall r, r ∈ select_unprocessed limit d ->
             RawData.processed r = false /\ RawData.sentiment_score r = None)
  /\ (forall k r,
        raw_data d !! k = Some r -> RawData.sentiment_score r <> None ->
        (r ∉ select_unprocessed limit d)
        /\ (r ∉ select_unprocessed 100 d)
        /\ raw_data (run_request (process_sentiment env limit) d).2 !! k
           = Some r
        /\ raw_data (run_request (scheduler_process_sentiment env) d).2 !! k
           = Some r).
Proof.
  split.
  - intros r Hr. apply select_unprocessed_spec in Hr. tauto.
  - intros k r Hk Hscore.
    split; [|split; [|split]].
    + intros Hr. apply select_unprocessed_spec in Hr. tauto.
    + intros Hr. apply select_unprocessed_spec in Hr. tauto.
    + unfold run_request, process_sentiment, try_except.
      destruct (sentiment_pass env limit (mkWorld d d 0 0)) as [result w]
        eqn:Hrun.
      pose proof (sentiment_pass_keeps_scored _ _ _ _ _ _ _ Hpk Hk Hscore Hrun).
      destruct result; assumption.
    + unfold run_request, scheduler_process_sentiment.
      destruct (sentiment_pass env 100 (mkWorld d d 0 0)) as [result w]
        eqn:Hrun.
      exact (sentiment_pass_keeps_scored _ _ _ _ _ _ _ Hpk Hk Hscore Hrun).
Qed.

Lemma scored_rows_untouched_witness :
  raw_data (run_request (process_sentiment calm_env 100) store2).2 !! 0%nat
  = Some scored_raw.
Proof.
  refine (proj1 (proj2 (proj2 (proj2 (scored_rows_untouched calm_env 100 store2 _)
            0%nat scored_raw eq_refl _)))).
  - exact (bool_decide_unpack (NoDup [7; 8]%nat) I).
  - discriminate.
Defined.

Lemma filter_negative_all_fail env k items :
  (forall j t, classify env j t = None) ->
  filter_negative_from env k items = Ok [].
Proof.
  intros Hfail. revert k. induction items as [|it rest IH]; intros k;
    [reflexivity|].
  cbn [filter_negative_from]. rewrite keep_failed_call by apply Hfail.
  rewrite IH. reflexivity.
Qed.

Lemma select_unprocessed_NoDup limit d :
  NoDup (RawData.id <$> raw_data d) -> NoDup (select_unprocessed limit d).
Proof.
  intros Hpk. unfold select_unprocessed.
  apply NoDup_fmap_1 in Hpk.
  eapply sublist_NoDup; [|apply sublist_take].
  apply NoDup_filter. exact Hpk.
Qed.

(** A selected row whose classifier call failed is not among the negative
    items. *)
Lemma failed_call_not_negative env limit d j r negs :
  NoDup (RawData.id <$> raw_data d) ->
  select_unprocessed limit d !! j = Some r ->
  classify env j (String.substring 0 1000 (RawData.content r)) = None ->
  filter_negative env
    ((fun item => SentimentItem.mk (RawData.id item)
                    (RawData.content item) None None)
       <$> select_unprocessed limit d) = Ok negs ->
  RawData.id r ∉ (SentimentItem.id <$> negs).
Proof.
  intros Hpk Hj Hfail Hf Hin.
  apply list_elem_of_fmap in Hin as (out & Hid & Hout).
  unfold filter_negative in Hf.
  apply (filter_negative_from_spec _ _ _ _ out Hf) in Hout
    as (j' & item & q & Hj' & Ha & Hq & ->).
  cbn [SentimentItem.id] in Hid. rewrite Nat.add_0_l in Ha.
  rewrite list_lookup_fmap in Hj'.
  destruct (select_unprocessed limit d !! j') as [r'|] eqn:Hr';
    [|discriminate].
  cbn in Hj'. injection Hj' as <-. cbn [SentimentItem.id SentimentItem.content] in *.
  assert (r = r') as <-.
  { eapply (NoDup_fmap_eq RawData.id (raw_data d)); eauto.
    - apply (select_unprocessed_spec limit).
      eapply list_elem_of_lookup_2; eauto.
    - apply (select_unprocessed_spec limit).
      eapply list_elem_of_lookup_2; eauto. }
  assert (j = j') as <-.
  { apply (NoDup_lookup (select_unprocessed limit d) j j' r);
      [apply select_unprocessed_NoDup; exact Hpk | exact Hj | exact Hr']. }
  pose proof (keep_failed_call env j (RawData.content r) Hfail) as Hkeep.
  assert (Hkeep' : keep (analyze_sentiment env j (RawData.content r)) = Ok true)
    by (apply keep_spec; eauto).
  congruence.
Qed.




(** The kept items come from the batch in order, so their keys are
    distinct when the batch's are. *)
Lemma filter_negative_ids_sublist env k items outs :
  filter_negative_from env k items = Ok outs ->
  (SentimentItem.id <$> outs) `sublist_of` (SentimentItem.id <$> items).
Proof.
  revert k outs. induction items as [|it rest IH]; intros k outs;
    cbn [filter_negative_from fmap list_fmap].
  - intros [= <-]. constructor.
  - unfold mbind, res_bind, mret, res_ret.
    destruct (keep (analyze_sentiment env k (SentimentItem.content it)))
      as [kept|e]; [|discriminate].
    destruct (filter_negative_from env (S k) rest) as [filtered|e] eqn:Hrest;
      [|discriminate].
    intros [= <-]. specialize (IH (S k) filtered Hrest). destruct kept.
    + cbn [fmap list_fmap SentimentItem.id]. apply sublist_skip, IH.
    + apply sublist_cons, IH.
Qed.

(** With distinct keys, the score looked up for an item's key is that
    item's score. *)
Lemma negative_score_of_member negs out :
  NoDup (SentimentItem.id <$> negs) -> out ∈ negs ->
  negative_score negs (SentimentItem.id out)
  = SentimentItem.sentiment_score out.
Proof.
  unfold negative_score.
  induction negs as [|a negs IH]; cbn [fmap list_fmap]; intros Hnd Hin.
  - inversion Hin.
  - apply NoDup_cons in Hnd as [Hna Hnd]. rewrite filter_cons.
    destruct (decide (SentimentItem.id a = SentimentItem.id out)) as [He|Hne].
    + apply elem_of_cons in Hin as [->|Hin]; [reflexivity|].
      exfalso. apply Hna. rewrite He. apply list_elem_of_fmap. eauto.
    + apply elem_of_cons in Hin as [->|Hin]; [congruence|]. auto.
Qed.

(** A selected row whose answer is kept is stored as negative with the
    negated confidence. *)
Lemma negative_row_stored env limit d j k r q :
  (forall n, db_error env n = None) ->
  unique_source_ids (raw_data d) = true ->
  NoDup (RawData.id <$> raw_data d) ->
  (forall j' r', select_unprocessed limit d !! j' = Some r' ->
     exists b, keep (analyze_sentiment env j' (RawData.content r')) = Ok b) ->
  select_unprocessed limit d !! j = Some r ->
  raw_data d !! k = Some r ->
  analyze_sentiment env j (RawData.content r) = Sentiment.mk "NEGATIVE" q ->
  (threshold < q)%Q ->
  raw_data (run_request (process_sentiment env limit) d).2 !! k
  = Some (RawData.set_processed (RawData.set_negative (Some (- q)%Q) r)).
Proof.
  intros Hdb Huniq Hpk Hall Hj Hk Ha Hq.
  destruct (filter_negative_of_rows (select_unprocessed limit d))
    as [Hitems Hrows].
  unfold run_request, process_sentiment, try_except.
  rewrite sentiment_pass_run, (Hdb 0%nat), (Hdb 1%nat), Huniq. cbv zeta.
  destruct (select_unprocessed limit d) as [|it rest] eqn:Hsel;
    [discriminate Hj|].
  rewrite <- Hsel in *.
  destruct (filter_negative_from_ok env 0
              ((fun item => SentimentItem.mk (RawData.id item)
                              (RawData.content item) None None)
                 <$> select_unprocessed limit d)) as [negs Hnegs].
  { intros j' item Hj'. destruct (Hitems j' item Hj') as (r' & Hr' & ->).
    apply (Hall j' r' Hr'). }
  unfold filter_negative. rewrite Hnegs.
  cbn [snd committed]. rewrite mark_all_spec. cbn [raw_data].
  rewrite list_lookup_fmap, Hk. cbn [fmap option_fmap option_map].
  rewrite bool_decide_eq_true_2
    by (apply list_elem_of_fmap; exists r; split; [reflexivity|];
        eapply list_elem_of_lookup_2; eauto).
  f_equal.
  set (out := SentimentItem.mk (RawData.id r) (RawData.content r)
                (Some (- q)%Q) (Some true)).
  assert (Hout : out ∈ negs).
  { apply (filter_negative_from_spec _ _ _ _ out Hnegs).
    exists j. eexists. exists q. rewrite (Hrows j r Hj).
    split; [reflexivity|]. split; [exact Ha|]. split; [exact Hq|reflexivity]. }
  assert (Hnd : NoDup (SentimentItem.id <$> negs)).
  { eapply sublist_NoDup; [|apply (filter_negative_ids_sublist _ _ _ _ Hnegs)].
    rewrite <- list_fmap_compose.
    change (NoDup (RawData.id <$> select_unprocessed limit d)).
    eapply sublist_NoDup; [exact Hpk|]. apply fmap_sublist.
    unfold select_unprocessed.
    etransitivity; [apply sublist_take | apply sublist_filter]. }
  unfold mark.
  rewrite bool_decide_eq_true_2
    by (rewrite elem_of_list_to_set; apply list_elem_of_fmap;
        exists out; split; [reflexivity | exact Hout]).
  change (RawData.id r) with (SentimentItem.id out).
  rewrite (negative_score_of_member negs out Hnd Hout). reflexivity.
Qed.

(** C9: an answer counts as negative exactly when its label is NEGATIVE
    and its confidence is above 0.7; [filter_negative] returns exactly
    when that condition can be evaluated on every answer, and the items
    it keeps are exactly those with such an answer; each carries the
    negated confidence, a value below zero and so different from the
    confidence itself; and with storage working the pass writes that
    value, with [is_negative = true], to the row. *)
Theorem negative_classification env items :
  (forall s, keep s = Ok true <->
             exists q, s = Sentiment.mk "NEGATIVE" q /\ (threshold < q)%Q)
  /\ ((exists outs, filter_negative env items = Ok outs) <->
      (forall k item, items !! k = Some item ->
         exists b, keep (analyze_sentiment env k
                           (SentimentItem.content item)) = Ok b))
  /\ (forall outs, filter_negative env items = Ok outs ->
      forall out, out ∈ outs <->
        exists k item q,
          items !! k = Some item /\
          analyze_sentiment env k (SentimentItem.content item)
          = Sentiment.mk "NEGATIVE" q /\
          (threshold < q)%Q /\
          out = SentimentItem.mk (SentimentItem.id item)
                  (SentimentItem.content item) (Some (- q)%Q) (Some true))
  /\ (forall s, keep s = Ok true ->
        exists q, s = Sentiment.mk "NEGATIVE" q
                  /\ negated_score s = Some (- q)%Q
                  /\ (- q < 0)%Q /\ ~ (- q == q)%Q)
  /\ (forall limit d j k r q,
        (forall n, db_error env n = None) ->
        unique_source_ids (raw_data d) = true ->
        NoDup (RawData.id <$> raw_data d) ->
        (forall j' r', select_unprocessed limit d !! j' = Some r' ->
           exists b, keep (analyze_sentiment env j' (RawData.content r'))
                     = Ok b) ->
        select_unprocessed limit d !! j = Some r ->
        raw_data d !! k = Some r ->
        analyze_sentiment env j (RawData.content r)
        = Sentiment.mk "NEGATIVE" q ->
        (threshold < q)%Q ->
        exists r',
          raw_data (run_request (process_sentiment env limit) d).2 !! k
          = Some r'
          /\ RawData.is_negative r' = Some true
          /\ RawData.sentiment_score r' = Some (- q)%Q
          /\ RawData.processed r' = true).
Proof.
  split; [exact keep_spec|]. split; [|split; [|split]].
  - unfold filter_negative. split.
    + intros [outs Hf] k item Hk.
      exact (filter_negative_from_ok_inv env 0 items outs Hf k item Hk).
    + intros Hall. apply filter_negative_from_ok. exact Hall.
  - intros outs Hf out. unfold filter_negative in Hf.
    rewrite (filter_negative_from_spec env 0 items outs out Hf). reflexivity.
  - intros s Hs. apply keep_spec in Hs as (q & -> & Hs). exists q.
    split; [reflexivity|]. split; [reflexivity|].
    unfold threshold in Hs.
    assert (H0 : (0 < q)%Q).
    { eapply Qlt_trans; [|exact Hs]. reflexivity. }
    assert (H1 : (- q < 0)%Q).
    { apply (Qplus_lt_l _ _ q). ring_simplify. exact H0. }
    split; [exact H1|].
    intros Heq. rewrite Heq in H1.
    exact (Qlt_irrefl _ (Qlt_trans _ _ _ H0 H1)).
  - intros limit d j k r q Hdb Huniq Hpk Hall Hj Hk Ha Hq.
    eexists. split; [apply (negative_row_stored env limit d j k r q); auto|].
    repeat split.
Qed.

(** ** Ingestion *)

Lemma unique_source_ids_snoc rows r :
  unique_source_ids rows = true ->
  unique_source_ids (rows ++ [r])
  = negb (bool_decide (RawData.source_id r ∈ RawData.source_id <$> rows)).
Proof.
  unfold unique_source_ids. intros Hu. apply bool_decide_eq_true in Hu.
  rewrite fmap_app. cbn [fmap list_fmap].
  destruct (bool_decide_reflect
              (RawData.source_id r ∈ RawData.source_id <$> rows)) as [Hin|Hnin];
    cbn [negb].
  - apply bool_decide_eq_false. intros Hnd.
    apply NoDup_app in Hnd as (_ & Hdisj & _).
    apply (Hdisj _ Hin). apply list_elem_of_here.
  - apply bool_decide_eq_true. apply NoDup_app. split; [exact Hu|].
    split; [|apply NoDup_singleton].
    intros x Hx Hx'. apply list_elem_of_singleton in Hx'. subst x.
    contradiction.
Qed.

(** One turn of the save loop when storage works: the row is committed if
    its [source_id] is new, and the turn is rolled back and counted as
    skipped otherwise. *)
Lemma save_item_run env item a s c n t :
  db_error env n = None ->
  unique_source_ids (raw_data c) = true ->
  save_item env item (a, s) (mkWorld c c n t) =
  if bool_decide (CandidateItem.source_id item ∈ RawData.source_id <$> raw_data c)
  then (Ok (a, S s), mkWorld c c (S n) t)
  else (Ok (S a, s), mkWorld (add_raw item c) (add_raw item c) (S n) t).
Proof.
  intros Hdb Hu.
  unfold save_item, try_except, mbind, M_bind, modify_work, db_commit,
    set_work.
  cbn [work committed db_ops clock_reads]. rewrite Hdb.
  cbn [add_raw raw_data]. rewrite (unique_source_ids_snoc _ _ Hu).
  cbn [new_raw RawData.source_id].
  case_bool_decide; reflexivity.
Qed.

Lemma save_items_run env items a s c n t :
  (forall k, db_error env k = None) ->
  unique_source_ids (raw_data c) = true ->
  exists n',
    save_items env items (a, s) (mkWorld c c n t) =
    (Ok ((spec_ingest items (raw_data c) a s).1.1,
         (spec_ingest items (raw_data c) a s).1.2),
     let c' := mkDb (spec_ingest items (raw_data c) a s).2
                    (pain_points c) (extraction_sessions c) in
     mkWorld c' c' n' t).
Proof.
  intros Hdb. revert a s c n.
  induction items as [|item rest IH]; intros a s c n Hu.
  - exists n. destruct c; reflexivity.
  - cbn [save_items spec_ingest]. unfold mbind, M_bind.
    rewrite (save_item_run env item a s c n t (Hdb n) Hu).
    case_bool_decide as Hin.
    + apply IH. exact Hu.
    + destruct (IH (S a) s (add_raw item c) (S n)) as [n' Hn'].
      { cbn [add_raw raw_data]. rewrite (unique_source_ids_snoc _ _ Hu).
        cbn [new_raw RawData.source_id].
        rewrite bool_decide_eq_false_2 by exact Hin. reflexivity. }
      exists n'. exact Hn'.
Qed.

(** What the ingestion gate's contract implies: stored rows stay as a prefix, the
    counts add up, uniqueness is kept and every candidate's identifier is
    stored afterwards. *)
Lemma spec_ingest_props items rows a s :
  exists new,
    (spec_ingest items rows a s).2 = (rows ++ new)%list
    /\ (spec_ingest items rows a s).1.1 = (a + length new)%nat
    /\ ((spec_ingest items rows a s).1.1 + (spec_ingest items rows a s).1.2
        = a + s + length items)%nat
    /\ (NoDup (RawData.source_id <$> rows) ->
        NoDup (RawData.source_id <$> (spec_ingest items rows a s).2))
    /\ (forall item, item ∈ items ->
          CandidateItem.source_id item
          ∈ RawData.source_id <$> (spec_ingest items rows a s).2).
Proof.
  revert rows a s. induction items as [|item rest IH]; intros rows a s.
  - exists []. cbn. rewrite app_nil_r.
    repeat split; auto with lia. intros item Hin. inversion Hin.
  - cbn [spec_ingest]. case_bool_decide as Hin.
    + destruct (IH rows a (S s)) as (new & Hrows & Ha & Hsum & Hnd & Hall).
      exists new. repeat split; auto.
      * cbn [length]. lia.
      * intros it Hit. apply elem_of_cons in Hit as [->|Hit]; [|auto].
        rewrite Hrows, fmap_app. apply elem_of_app. left. exact Hin.
    + destruct (IH (rows ++ [new_raw (next_id (RawData.id <$> rows)) item])
                   (S a) s) as (new & Hrows & Ha & Hsum & Hnd & Hall).
      exists (new_raw (next_id (RawData.id <$> rows)) item :: new).
      repeat split.
      * rewrite Hrows, <- app_assoc. reflexivity.
      * rewrite Ha. cbn [length]. lia.
      * rewrite Hsum. cbn [length]. lia.
      * intros Hu. apply Hnd. rewrite fmap_app. apply NoDup_app.
        split; [exact Hu|]. split; [|apply NoDup_singleton].
        intros x Hx Hx'. apply list_elem_of_singleton in Hx'. subst x.
        contradiction.
      * intros it Hit. apply elem_of_cons in Hit as [->|Hit]; [|auto].
        rewrite Hrows, !fmap_app. apply elem_of_app. left.
        apply elem_of_app. right. apply list_elem_of_here.
Qed.

(** A batch whose identifiers are all stored is skipped as a whole. *)
Lemma spec_ingest_all_stored items rows a s :
  (forall item, item ∈ items ->
     CandidateItem.source_id item ∈ RawData.source_id <$> rows) ->
  spec_ingest items rows a s = (a, (s + length items)%nat, rows).
Proof.
  revert s. induction items as [|item rest IH]; intros s Hall.
  - cbn. rewrite Nat.add_0_r. reflexivity.
  - cbn [spec_ingest].
    rewrite bool_decide_eq_true_2 by (apply Hall, list_elem_of_here).
    rewrite IH by (intros it Hit; apply Hall, list_elem_of_further, Hit).
    cbn [length]. do 2 f_equal. lia.
Qed.

Lemma filter_key_absent {A} (f : A -> string) (l : list A) (x : string) :
  x ∉ f <$> l -> filter (fun a => f a = x) l = [].
Proof.
  induction l as [|a l IH]; cbn [fmap list_fmap]; intros Hnin;
    [reflexivity|].
  rewrite filter_cons. apply not_elem_of_cons in Hnin as [Hne Hnin].
  destruct (decide (f a = x)); [congruence | auto].
Qed.

Lemma unique_key_count {A} (f : A -> string) (l : list A) (x : string) :
  NoDup (f <$> l) -> x ∈ f <$> l ->
  length (filter (fun a => f a = x) l) = 1%nat.
Proof.
  induction l as [|a l IH]; cbn [fmap list_fmap]; intros Hnd Hin.
  - inversion Hin.
  - apply NoDup_cons in Hnd as [Hna Hnd]. rewrite filter_cons.
    destruct (decide (f a = x)) as [<-|Hne].
    + cbn [length]. f_equal.
      rewrite filter_key_absent by exact Hna. reflexivity.
    + apply IH; [exact Hnd|]. apply elem_of_cons in Hin as [?|?];
        [congruence | assumption].
Qed.

(** C2: with storage working, the save loop does what the ingestion gate
    promises ([spec_ingest]: insert a candidate whose identifier is not
    stored, count it as skipped otherwise), never raises, keeps every
    stored row in place and every accepted row committed; afterwards each
    candidate's identifier is stored exactly once, and ingesting the same
    batch again skips every candidate and leaves the store as it is (a
    skip count of 1 for a single item). *)
Theorem ingest_idempotent env env' items d
    (Hdb : forall n, db_error env n = None)
    (Hdb' : forall n, db_error env' n = None)
    (Huniq : unique_source_ids (raw_data d) = true) :
  exists accepted skipped new,
    let d' := mkDb (raw_data d ++ new) (pain_points d)
                   (extraction_sessions d) in
    spec_ingest items (raw_data d) 0 0 = (accepted, skipped, raw_data d ++ new)
    /\ run_request (ingest env items) d
       = (Ok (mkIngestResponse accepted skipped (length items)), d')
    /\ accepted = length new
    /\ (accepted + skipped = length items)%nat
    /\ unique_source_ids (raw_data d') = true
    /\ (forall item, item ∈ items ->
          length (filter (fun r => RawData.source_id r
                                   = CandidateItem.source_id item)
                         (raw_data d')) = 1%nat)
    /\ run_request (ingest env' items) d'
       = (Ok (mkIngestResponse 0 (length items) (length items)), d').
Proof.
  destruct (spec_ingest_props items (raw_data d) 0 0)
    as (new & Hrows & Hacc & Hsum & Hnd & Hall).
  destruct (spec_ingest items (raw_data d) 0 0) as [[accepted skipped] rows]
    eqn:Hspec.
  cbn [fst snd] in *. subst rows.
  assert (Hu' : NoDup (RawData.source_id <$> raw_data d ++ new)).
  { apply Hnd. apply bool_decide_eq_true in Huniq. exact Huniq. }
  exists accepted, skipped, new. cbv zeta. cbn [raw_data].
  split; [reflexivity|]. split; [|split; [|split; [|split; [|split]]]].
  - unfold run_request, ingest, try_except, mbind, M_bind.
    destruct (save_items_run env items 0 0 d 0 0 Hdb Huniq) as [n' Hrun].
    rewrite Hrun, Hspec. reflexivity.
  - rewrite Hacc. reflexivity.
  - rewrite Hsum. reflexivity.
  - apply bool_decide_eq_true. exact Hu'.
  - intros item Hin. apply unique_key_count; auto.
  - unfold run_request, ingest, try_except, mbind, M_bind.
    set (d' := mkDb (raw_data d ++ new) (pain_points d)
                    (extraction_sessions d)).
    destruct (save_items_run env' items 0 0 d' 0 0 Hdb') as [n' Hrun].
    { apply bool_decide_eq_true. exact Hu'. }
    rewrite Hrun. cbn [raw_data d'].
    rewrite spec_ingest_all_stored by exact Hall. reflexivity.
Qed.

Lemma ingest_idempotent_witness :
  exists accepted skipped d',
    run_request (ingest calm_env [sample_candidate; sample_candidate])
                empty_store
    = (Ok (mkIngestResponse accepted skipped 2), d').
Proof.
  destruct (ingest_idempotent calm_env calm_env
              [sample_candidate; sample_candidate] empty_store
              (fun _ => eq_refl) (fun _ => eq_refl) eq_refl)
    as (accepted & skipped & new & _ & Hrun & _).
  exists accepted, skipped. eexists. exact Hrun.
Defined.

(** ** Extraction session *)

Lemma next_id_gt ids i : i ∈ ids -> (i < next_id ids)%nat.
Proof.
  unfold next_id. induction ids as [|j ids IH]; intros Hin.
  - inversion Hin.
  - cbn [foldr]. apply elem_of_cons in Hin as [->|Hin]; [lia|].
    specialize (IH Hin). lia.
Qed.

Lemma next_id_fresh ids : next_id ids ∉ ids.
Proof. intros Hin. apply next_id_gt in Hin. lia. Qed.

(** Changing the new session leaves the older ones alone. *)
Lemma update_session_extend d new s f :
  ExtractionSession.id s
  = next_id (ExtractionSession.id <$> extraction_sessions d) ->
  update_session (ExtractionSession.id s) f (extend d new s)
  = extend d new (f s).
Proof.
  intros Hid. unfold update_session, extend. cbn [raw_data pain_points
    extraction_sessions]. f_equal. rewrite fmap_app. f_equal.
  - rewrite <- (list_fmap_id (extraction_sessions d)) at 2.
    apply list_fmap_ext. intros i s' Hs'.
    rewrite bool_decide_eq_false_2; [reflexivity|].
    intros Heq. apply (next_id_fresh (ExtractionSession.id
                                        <$> extraction_sessions d)).
    rewrite <- Hid, <- Heq. apply list_elem_of_fmap.
    exists s'. split; [reflexivity|]. eapply list_elem_of_lookup_2; eauto.
  - cbn. rewrite bool_decide_eq_true_2 by reflexivity. reflexivity.
Qed.

Lemma update_session_absent d f :
  update_session (next_id (ExtractionSession.id <$> extraction_sessions d)) f d
  = d.
Proof.
  unfold update_session. destruct d as [rows pps ss];
    cbn [raw_data pain_points extraction_sessions]. f_equal.
  rewrite <- (list_fmap_id ss) at 2.
  apply list_fmap_ext. intros i s' Hs'.
  rewrite bool_decide_eq_false_2; [reflexivity|].
  intros Heq. apply (next_id_fresh (ExtractionSession.id <$> ss)).
  rewrite <- Heq. apply list_elem_of_fmap.
  exists s'. split; [reflexivity|]. eapply list_elem_of_lookup_2; eauto.
Qed.

(** Sums over a dictionary of counters. *)
Lemma sum_values_empty : sum_values ∅ = 0.
Proof. unfold sum_values. apply map_fold_empty. Qed.

Lemma sum_values_insert_new (m : gmap string Z) k v :
  m !! k = None -> sum_values (<[k := v]> m) = v + sum_values m.
Proof.
  intros Hk. unfold sum_values.
  apply (map_fold_insert_L (fun _ v acc => v + acc)); [|exact Hk].
  intros; cbv beta; lia.
Qed.

Lemma sum_values_delete (m : gmap string Z) k old :
  m !! k = Some old -> sum_values m = old + sum_values (delete k m).
Proof.
  intros Hk. rewrite <- (insert_delete_id m k old Hk) at 1.
  apply sum_values_insert_new. apply lookup_delete_eq.
Qed.

Lemma sum_values_insert_old (m : gmap string Z) k old v :
  m !! k = Some old -> sum_values (<[k := v]> m) = sum_values m - old + v.
Proof.
  intros Hk. rewrite (sum_values_delete m k old Hk).
  rewrite <- (insert_delete_eq m k v).
  rewrite sum_values_insert_new by apply lookup_delete_eq. lia.
Qed.

Lemma sum_values_bump (m : gmap string Z) k :
  sum_values (<[k := default 0 (m !! k) + 1]> m) = sum_values m + 1.
Proof.
  destruct (m !! k) as [old|] eqn:Hk; cbn [default from_option id].
  - rewrite (sum_values_insert_old m k old) by exact Hk. lia.
  - rewrite sum_values_insert_new by exact Hk. lia.
Qed.

(** The save loop: rows are only appended, each new row belongs to the
    session and comes from one dictionary of the batch, and the tallies
    count the new rows. *)
Lemma save_loop_spec sid data d t :
  exists new t',
    foldl (save_pain_point sid) (d, t) data
    = (mkDb (raw_data d) (pain_points d ++ new) (extraction_sessions d), t')
    /\ saved_count t' = saved_count t + Z.of_nat (length new)
    /\ sum_values (category_counts t')
       = sum_values (category_counts t) + Z.of_nat (length new)
    /\ sum_values (severity_counts t')
       = sum_values (severity_counts t)
         + Z.of_nat (length (filter
              (fun p => is_Some (severity_counts t !! PainPoint.severity p))
              new))
    /\ dom (severity_counts t') = dom (severity_counts t)
    /\ Forall (fun p => PainPoint.extraction_session_id p = Some sid) new
    /\ omap PainPoint.raw_data_id new
       `sublist_of` omap PainPointDict.raw_data_id data.
Proof.
  revert d t. induction data as [|pp rest IH]; intros d t.
  - exists [], t. cbn. rewrite app_nil_r. destruct d.
    repeat split; auto with lia.
  - cbn [foldl]. unfold save_pain_point at 2.
    destruct (PainPointDict.problem_statement pp) as [ps|] eqn:Hps;
      [destruct (PainPointDict.category pp) as [cat|] eqn:Hcat;
       [destruct (PainPointDict.severity pp) as [sev|] eqn:Hsev|]|].
    2-4: destruct (IH d t) as (new & t' & Hf & Hs & Hc & Hv & Hd & Hall & Hsub);
      exists new, t'; repeat split; auto;
      cbn [omap list_omap]; destruct (PainPointDict.raw_data_id pp);
      [apply sublist_cons|]; exact Hsub.
    cbn [default from_option id].
    match goal with |- context [foldl _ (add_pain_point ?p d, ?t1) rest] =>
      destruct (IH (add_pain_point p d) t1)
        as (new & t' & Hf & Hs & Hc & Hv & Hd & Hall & Hsub);
      exists (p :: new), t'
    end.
    cbn [add_pain_point raw_data pain_points extraction_sessions
         saved_count category_counts severity_counts] in *.
    split; [rewrite Hf, <- app_assoc; reflexivity|].
    split; [rewrite Hs; cbn [length]; lia|].
    split; [rewrite Hc, sum_values_bump; cbn [length]; lia|].
    assert (Hdom : forall k,
              is_Some (match severity_counts t !! sev with
                       | Some n => <[sev := n + 1]> (severity_counts t)
                       | None => severity_counts t
                       end !! k)
              <-> is_Some (severity_counts t !! k)).
    { intros k. destruct (severity_counts t !! sev) as [n|] eqn:Hn;
        [|reflexivity].
      destruct (decide (sev = k)) as [<-|Hne].
      - rewrite lookup_insert_eq, Hn. split; eauto.
      - rewrite lookup_insert_ne by exact Hne. reflexivity. }
    split; [|split; [|split]].
    + rewrite Hv. rewrite filter_cons. cbn [PainPoint.severity].
      rewrite (list_filter_iff _ (fun p => is_Some
                 (severity_counts t !! PainPoint.severity p)) new)
        by (intros p; apply Hdom).
      destruct (severity_counts t !! sev) as [n|] eqn:Hn.
      * rewrite (sum_values_insert_old _ sev n) by exact Hn.
        destruct (decide (is_Some (Some n))) as [_|Hno];
          [cbn [length]; lia | exfalso; apply Hno; eauto].
      * destruct (decide (is_Some (@None Z))) as [[? Hx]|_];
          [discriminate Hx | lia].
    + rewrite Hd. apply set_eq. intros k. rewrite !elem_of_dom. apply Hdom.
    + constructor; [reflexivity | exact Hall].
    + cbn [omap list_omap PainPoint.raw_data_id].
      destruct (PainPointDict.raw_data_id pp); [apply sublist_skip|];
        exact Hsub.
Qed.

(** Each dictionary of the batch result carries the key of one item of the
    batch, and the items are used in order, each at most once. *)
Lemma batch_extract_ids env k items :
  omap PainPointDict.raw_data_id (batch_extract_from env k items)
  `sublist_of` (ExtractItem.id <$> items).
Proof.
  revert k. induction items as [|it rest IH]; intros k;
    cbn [batch_extract_from fmap list_fmap]; [constructor|].
  destruct (extract env k (ExtractItem.content it)
                    (ExtractItem.metadata it)) as [pp|].
  - cbn [omap list_omap PainPointDict.set_raw_data_id
         PainPointDict.raw_data_id]. apply sublist_skip, IH.
  - apply sublist_cons, IH.
Qed.

Lemma save_loop_raw_data sid data d t :
  raw_data (foldl (save_pain_point sid) (d, t) data).1 = raw_data d.
Proof.
  destruct (save_loop_spec sid data d t) as (new & t' & -> & _).
  reflexivity.
Qed.

(** The exception clause, entered with nothing pending. *)
Lemma mark_failed_run env sid e c n t :
  mark_failed env sid e (mkWorld c c n t) =
  match db_error env n with
  | Some msg => (Raise (OperationalError msg), mkWorld c c (S n) (S t))
  | None =>
      if unique_source_ids (raw_data c) then
        let c' := update_session sid
                    (ExtractionSession.fail (str e) (datetime_now env t)) c in
        (Raise (HTTPException 500 (str e)), mkWorld c' c' (S n) (S t))
      else
        (Raise (IntegrityError
                  "duplicate key value violates unique constraint"),
         mkWorld c c (S n) (S t))
  end.
Proof.
  unfold mark_failed, mbind, M_bind, now, modify_work, db_commit, set_work,
    raise.
  cbn [work committed db_ops clock_reads update_session raw_data].
  destruct (db_error env n); [reflexivity|].
  destruct (unique_source_ids (raw_data c)); reflexivity.
Qed.

(** The [try] block, run on a fresh session that holds the new session
    object [d1 = extend d [] s]. *)
Lemma extraction_run_run env limit start sid name d s :
  unique_source_ids (raw_data d) = true ->
  extraction_run env limit start sid name (mkWorld d (extend d [] s) 0 1) =
  let d1 := extend d [] s in
  match db_error env 0 with
  | Some msg => (Raise (OperationalError msg), mkWorld d d 1 1)
  | None =>
  match db_error env 1 with
  | Some msg => (Raise (OperationalError msg), mkWorld d1 d1 2 1)
  | None =>
  match db_error env 2 with
  | Some msg => (Raise (OperationalError msg), mkWorld d1 d1 3 1)
  | None =>
  match db_error env 3 with
  | Some msg => (Raise (OperationalError msg), mkWorld d1 d1 4 1)
  | None =>
  match select_candidates (processed_ids_of d1) limit d1 with
  | [] =>
      match db_error env 4 with
      | Some msg => (Raise (OperationalError msg), mkWorld d1 d1 5 2)
      | None =>
          let dc := update_session sid
                      (ExtractionSession.complete_empty (datetime_now env 1))
                      d1 in
          (Ok (mkExtractionResponse (Some "No new items to extract")
                 sid None 0 0 0 None),
           mkWorld dc dc 5 2)
      end
  | items =>
      match extractor_init env with
      | Some msg => (Raise (AdapterError msg), mkWorld d1 d1 4 1)
      | None =>
          let st := foldl (save_pain_point sid) (d1, initial_tally)
                          (batch_extract env (items_dict_of items)) in
          match db_error env 4 with
          | Some msg => (Raise (OperationalError msg), mkWorld d1 d1 5 3)
          | None =>
              let duration := datetime_now env 1 - start in
              let d3 := update_session sid
                          (finalize (length items) st.2 duration
                                    (datetime_now env 2)) st.1 in
              (Ok (mkExtractionResponse None sid (Some name)
                     (saved_count st.2) (Z.of_nat (length items))
                     (Z.of_nat (length items) - saved_count st.2)
                     (Some duration)),
               mkWorld d3 d3 5 3)
          end
      end
  end end end end end.
Proof.
  intros Hu. cbv zeta.
  unfold extraction_run, mbind, M_bind, db_commit, db_query.
  run_step. change (raw_data (extend d [] s)) with (raw_data d).
  destruct (db_error env 0); [reflexivity|]. rewrite Hu. run_step.
  destruct (db_error env 1); [reflexivity|]. run_step.
  destruct (db_error env 2); [reflexivity|]. run_step.
  destruct (db_error env 3); [reflexivity|]. run_step.
  destruct (select_candidates (processed_ids_of (extend d [] s)) limit
              (extend d [] s)) as [|it rest] eqn:Hsel.
  - unfold now, modify_work, set_work. run_step.
    destruct (db_error env 4); [reflexivity|].
    change (raw_data (update_session sid _ (extend d [] s)))
      with (raw_data d).
    rewrite Hu. reflexivity.
  - destruct (extractor_init env); [reflexivity|].
    unfold mret, M_ret, save_pain_points, now, modify_work, set_work.
    run_step. fold (items_dict_of (it :: rest)).
    pose proof (save_loop_raw_data sid
                  (batch_extract env (items_dict_of (it :: rest)))
                  (extend d [] s) initial_tally) as Hraw.
    destruct (foldl (save_pain_point sid) (extend d [] s, initial_tally)
                (batch_extract env (items_dict_of (it :: rest))))
      as [d2 t] eqn:Hloop.
    run_step. cbn [fst snd] in Hraw.
    destruct (db_error env 4); [reflexivity|].
    change (raw_data (update_session sid ?f d2)) with (raw_data d2).
    rewrite Hraw. change (raw_data (extend d [] s)) with (raw_data d).
    rewrite Hu. reflexivity.
Qed.

Lemma candidates_extend limit d s :
  select_candidates (processed_ids_of (extend d [] s)) limit (extend d [] s)
  = candidates limit d.
Proof.
  unfold candidates, select_candidates, processed_ids_of, extend.
  cbn [raw_data pain_points]. rewrite app_nil_r. reflexivity.
Qed.

Lemma save_loop_extend sid data d s :
  exists new tally,
    foldl (save_pain_point sid) (extend d [] s, initial_tally) data
    = (extend d new s, tally).
Proof.
  destruct (save_loop_spec sid data (extend d [] s) initial_tally)
    as (new & tally & Hf & _).
  exists new, tally. rewrite Hf. unfold extend.
  cbn [raw_data pain_points extraction_sessions]. rewrite app_nil_r.
  reflexivity.
Qed.

(** Every request ends in one of the five ways of [Outcome]. *)
Lemma extract_pain_points_outcome env limit d :
  Outcome env limit d
          (run_request (extract_pain_points env limit) d).1
          (run_request (extract_pain_points env limit) d).2.
Proof.
  destruct (unique_source_ids (raw_data d)) eqn:Hu; cycle 1.
  { unfold run_request, extract_pain_points, extraction_run, mbind, M_bind,
      now, open_session, try_except, set_work, db_commit.
    cbn [work committed db_ops clock_reads raw_data fst snd].
    destruct (db_error env 0); rewrite ?Hu; rewrite mark_failed_run, Hu;
      destruct (db_error env 1); cbn [fst snd committed];
      apply NotOpened; auto. }
  unfold run_request, extract_pain_points, mbind, M_bind, now, open_session,
    try_except, set_work. run_step.
  replace (mkDb (raw_data d) (pain_points d)
             (extraction_sessions d
              ++ [ExtractionSession.create
                    (next_id (ExtractionSession.id <$> extraction_sessions d))
                    (String.append "Analysis "
                       (strftime env (datetime_now env 0)))
                    (datetime_now env 0)]))
    with (extend d [] (opened env d))
    by (unfold extend, opened; rewrite app_nil_r; reflexivity).
  change (next_id (ExtractionSession.id <$> extraction_sessions d))
    with (ExtractionSession.id (opened env d)).
  change (String.append "Analysis " (strftime env (datetime_now env 0)))
    with (ExtractionSession.session_name (opened env d)).
  rewrite (extraction_run_run _ _ _ _ _ _ _ Hu). cbv zeta.
  rewrite candidates_extend.
  assert (Hupd : forall new f,
            update_session (ExtractionSession.id (opened env d)) f
                           (extend d new (opened env d))
            = extend d new (f (opened env d)))
    by (intros; apply update_session_extend; reflexivity).
  assert (Hraw : forall new s, raw_data (extend d new s) = raw_data d)
    by reflexivity.
  assert (Habs : forall f,
            update_session (ExtractionSession.id (opened env d)) f d = d)
    by (intros; apply update_session_absent).
  destruct (db_error env 0) as [m0|] eqn:E0.
  { rewrite mark_failed_run.
    destruct (db_error env 1); [|rewrite Hu]; cbn [fst snd committed];
      rewrite ?Habs; apply NotOpened; left; congruence. }
  destruct (db_error env 1) as [m1|] eqn:E1.
  { rewrite mark_failed_run, Hraw, Hu.
    destruct (db_error env 2) eqn:?; cbn [fst snd committed str];
      [apply LeftInProgress; eauto | rewrite Hupd; apply Failed; eauto]. }
  destruct (db_error env 2) as [m2|] eqn:E2.
  { rewrite mark_failed_run, Hraw, Hu.
    destruct (db_error env 3) eqn:?; cbn [fst snd committed str];
      [apply LeftInProgress; eauto | rewrite Hupd; apply Failed; eauto]. }
  destruct (db_error env 3) as [m3|] eqn:E3.
  { rewrite mark_failed_run, Hraw, Hu.
    destruct (db_error env 4) eqn:?; cbn [fst snd committed str];
      [apply LeftInProgress; eauto | rewrite Hupd; apply Failed; eauto]. }
  destruct (candidates limit d) as [|it rest] eqn:Hcand.
  - destruct (db_error env 4) as [m4|] eqn:E4.
    + rewrite mark_failed_run, Hraw, Hu.
      destruct (db_error env 5) eqn:?; cbn [fst snd committed str];
        [apply LeftInProgress; eauto | rewrite Hupd; apply Failed; eauto].
    + cbn [fst snd committed]. rewrite Hupd.
      apply CompletedEmpty. exact Hcand.
  - destruct (extractor_init env) as [ma|] eqn:Ea.
    { rewrite mark_failed_run, Hraw, Hu.
      destruct (db_error env 4) eqn:E4; cbn [fst snd committed str];
        [apply LeftInProgress; eauto
        | rewrite Hupd; apply Failed; left; split; [exact Ea|];
          rewrite Hcand; discriminate]. }
    destruct (db_error env 4) as [m4|] eqn:E4.
    + rewrite mark_failed_run, Hraw, Hu.
      destruct (db_error env 5) eqn:?; cbn [fst snd committed str];
        [apply LeftInProgress; eauto | rewrite Hupd; apply Failed; eauto].
    + destruct (save_loop_extend (ExtractionSession.id (opened env d))
                  (batch_extract env (items_dict_of (it :: rest)))
                  d (opened env d)) as (new & tally & Hloop).
      rewrite Hloop. cbn [fst snd committed]. rewrite Hupd.
      rewrite <- Hcand in *. apply Completed; [congruence | exact Hloop].
Qed.

(** The outcome of a request, from its result. *)
Lemma run_outcome env limit d r d' :
  run_request (extract_pain_points env limit) d = (r, d') ->
  Outcome env limit d r d'.
Proof.
  intros Hrun. pose proof (extract_pain_points_outcome env limit d) as Hout.
  rewrite Hrun in Hout. exact Hout.
Qed.

(** C8: with storage working, a request that finds no candidate returns a
    success answer whose three counters are 0 and leaves its session
    completed, with a completion time and its counters at 0. *)
Theorem empty_batch_completes env limit d
    (Hdb : forall n, db_error env n = None)
    (Hu : unique_source_ids (raw_data d) = true)
    (Hempty : candidates limit d = []) :
  exists t,
    let s := ExtractionSession.complete_empty t (opened env d) in
    run_request (extract_pain_points env limit) d
    = (Ok (mkExtractionResponse (Some "No new items to extract")
             (ExtractionSession.id s) None 0 0 0 None),
       extend d [] s)
    /\ ExtractionSession.status s = completed
    /\ ExtractionSession.completed_at s = Some t
    /\ ExtractionSession.items_processed s = 0
    /\ ExtractionSession.pain_points_extracted s = 0
    /\ ExtractionSession.items_skipped s = 0.
Proof.
  destruct (run_request (extract_pain_points env limit) d) as [r d'] eqn:Hrun.
  apply run_outcome in Hrun.
  inversion Hrun as [e [H0|H0] | msg [n Hn] | msg t [[Ha Hc]|[n Hn]]
                     | t Hc | new tally duration t Hc Hloop]; subst.
  - exfalso. apply H0, Hdb.
  - congruence.
  - rewrite Hdb in Hn. discriminate.
  - contradiction.
  - rewrite Hdb in Hn. discriminate.
  - exists t. cbv zeta. repeat split; reflexivity.
  - contradiction.
Qed.

Lemma empty_batch_completes_witness :
  exists resp d',
    run_request (extract_pain_points calm_env 50) empty_store = (Ok resp, d')
    /\ resp_pain_points_extracted resp = 0.
Proof.
  destruct (empty_batch_completes calm_env 50 empty_store
              (fun _ => eq_refl) eq_refl eq_refl) as (t & Hrun & _).
  eexists _, _. split; [exact Hrun | reflexivity].
Defined.

(** C5, as the code has it: when a request whose session was opened ends
    in the 500 answer of the exception clause, that is, when the commit of
    the clause went through, the stored session is failed, its message is
    the text of the exception (the client's or the storage's), its
    completion time is set, and no pain point was stored. *)
Theorem failed_session_recorded env limit d msg d'
    (Hopen : db_error env 0 = None)
    (Hu : unique_source_ids (raw_data d) = true)
    (Hrun : run_request (extract_pain_points env limit) d
            = (Raise (HTTPException 500 msg), d')) :
  exists s,
    extraction_sessions d' = extraction_sessions d ++ [s]
    /\ ExtractionSession.status s = failed
    /\ ExtractionSession.error_message s = Some msg
    /\ is_Some (ExtractionSession.completed_at s)
    /\ pain_points d' = pain_points d
    /\ raw_data d' = raw_data d
    /\ ((extractor_init env = Some msg /\ candidates limit d <> [])
        \/ exists n, db_error env n = Some msg).
Proof.
  apply run_outcome in Hrun.
  inversion Hrun as [e [H0|H0] | m Hn | m t Hcause | |]; subst.
  - contradiction.
  - congruence.
  - exists (ExtractionSession.fail msg t (opened env d)).
    unfold extend. cbn [extraction_sessions pain_points raw_data
      ExtractionSession.fail ExtractionSession.status
      ExtractionSession.error_message ExtractionSession.completed_at].
    rewrite app_nil_r. repeat split; eauto.
Qed.

Lemma failed_session_recorded_witness :
  exists s d',
    run_request (extract_pain_points mute_env 50) store1
    = (Raise (HTTPException 500 ""), d')
    /\ extraction_sessions d' = [s]
    /\ ExtractionSession.status s = failed.
Proof.
  assert (Hrun : run_request (extract_pain_points mute_env 50) store1
                 = (Raise (HTTPException 500 ""),
                    (run_request (extract_pain_points mute_env 50) store1).2))
    by (vm_compute; reflexivity).
  destruct (failed_session_recorded mute_env 50 store1 "" _
              eq_refl eq_refl Hrun) as (s & Hs & Hst & _).
  exists s. eexists. split; [exact Hrun|]. split; [exact Hs | exact Hst].
Defined.

(** C5, as the specification words it, fails twice over: when storage
    stays away the exception clause cannot commit and the session remains
    in progress; and the recorded message is whatever text the exception
    has, which may be empty. *)
Lemma failure_path_not_guaranteed :
  ~ failure_path_as_specified outage_env 50 store1
  /\ ~ failure_path_as_specified mute_env 50 store1.
Proof.
  split; intros Hprop.
  - destruct (Hprop (OperationalError
                        "server closed the connection unexpectedly")
                     (extend store1 [] (opened outage_env store1))
                     eq_refl eq_refl)
      as (s & Hs & Hst & _).
    + vm_compute. reflexivity.
    + vm_compute in Hs. injection Hs as <-. discriminate Hst.
  - destruct (Hprop (HTTPException 500 "")
                     (extend store1 []
                        (ExtractionSession.fail "" 1 (opened mute_env store1)))
                     eq_refl eq_refl)
      as (s & Hs & _ & (msg & Hmsg & Hne) & _).
    + vm_compute. reflexivity.
    + vm_compute in Hs. injection Hs as <-. cbn in Hmsg.
      injection Hmsg as <-. apply Hne. reflexivity.
Qed.

Lemma initial_severity_known p :
  is_Some (severity_counts initial_tally !! PainPoint.severity p)
  <-> known_severity p = true.
Proof.
  unfold known_severity, initial_tally. cbn [severity_counts].
  rewrite bool_decide_eq_true.
  generalize (PainPoint.severity p). intros sev.
  rewrite !elem_of_cons, elem_of_nil.
  destruct (decide (sev = "critical")) as [->|Hc];
    [rewrite lookup_insert_eq; split; eauto|].
  rewrite lookup_insert_ne by congruence.
  destruct (decide (sev = "high")) as [->|Hh];
    [rewrite lookup_insert_eq; split; eauto|].
  rewrite lookup_insert_ne by congruence.
  destruct (decide (sev = "medium")) as [->|Hm];
    [rewrite lookup_insert_eq; split; eauto|].
  rewrite lookup_insert_ne by congruence.
  destruct (decide (sev = "low")) as [->|Hl];
    [rewrite lookup_singleton_eq; split; eauto 6|].
  rewrite lookup_singleton_ne by congruence.
  split; [intros [? Hx]; discriminate Hx | tauto].
Qed.

(** The counter of one of the tallied severities grows by the number of
    new rows with that severity. *)
Lemma save_loop_severity sid data d t new k :
  is_Some (severity_counts t !! k) ->
  pain_points (foldl (save_pain_point sid) (d, t) data).1
  = pain_points d ++ new ->
  lookup0 (severity_counts (foldl (save_pain_point sid) (d, t) data).2) k
  = lookup0 (severity_counts t) k
    + Z.of_nat (length (filter (fun p => PainPoint.severity p = k) new)).
Proof.
  revert d t new. induction data as [|pp rest IH]; intros d t new Hk Hpp.
  - cbn [foldl fst snd] in *.
    rewrite <- (app_nil_r (pain_points d)) in Hpp at 1.
    apply app_inv_head in Hpp. subst new. cbn. lia.
  - cbn [foldl] in *. unfold save_pain_point at 2.
    unfold save_pain_point at 2 in Hpp.
    destruct (PainPointDict.problem_statement pp) as [ps|];
      [destruct (PainPointDict.category pp) as [cat|];
       [destruct (PainPointDict.severity pp) as [sev|]|]|].
    2-4: apply IH; assumption.
    cbn [default from_option id] in *.
    match type of Hpp with
    | context [foldl _ (add_pain_point ?p d, ?tally) rest] =>
        set (p0 := p) in *; set (t1 := tally) in *
    end.
    destruct (save_loop_spec sid rest (add_pain_point p0 d) t1)
      as (new' & t' & Hf & _).
    assert (Hnew : new = p0 :: new').
    { rewrite Hf in Hpp. cbn [fst pain_points add_pain_point] in Hpp.
      rewrite <- app_assoc in Hpp. apply app_inv_head in Hpp.
      symmetry. exact Hpp. }
    assert (Hk1 : is_Some (severity_counts t1 !! k)).
    { subst t1. cbn [severity_counts].
      destruct (severity_counts t !! sev) as [n|] eqn:Hn; [|exact Hk].
      destruct (decide (sev = k)) as [->|Hne];
        [rewrite lookup_insert_eq; eauto
        | rewrite lookup_insert_ne by exact Hne; exact Hk]. }
    rewrite (IH (add_pain_point p0 d) t1 new' Hk1)
      by (rewrite Hf; reflexivity).
    subst new. rewrite filter_cons.
    assert (Hstep : lookup0 (severity_counts t1) k
                    = lookup0 (severity_counts t) k
                      + (if decide (sev = k) then 1 else 0)).
    { subst t1. cbn [severity_counts]. unfold lookup0.
      destruct (decide (sev = k)) as [->|Hne].
      - destruct Hk as [n Hn]. rewrite Hn, lookup_insert_eq. cbn. lia.
      - destruct (severity_counts t !! sev) as [n|];
          [rewrite lookup_insert_ne by exact Hne|]; lia. }
    rewrite Hstep. subst p0. cbn [PainPoint.severity].
    destruct (decide (sev = k)); cbn [length]; lia.
Qed.

Lemma initial_sums :
  sum_values (category_counts initial_tally) = 0
  /\ sum_values (severity_counts initial_tally) = 0.
Proof. split; vm_compute; reflexivity. Qed.

(** What the save loop of a completed request did, in terms of the rows
    it added. *)
Lemma completed_loop_facts sid data d s new tally :
  foldl (save_pain_point sid) (extend d [] s, initial_tally) data
  = (extend d new s, tally) ->
  saved_count tally = Z.of_nat (length new)
  /\ sum_values (category_counts tally) = Z.of_nat (length new)
  /\ sum_values (severity_counts tally)
     = Z.of_nat (length (filter (fun p => known_severity p = true) new))
  /\ Forall (fun p => PainPoint.extraction_session_id p = Some sid) new
  /\ omap PainPoint.raw_data_id new
     `sublist_of` omap PainPointDict.raw_data_id data.
Proof.
  intros Hloop.
  destruct (save_loop_spec sid data (extend d [] s) initial_tally)
    as (new' & t' & Hf & Hs & Hc & Hv & _ & Hall & Hsub).
  rewrite Hf in Hloop. unfold extend in Hloop.
  cbn [raw_data pain_points extraction_sessions] in Hloop.
  injection Hloop as Hnew ->. rewrite app_nil_r in Hnew.
  apply app_inv_head in Hnew. subst new'.
  destruct initial_sums as [Hc0 Hv0]. rewrite Hc0 in Hc. rewrite Hv0 in Hv.
  cbn [saved_count initial_tally] in Hs.
  rewrite (list_filter_iff _ (fun p => known_severity p = true)) in Hv
    by (intros p; apply initial_severity_known).
  repeat split; auto with lia.
Qed.

Lemma completed_loop_counters sid data d s new tally k :
  k ∈ ["critical"; "high"; "medium"; "low"] ->
  foldl (save_pain_point sid) (extend d [] s, initial_tally) data
  = (extend d new s, tally) ->
  lookup0 (severity_counts tally) k
  = Z.of_nat (length (filter (fun p => PainPoint.severity p = k) new)).
Proof.
  intros Hk Hloop.
  pose proof (save_loop_severity sid data (extend d [] s) initial_tally new k)
    as Hsev.
  rewrite Hloop in Hsev. cbn [fst snd] in Hsev. rewrite Hsev.
  - assert (H0 : lookup0 (severity_counts initial_tally) k = 0); [|lia].
    rewrite !elem_of_cons, elem_of_nil in Hk.
    destruct Hk as [->|[->|[->|[->|[]]]]]; reflexivity.
  - rewrite !elem_of_cons, elem_of_nil in Hk.
    destruct Hk as [->|[->|[->|[->|[]]]]]; eexists; reflexivity.
  - unfold extend. cbn [pain_points]. rewrite app_nil_r. reflexivity.
Qed.

(** C7, as the code has it: in every completed session the category
    breakdown sums to the number of pain points the session stored, and
    the severity breakdown sums to the number of those whose severity is
    one of critical, high, medium, low; it is therefore at most the
    number stored, and equal to it when every severity is one of the
    four; the high and critical counters are the numbers of stored pain
    points with these severities.  (A null breakdown, left by a request
    without candidates, counts as empty.) *)
Theorem session_aggregates env limit d resp d'
    (Hrun : run_request (extract_pain_points env limit) d = (Ok resp, d')) :
  exists s new,
    d' = extend d new s
    /\ ExtractionSession.id s = resp_session_id resp
    /\ ExtractionSession.status s = completed
    /\ ExtractionSession.pain_points_extracted s = Z.of_nat (length new)
    /\ Forall (fun p => PainPoint.extraction_session_id p
                        = Some (ExtractionSession.id s)) new
    /\ breakdown_sum (ExtractionSession.category_breakdown s)
       = ExtractionSession.pain_points_extracted s
    /\ breakdown_sum (ExtractionSession.severity_breakdown s)
       = Z.of_nat (length (filter (fun p => known_severity p = true) new))
    /\ breakdown_sum (ExtractionSession.severity_breakdown s)
       <= ExtractionSession.pain_points_extracted s
    /\ (Forall (fun p => known_severity p = true) new ->
        breakdown_sum (ExtractionSession.severity_breakdown s)
        = ExtractionSession.pain_points_extracted s)
    /\ ExtractionSession.high_severity_count s
       = Z.of_nat (length (filter (fun p => PainPoint.severity p = "high")
                                  new))
    /\ ExtractionSession.critical_severity_count s
       = Z.of_nat (length (filter (fun p => PainPoint.severity p = "critical")
                                  new)).
Proof.
  apply run_outcome in Hrun.
  inversion Hrun as [ | | | t Hc | new tally duration t Hc Hloop]; subst.
  - exists (ExtractionSession.complete_empty t (opened env d)), [].
    cbn. unfold breakdown_sum. cbn. rewrite sum_values_empty.
    repeat split; auto with lia.
  - pose proof (completed_loop_counters _ _ _ _ _ _ "high"
                  ltac:(set_solver) Hloop) as Hhigh.
    pose proof (completed_loop_counters _ _ _ _ _ _ "critical"
                  ltac:(set_solver) Hloop) as Hcrit.
    apply completed_loop_facts in Hloop as (Hs & Hcat & Hsev & Hall & _).
    eexists _, new. split; [reflexivity|].
    unfold breakdown_sum.
    cbn [finalize ExtractionSession.id ExtractionSession.status
         ExtractionSession.pain_points_extracted
         ExtractionSession.category_breakdown
         ExtractionSession.severity_breakdown
         ExtractionSession.high_severity_count
         ExtractionSession.critical_severity_count
         default from_option id].
    rewrite Hs, Hcat, Hsev, Hhigh, Hcrit.
    repeat split; auto.
    + pose proof (length_filter (fun p => known_severity p = true) new). lia.
    + intros Hknown. do 2 f_equal.
      clear -Hknown. induction Hknown as [|p l Hp _ IH]; [reflexivity|].
      rewrite filter_cons. destruct (decide (known_severity p = true));
        [cbn [length]; f_equal; exact IH | contradiction].
Qed.

Lemma session_aggregates_witness :
  exists s new,
    (run_request (extract_pain_points urgent_env 50) store1).2
    = extend store1 new s
    /\ ExtractionSession.status s = completed
    /\ breakdown_sum (ExtractionSession.category_breakdown s)
       = ExtractionSession.pain_points_extracted s.
Proof.
  assert (Hrun : run_request (extract_pain_points urgent_env 50) store1
                 = (Ok (mkExtractionResponse None 1
                          (Some "Analysis 2024-05-01 10:00") 1 1 0 (Some 1)),
                    (run_request (extract_pain_points urgent_env 50)
                                 store1).2))
    by (vm_compute; reflexivity).
  destruct (session_aggregates urgent_env 50 store1 _ _ Hrun)
    as (s & new & Hd & _ & Hst & _ & _ & Hcat & _).
  exists s, new. split; [exact Hd|]. split; [exact Hst | exact Hcat].
Defined.

(** C7, as the specification words it, fails: a pain point whose severity
    is none of the four is stored and counted in [pain_points_extracted]
    but in no entry of the severity breakdown, which then sums to 0
    against 1. *)
Lemma unknown_severity_not_in_breakdown :
  ~ aggregates_as_specified urgent_env 50 store1.
Proof.
  intros Hprop.
  assert (Hrun : run_request (extract_pain_points urgent_env 50) store1
                 = (Ok (mkExtractionResponse None 1
                          (Some "Analysis 2024-05-01 10:00") 1 1 0 (Some 1)),
                    (run_request (extract_pain_points urgent_env 50)
                                 store1).2))
    by (vm_compute; reflexivity).
  destruct (Hprop _ _ Hrun) as (s & Hlast & _ & Hsev & _).
  vm_compute in Hlast. injection Hlast as <-.
  vm_compute in Hsev. discriminate Hsev.
Qed.

(** ** No double extraction *)

Lemma candidates_sublist limit d : candidates limit d `sublist_of` raw_data d.
Proof.
  unfold candidates, select_candidates.
  etransitivity; [apply sublist_take | apply sublist_filter].
Qed.

Lemma candidates_ids_NoDup limit d :
  NoDup (RawData.id <$> raw_data d) ->
  NoDup (RawData.id <$> candidates limit d).
Proof.
  intros Hpk. eapply sublist_NoDup; [exact Hpk|].
  apply fmap_sublist, candidates_sublist.
Qed.

(** The anti-join: no candidate is referenced by a stored pain point. *)
Lemma candidates_not_processed limit d i :
  i ∈ RawData.id <$> candidates limit d ->
  i ∉ omap PainPoint.raw_data_id (pain_points d).
Proof.
  intros Hin Hold. apply list_elem_of_fmap in Hin as (r & -> & Hr).
  unfold candidates, select_candidates in Hr.
  apply (subseteq_take limit) in Hr.
  apply list_elem_of_filter in Hr as [Hcand _].
  unfold candidate, processed_ids_of in Hcand.
  assert (Hset : RawData.id r ∈ (list_to_set
                   (omap PainPoint.raw_data_id (pain_points d)) : gset nat))
    by (apply elem_of_list_to_set; exact Hold).
  case_bool_decide as Hempty.
  - rewrite Hempty in Hset. exact (not_elem_of_empty _ Hset).
  - apply bool_decide_eq_true in Hcand. contradiction.
Qed.

Lemma items_dict_ids items :
  ExtractItem.id <$> items_dict_of items = RawData.id <$> items.
Proof.
  unfold items_dict_of. rewrite <- list_fmap_compose. reflexivity.
Qed.

(** One request: the raw items stay, pain points are only appended, and
    no raw item gets a second pain point. *)
Lemma extraction_keeps_one_per_item env limit d r d' :
  run_request (extract_pain_points env limit) d = (r, d') ->
  NoDup (RawData.id <$> raw_data d) ->
  NoDup (omap PainPoint.raw_data_id (pain_points d)) ->
  raw_data d' = raw_data d
  /\ exists new,
       pain_points d' = pain_points d ++ new
       /\ NoDup (omap PainPoint.raw_data_id (pain_points d ++ new)).
Proof.
  intros Hrun Hpk Hone. apply run_outcome in Hrun.
  assert (Hnil : NoDup (omap PainPoint.raw_data_id (pain_points d ++ [])))
    by (rewrite app_nil_r; exact Hone).
  inversion Hrun as [ | | | | new tally duration t Hc Hloop]; subst;
    try (split; [reflexivity|]; exists []; split;
         [try reflexivity; symmetry; apply app_nil_r | exact Hnil]).
  split; [reflexivity|]. exists new. split; [reflexivity|].
  apply completed_loop_facts in Hloop as (_ & _ & _ & _ & Hsub).
  assert (Hids : omap PainPoint.raw_data_id new
                 `sublist_of` (RawData.id <$> candidates limit d)).
  { etransitivity; [exact Hsub|]. rewrite <- items_dict_ids.
    apply batch_extract_ids. }
  rewrite omap_app. apply NoDup_app. split; [exact Hone|]. split.
  - intros i Hold Hnew.
    apply (candidates_not_processed limit d i); [|exact Hold].
    eapply elem_of_sublist; eauto.
  - eapply sublist_NoDup; [|exact Hids].
    apply candidates_ids_NoDup. exact Hpk.
Qed.

(** The scheduled task stores nothing: scoring raises on the object it
    gets as metadata, [extract] turns that into [None], and the batch
    result is empty. *)
Lemma extract_on_object env k text : extract env k text MetaObject = None.
Proof.
  unfold extract. destruct (complete env k text) as [pp|]; [|reflexivity].
  unfold _calculate_opportunity.
  destruct (PainPointDict.severity pp); reflexivity.
Qed.

Lemma batch_extract_on_objects env k (items : list RawData.t) :
  batch_extract_from env k
    ((fun item => ExtractItem.mk (RawData.id item) (RawData.content item)
                    MetaObject) <$> items) = [].
Proof.
  revert k. induction items as [|it rest IH]; intros k; [reflexivity|].
  cbn [fmap list_fmap batch_extract_from ExtractItem.content
       ExtractItem.metadata].
  rewrite extract_on_object. apply IH.
Qed.

Lemma scheduled_task_stores_nothing env d :
  (run_request (scheduler_extract_pain_points env) d).2 = d.
Proof.
  unfold run_request, scheduler_extract_pain_points, mbind, M_bind, db_query.
  run_step. destruct (db_error env 0); [reflexivity|].
  destruct (select_negative d) as [|it rest]; [reflexivity|].
  unfold batch_extract. rewrite batch_extract_on_objects.
  destruct (extractor_init env); [reflexivity|].
  unfold mret, M_ret, db_commit, set_work. cbn [scheduler_save_all].
  run_step. destruct (db_error env 1); [reflexivity|].
  destruct (unique_source_ids (raw_data d)); reflexivity.
Qed.

(** C1: starting from a store in which no raw item has two pain points,
    any sequence of extraction runs (requests to the endpoint and firings
    of the scheduled task, whatever the adapters answer and whichever of
    them fail) only appends pain points, never for a raw item that
    already had one, and leaves at most one pain point per raw item. *)
Theorem no_double_extraction runs d
    (Hpk : NoDup (RawData.id <$> raw_data d))
    (Hone : NoDup (omap PainPoint.raw_data_id (pain_points d))) :
  exists new,
    pain_points (run_sessions runs d) = pain_points d ++ new
    /\ NoDup (omap PainPoint.raw_data_id (pain_points (run_sessions runs d)))
    /\ (forall p i, p ∈ new -> PainPoint.raw_data_id p = Some i ->
          i ∉ omap PainPoint.raw_data_id (pain_points d)).
Proof.
  assert (Hmain : exists new,
            raw_data (run_sessions runs d) = raw_data d
            /\ pain_points (run_sessions runs d) = pain_points d ++ new
            /\ NoDup (omap PainPoint.raw_data_id (pain_points d ++ new))).
  { unfold run_sessions. revert d Hpk Hone.
    induction runs as [|[env limit|env] rest IH]; intros d Hpk Hone.
    - exists []. cbn [foldl]. rewrite app_nil_r. auto.
    - cbn [foldl run_extraction].
      destruct (run_request (extract_pain_points env limit) d) as [r d1]
        eqn:Hrun. cbn [snd].
      destruct (extraction_keeps_one_per_item _ _ _ _ _ Hrun Hpk Hone)
        as (Hraw & new1 & Hpp & Hnd).
      destruct (IH d1) as (new2 & Hraw2 & Hpp2 & Hnd2).
      + rewrite Hraw. exact Hpk.
      + rewrite Hpp. exact Hnd.
      + exists (new1 ++ new2). rewrite Hraw2, Hpp2, Hpp, <- app_assoc in *.
        auto.
    - cbn [foldl run_extraction]. rewrite scheduled_task_stores_nothing.
      apply IH; assumption. }
  destruct Hmain as (new & _ & Hpp & Hnd). exists new.
  split; [exact Hpp|]. split; [rewrite Hpp; exact Hnd|].
  intros p i Hp Hi Hold. rewrite omap_app in Hnd.
  apply NoDup_app in Hnd as (_ & Hdisj & _). apply (Hdisj i Hold).
  apply list_elem_of_omap. exists p. auto.
Qed.

Lemma no_double_extraction_witness :
  NoDup (omap PainPoint.raw_data_id
           (pain_points (run_sessions [SessionRun urgent_env 50;
                                       ScheduledRun urgent_env;
                                       SessionRun urgent_env 50] store1))).
Proof.
  assert (Hpk : NoDup (RawData.id <$> raw_data store1))
    by exact (bool_decide_unpack (NoDup [1%nat]) I).
  assert (Hone : NoDup (omap PainPoint.raw_data_id (pain_points store1)))
    by apply NoDup_nil_2.
  destruct (no_double_extraction
              [SessionRun urgent_env 50; ScheduledRun urgent_env;
               SessionRun urgent_env 50] store1 Hpk Hone)
    as (new & _ & Hnd & _).
  exact Hnd.
Defined.

(** * Further properties of the pipeline *)

(** ** The sentiment pass as a transaction *)



Lemma filter_negative_length env k items outs :
  filter_negative_from env k items = Ok outs ->
  (length outs <= length items)%nat.
Proof.
  intros Hf.
  pose proof (sublist_length _ _ (filter_negative_ids_sublist env k items
                                    outs Hf)) as Hlen.
  rewrite !length_fmap in Hlen. exact Hlen.
Qed.

(** X2: the counts of a sentiment request that processed something:
    [items_processed] is the number of selected rows, between 1 and the
    limit, [items_negative] is at most that, and only the raw rows were
    touched, each keeping its key, source identifier and text. *)
Theorem sentiment_counts env limit d processed negative d'
    (Hrun : run_request (process_sentiment env limit) d
            = (Ok (SentimentProcessed processed negative), d')) :
  processed = length (select_unprocessed limit d)
  /\ (1 <= processed <= limit)%nat
  /\ (negative <= processed)%nat
  /\ pain_points d' = pain_points d
  /\ extraction_sessions d' = extraction_sessions d
  /\ RawData.id <$> raw_data d' = RawData.id <$> raw_data d
  /\ RawData.source_id <$> raw_data d' = RawData.source_id <$> raw_data d
  /\ RawData.content <$> raw_data d' = RawData.content <$> raw_data d.
Proof.
  unfold run_request, process_sentiment, try_except in Hrun.
  rewrite sentiment_pass_run in Hrun. cbv zeta in Hrun.
  destruct (db_error env 0); [discriminate Hrun|].
  destruct (select_unprocessed limit d) as [|it rest] eqn:Hsel;
    [discriminate Hrun|].
  rewrite <- Hsel in *.
  destruct (filter_negative env _) as [negs|e0] eqn:Hf; [|discriminate Hrun].
  destruct (db_error env 1); [discriminate Hrun|].
  destruct (unique_source_ids (raw_data d)); [|discriminate Hrun].
  injection Hrun as <- <- <-.
  rewrite mark_all_spec. cbn [raw_data pain_points extraction_sessions].
  split; [reflexivity|]. split.
  { split; [rewrite Hsel; cbn [length]; lia|].
    unfold select_unprocessed. rewrite length_take. lia. }
  split.
  { unfold filter_negative in Hf.
    etransitivity; [apply (filter_negative_length _ _ _ _ Hf)|].
    rewrite length_fmap. reflexivity. }
  split; [reflexivity|]. split; [reflexivity|].
  rewrite <- !list_fmap_compose.
  repeat split; apply list_fmap_ext; intros i r _; cbn;
    case_bool_decide; try reflexivity; unfold mark;
    case_bool_decide; reflexivity.
Qed.

Lemma sentiment_counts_witness :
  run_request (process_sentiment harsh_env 100) store1
  = (Ok (SentimentProcessed 1 1),
     (run_request (process_sentiment harsh_env 100) store1).2)
  /\ (1 <= 1 <= 100)%nat.
Proof.
  assert (Hrun : run_request (process_sentiment harsh_env 100) store1
                 = (Ok (SentimentProcessed 1 1),
                    (run_request (process_sentiment harsh_env 100) store1).2))
    by (vm_compute; reflexivity).
  split; [exact Hrun|].
  exact (proj1 (proj2 (sentiment_counts harsh_env 100 store1 _ _ _ Hrun))).
Defined.

(** X3: a row is classified once: after a request that processed rows,
    no later selection, with whatever limit, contains a row with the key
    of a row that request selected. *)
Theorem processed_rows_not_reselected env limit d processed negative d'
    (Hrun : run_request (process_sentiment env limit) d
            = (Ok (SentimentProcessed processed negative), d')) :
  forall limit' r',
    r' ∈ select_unprocessed limit' d' ->
    RawData.id r' ∉ RawData.id <$> select_unprocessed limit d.
Proof.
  unfold run_request, process_sentiment, try_except in Hrun.
  rewrite sentiment_pass_run in Hrun. cbv zeta in Hrun.
  destruct (db_error env 0); [discriminate Hrun|].
  destruct (select_unprocessed limit d) as [|it rest] eqn:Hsel;
    [discriminate Hrun|].
  rewrite <- Hsel in *.
  destruct (filter_negative env _) as [negs|e0]; [|discriminate Hrun].
  destruct (db_error env 1); [discriminate Hrun|].
  destruct (unique_source_ids (raw_data d)); [|discriminate Hrun].
  injection Hrun as _ _ <-.
  intros limit' r' Hr' Hin.
  apply select_unprocessed_spec in Hr' as (Hmem & Hproc & _).
  rewrite mark_all_spec in Hmem. cbn [raw_data] in Hmem.
  apply list_elem_of_fmap in Hmem as (r & -> & Hr).
  case_bool_decide as Hsel'.
  - rewrite mark_processed in Hproc. discriminate Hproc.
  - contradiction.
Qed.

Lemma processed_rows_not_reselected_witness :
  RawData.id (sample_raw 8 "t3_b")
  ∉ RawData.id <$> select_unprocessed 1 store3.
Proof.
  assert (Hrun : run_request (process_sentiment harsh_env 1) store3
                 = (Ok (SentimentProcessed 1 1),
                    (run_request (process_sentiment harsh_env 1) store3).2))
    by (vm_compute; reflexivity).
  apply (processed_rows_not_reselected harsh_env 1 store3 _ _ _ Hrun 100%nat).
  vm_compute. apply list_elem_of_here.
Defined.

(** ** Ingestion under storage failures *)

Lemma save_item_fail env item a s c n t msg :
  db_error env n = Some msg ->
  save_item env item (a, s) (mkWorld c c n t)
  = (Raise (OperationalError msg), mkWorld c c (S n) t).
Proof.
  intros Hdb.
  unfold save_item, try_except, mbind, M_bind, modify_work, db_commit,
    set_work, raise.
  cbn [work committed db_ops clock_reads]. rewrite Hdb. reflexivity.
Qed.

Lemma save_items_fail env items a s c n t k msg :
  (forall j, (j < k)%nat -> db_error env (n + j) = None) ->
  db_error env (n + k) = Some msg ->
  (k < length items)%nat ->
  unique_source_ids (raw_data c) = true ->
  save_items env items (a, s) (mkWorld c c n t)
  = (Raise (OperationalError msg),
     let c' := mkDb (spec_ingest (take k items) (raw_data c) a s).2
                    (pain_points c) (extraction_sessions c) in
     mkWorld c' c' (S (n + k)) t).
Proof.
  revert items a s c n.
  induction k as [|k IH]; intros items a s c n Hok Hfail Hlen Hu;
    destruct items as [|item rest]; cbn [length] in Hlen; try lia.
  - cbn [save_items take spec_ingest]. unfold mbind, M_bind.
    rewrite Nat.add_0_r in *. rewrite (save_item_fail _ _ _ _ _ _ _ _ Hfail).
    destruct c; reflexivity.
  - cbn [save_items take spec_ingest]. unfold mbind, M_bind.
    assert (H0 : db_error env n = None)
      by (rewrite <- (Nat.add_0_r n); apply Hok; lia).
    rewrite (save_item_run env item a s c n t H0 Hu).
    assert (Hok' : forall j, (j < k)%nat -> db_error env (S n + j) = None)
      by (intros j Hj; rewrite Nat.add_succ_l, <- Nat.add_succ_r;
          apply Hok; lia).
    assert (Hfail' : db_error env (S n + k) = Some msg)
      by (rewrite Nat.add_succ_l, <- Nat.add_succ_r; exact Hfail).
    case_bool_decide as Hin.
    + rewrite (IH rest a (S s) c (S n) Hok' Hfail' ltac:(lia) Hu).
      rewrite Nat.add_succ_l, <- Nat.add_succ_r. reflexivity.
    + rewrite (IH rest (S a) s (add_raw item c) (S n) Hok' Hfail' ltac:(lia)).
      * rewrite Nat.add_succ_l, <- Nat.add_succ_r. reflexivity.
      * cbn [add_raw raw_data]. rewrite (unique_source_ids_snoc _ _ Hu).
        cbn [new_raw RawData.source_id].
        rewrite bool_decide_eq_false_2 by exact Hin. reflexivity.
Qed.

(** X4: the save loop commits item by item: when storage fails at the
    [k]-th item the endpoint answers 500 with the storage error, and what
    the first [k] items brought (each inserted or skipped as usual) stays
    committed; the rows stored before the request are still the head of
    the table. *)
Theorem ingest_keeps_rows_before_failure env items d k msg
    (Hok : forall j, (j < k)%nat -> db_error env j = None)
    (Hfail : db_error env k = Some msg)
    (Hlen : (k < length items)%nat)
    (Hu : unique_source_ids (raw_data d) = true) :
  exists new,
    (spec_ingest (take k items) (raw_data d) 0 0).2 = raw_data d ++ new
    /\ run_request (ingest env items) d
       = (Raise (HTTPException 500 msg),
          mkDb (raw_data d ++ new) (pain_points d) (extraction_sessions d)).
Proof.
  destruct (spec_ingest_props (take k items) (raw_data d) 0 0)
    as (new & Hrows & _).
  exists new. split; [exact Hrows|].
  unfold run_request, ingest, try_except, mbind, M_bind.
  rewrite (save_items_fail env items 0 0 d 0 0 k msg Hok Hfail Hlen Hu).
  cbv zeta. cbn [committed str raise]. rewrite Hrows. reflexivity.
Qed.

Lemma ingest_keeps_rows_before_failure_witness :
  exists row,
    run_request (ingest outage_env [sample_candidate; other_candidate])
                empty_store
    = (Raise (HTTPException 500 "server closed the connection unexpectedly"),
       mkDb [row] [] []).
Proof.
  destruct (ingest_keeps_rows_before_failure outage_env
              [sample_candidate; other_candidate] empty_store 1
              "server closed the connection unexpectedly")
    as (new & Hnew & Hrun).
  - intros j Hj. destruct j; [reflexivity | lia].
  - reflexivity.
  - cbn. lia.
  - reflexivity.
  - vm_compute in Hnew. subst new. eexists. exact Hrun.
Defined.

(** ** What an extraction request stores *)

Lemma save_pain_point_step sid d t pp :
  save_pain_point sid (d, t) pp
  = match pain_point_of (Some sid) (next_id (PainPoint.id <$> pain_points d))
                        pp with
    | Some p => (add_pain_point p d, (save_pain_point sid (d, t) pp).2)
    | None => (d, t)
    end.
Proof.
  unfold save_pain_point, pain_point_of.
  destruct (PainPointDict.problem_statement pp);
    destruct (PainPointDict.category pp);
    destruct (PainPointDict.severity pp); reflexivity.
Qed.

Lemma pain_point_of_with_id sid i pp p :
  pain_point_of sid i pp = Some p ->
  pain_point_of sid 0 pp = Some (with_id 0 p).
Proof.
  unfold pain_point_of.
  destruct (PainPointDict.problem_statement pp);
    destruct (PainPointDict.category pp);
    destruct (PainPointDict.severity pp); try discriminate.
  intros [= <-]. reflexivity.
Qed.

Lemma pain_point_of_None sid i j pp :
  pain_point_of sid i pp = None -> pain_point_of sid j pp = None.
Proof.
  unfold pain_point_of.
  destruct (PainPointDict.problem_statement pp);
    destruct (PainPointDict.category pp);
    destruct (PainPointDict.severity pp); try discriminate; reflexivity.
Qed.

(** The rows that the save loop appends are, up to their primary keys,
    the rows of the dictionaries that have the three keys, in order. *)
Lemma save_loop_rows sid data d t new :
  pain_points (foldl (save_pain_point sid) (d, t) data).1
  = pain_points d ++ new ->
  with_id 0 <$> new = omap (pain_point_of (Some sid) 0) data.
Proof.
  revert d t new. induction data as [|pp rest IH]; intros d t new Hpp.
  - cbn [foldl fst] in Hpp.
    rewrite <- (app_nil_r (pain_points d)) in Hpp at 1.
    apply app_inv_head in Hpp. subst new. reflexivity.
  - cbn [foldl omap list_omap] in *. rewrite save_pain_point_step in Hpp.
    destruct (pain_point_of (Some sid)
                (next_id (PainPoint.id <$> pain_points d)) pp) as [p|] eqn:Hp.
    + rewrite (pain_point_of_with_id _ _ _ _ Hp).
      destruct (save_loop_spec sid rest (add_pain_point p d)
                  (save_pain_point sid (d, t) pp).2)
        as (new' & t' & Hf & _).
      assert (Hnew : new = p :: new').
      { rewrite Hf in Hpp. cbn [fst pain_points add_pain_point] in Hpp.
        rewrite <- app_assoc in Hpp. apply app_inv_head in Hpp.
        symmetry. exact Hpp. }
      subst new. cbn [fmap list_fmap]. f_equal.
      apply (IH (add_pain_point p d) (save_pain_point sid (d, t) pp).2).
      rewrite Hf. reflexivity.
    + rewrite (pain_point_of_None _ _ 0%nat _ Hp). apply (IH d t). exact Hpp.
Qed.

(** The batch result, item by item. *)
Lemma batch_extract_from_imap env k items :
  batch_extract_from env k items
  = omap id (imap (fun j it =>
                     PainPointDict.set_raw_data_id (ExtractItem.id it)
                       <$> extract env (k + j) (ExtractItem.content it)
                                   (ExtractItem.metadata it))
                  items).
Proof.
  revert k. induction items as [|it rest IH]; intros k; [reflexivity|].
  cbn [batch_extract_from imap omap list_omap]. rewrite Nat.add_0_r.
  assert (Hrest : batch_extract_from env (S k) rest
                  = omap id (imap ((fun j it0 =>
                       PainPointDict.set_raw_data_id (ExtractItem.id it0)
                         <$> extract env (k + j) (ExtractItem.content it0)
                                     (ExtractItem.metadata it0)) ∘ S) rest)).
  { rewrite IH. f_equal. apply imap_ext. intros j x _. cbn.
    rewrite Nat.add_succ_r. reflexivity. }
  destruct (extract env k (ExtractItem.content it) (ExtractItem.metadata it));
    cbn [fmap option_fmap option_map id]; rewrite Hrest; reflexivity.
Qed.

Lemma omap_bind_imap {A B C} (g : B -> option C)
    (f : nat -> A -> option B) (h : nat -> A -> option C) (l : list A) :
  (forall j x, h j x = f j x ≫= g) ->
  omap g (omap id (imap f l)) = omap id (imap h l).
Proof.
  revert f h. induction l as [|x rest IH]; intros f h Hh; [reflexivity|].
  cbn [imap omap list_omap]. rewrite Hh.
  destruct (f 0%nat x) as [b|]; cbn [id mbind option_bind omap list_omap].
  - destruct (g b); cbn [id]; [f_equal|];
      apply (IH (f ∘ S) (h ∘ S)); intros; apply Hh.
  - apply (IH (f ∘ S) (h ∘ S)); intros; apply Hh.
Qed.

Lemma yields_of_candidates env sid items :
  omap (pain_point_of (Some sid) 0) (batch_extract env (items_dict_of items))
  = omap id (imap (yield env sid) items).
Proof.
  unfold batch_extract. rewrite batch_extract_from_imap.
  unfold items_dict_of. rewrite imap_fmap.
  apply omap_bind_imap. intros j r. unfold yield, compose.
  cbn [Nat.add ExtractItem.id ExtractItem.content ExtractItem.metadata].
  destruct (extract env j (RawData.content r)
              (MetaDict (default ∅ (RawData.source_metadata r))));
    reflexivity.
Qed.

Lemma length_omap_id_le {A} (l : list (option A)) :
  (length (omap id l) <= length l)%nat.
Proof.
  induction l as [|[x|] l IH]; cbn [omap list_omap id length]; lia.
Qed.

(** The rows of a request that returned normally. *)
Lemma completed_rows env limit d resp d' :
  run_request (extract_pain_points env limit) d = (Ok resp, d') ->
  exists s new,
    d' = extend d new s
    /\ ExtractionSession.id s = resp_session_id resp
    /\ with_id 0 <$> new
       = omap id (imap (yield env (resp_session_id resp)) (candidates limit d))
    /\ ExtractionSession.pain_points_extracted s = Z.of_nat (length new)
    /\ ExtractionSession.items_processed s
       = Z.of_nat (length (candidates limit d))
    /\ ExtractionSession.items_skipped s
       = Z.of_nat (length (candidates limit d)) - Z.of_nat (length new)
    /\ resp_pain_points_extracted resp
       = ExtractionSession.pain_points_extracted s
    /\ resp_items_processed resp = ExtractionSession.items_processed s
    /\ resp_items_skipped resp = ExtractionSession.items_skipped s.
Proof.
  intros Hrun. apply run_outcome in Hrun.
  inversion Hrun as [ | | | t Hc | new tally duration t Hc Hloop]; subst.
  - exists (ExtractionSession.complete_empty t (opened env d)), [].
    rewrite Hc. repeat split; reflexivity.
  - pose proof (save_loop_rows (ExtractionSession.id (opened env d))
                  (batch_extract env (items_dict_of (candidates limit d)))
                  (extend d [] (opened env d)) initial_tally new) as Hrows.
    rewrite Hloop in Hrows.
    cbn [resp_session_id]. rewrite <- yields_of_candidates.
    apply completed_loop_facts in Hloop as (Hs & _).
    eexists _, new. split; [reflexivity|].
    cbn [finalize ExtractionSession.id ExtractionSession.items_processed
         ExtractionSession.pain_points_extracted
         ExtractionSession.items_skipped resp_session_id
         resp_pain_points_extracted resp_items_processed resp_items_skipped].
    rewrite Hs. repeat split; try reflexivity.
    apply Hrows. unfold extend. cbn [fst pain_points].
    rewrite app_nil_r. reflexivity.
Qed.

(** X6: the counters of a request that returned normally: the answer
    repeats the stored session's counters; [items_processed] is the size
    of the batch, at most the limit; [pain_points_extracted] is the number
    of rows stored; and [items_skipped] is their difference, never
    negative. *)
Theorem extraction_counters env limit d resp d'
    (Hrun : run_request (extract_pain_points env limit) d = (Ok resp, d')) :
  exists s new,
    d' = extend d new s
    /\ resp_pain_points_extracted resp
       = ExtractionSession.pain_points_extracted s
    /\ resp_items_processed resp = ExtractionSession.items_processed s
    /\ resp_items_skipped resp = ExtractionSession.items_skipped s
    /\ ExtractionSession.pain_points_extracted s = Z.of_nat (length new)
    /\ ExtractionSession.items_processed s
       = Z.of_nat (length (candidates limit d))
    /\ ExtractionSession.items_processed s
       = ExtractionSession.pain_points_extracted s
         + ExtractionSession.items_skipped s
    /\ 0 <= ExtractionSession.items_skipped s
    /\ ExtractionSession.items_processed s <= Z.of_nat limit.
Proof.
  destruct (completed_rows _ _ _ _ _ Hrun)
    as (s & new & Hd & _ & Hrows & Hext & Hproc & Hskip & Hr1 & Hr2 & Hr3).
  exists s, new. rewrite Hext, Hproc, Hskip.
  assert (Hle : (length new <= length (candidates limit d))%nat).
  { apply (f_equal length) in Hrows. rewrite length_fmap in Hrows.
    rewrite Hrows. etransitivity; [apply length_omap_id_le|].
    rewrite length_imap. reflexivity. }
  assert (Hlim : (length (candidates limit d) <= limit)%nat).
  { unfold candidates, select_candidates. rewrite length_take. lia. }
  repeat split; auto; lia.
Qed.

Lemma extraction_counters_witness :
  exists s new,
    (run_request (extract_pain_points urgent_env 50) store1).2
    = extend store1 new s
    /\ ExtractionSession.items_processed s
       = ExtractionSession.pain_points_extracted s
         + ExtractionSession.items_skipped s.
Proof.
  assert (Hrun : run_request (extract_pain_points urgent_env 50) store1
                 = (Ok (mkExtractionResponse None 1
                          (Some "Analysis 2024-05-01 10:00") 1 1 0 (Some 1)),
                    (run_request (extract_pain_points urgent_env 50)
                                 store1).2))
    by (vm_compute; reflexivity).
  destruct (extraction_counters urgent_env 50 store1 _ _ Hrun)
    as (s & new & Hd & _ & _ & _ & _ & _ & Hsum & _).
  exists s, new. split; [exact Hd | exact Hsum].
Defined.

Lemma score_of_dict pp (m : Metadata) sev :
  PainPointDict.severity pp = Some sev ->
  _calculate_opportunity pp (MetaDict m) = Ok (spec_opportunity sev (Some m)).
Proof.
  intros Hsev. unfold _calculate_opportunity, spec_opportunity.
  rewrite Hsev, severity_bonus_agrees. cbn.
  destruct (bool_decide_reflect (m = ∅)) as [->|_]; cbn.
  - rewrite !lookup_empty. cbn. change (0 `div` 10) with 0.
    change (0 `div` 5) with 0. do 2 f_equal. lia.
  - do 2 f_equal. lia.
Qed.

(** The fields of what a candidate yields. *)
Lemma yield_fields env sid j r p :
  yield env sid j r = Some p ->
  PainPoint.raw_data_id p = Some (RawData.id r)
  /\ PainPoint.extraction_session_id p = Some sid
  /\ PainPoint.opportunity_score p
     = spec_opportunity (PainPoint.severity p)
         (Some (default ∅ (RawData.source_metadata r)))
  /\ exists answer,
       complete env j (RawData.content r) = Some answer
       /\ PainPointDict.problem_statement answer
          = Some (PainPoint.problem_statement p)
       /\ PainPointDict.category answer = Some (PainPoint.category p)
       /\ PainPointDict.severity answer = Some (PainPoint.severity p).
Proof.
  unfold yield, extract.
  destruct (complete env j (RawData.content r)) as [answer|];
    [|discriminate].
  destruct (PainPointDict.severity answer) as [sev|] eqn:Hsev.
  - rewrite (score_of_dict _ _ _ Hsev). cbn [mbind option_bind].
    unfold pain_point_of. cbn. rewrite Hsev.
    destruct (PainPointDict.problem_statement answer) as [ps|] eqn:Hps;
      [|discriminate].
    destruct (PainPointDict.category answer) as [cat|] eqn:Hcat;
      [|discriminate].
    intros [= <-]. cbn. repeat split. exists answer. auto.
  - unfold _calculate_opportunity. rewrite Hsev. discriminate.
Qed.

(** X7: every pain point stored by a request belongs to one candidate of
    its batch and to the request's session; its problem statement,
    category and severity are the adapter's; and its opportunity score is
    the scoring formula on that severity and the candidate's stored
    metadata, hence at most 100. *)
Theorem stored_pain_points_scored env limit d resp d'
    (Hrun : run_request (extract_pain_points env limit) d = (Ok resp, d')) :
  exists s new,
    d' = extend d new s
    /\ Forall (fun p =>
         exists j r answer,
           candidates limit d !! j = Some r
           /\ complete env j (RawData.content r) = Some answer
           /\ PainPoint.raw_data_id p = Some (RawData.id r)
           /\ PainPoint.extraction_session_id p = Some (resp_session_id resp)
           /\ PainPointDict.problem_statement answer
              = Some (PainPoint.problem_statement p)
           /\ PainPointDict.category answer = Some (PainPoint.category p)
           /\ PainPointDict.severity answer = Some (PainPoint.severity p)
           /\ PainPoint.opportunity_score p
              = spec_opportunity (PainPoint.severity p)
                  (Some (default ∅ (RawData.source_metadata r)))
           /\ PainPoint.opportunity_score p <= 100) new.
Proof.
  destruct (completed_rows _ _ _ _ _ Hrun) as (s & new & Hd & _ & Hrows & _).
  exists s, new. split; [exact Hd|].
  apply Forall_forall. intros p Hp.
  assert (Hin : with_id 0 p ∈ with_id 0 <$> new)
    by (apply list_elem_of_fmap; eauto).
  rewrite Hrows in Hin.
  apply list_elem_of_omap in Hin as (o & Ho & Hsome). cbn [id] in Hsome.
  apply elem_of_lookup_imap in Ho as (j & r & -> & Hj).
  apply yield_fields in Hsome
    as (Hrid & Hsid & Hscore & answer & Hans & Hps & Hcat & Hsev).
  cbn [with_id PainPoint.raw_data_id PainPoint.extraction_session_id
       PainPoint.opportunity_score PainPoint.severity
       PainPoint.problem_statement PainPoint.category] in *.
  exists j, r, answer. repeat split; auto.
  rewrite Hscore. unfold spec_opportunity. apply Z.le_min_r.
Qed.

Lemma stored_pain_points_scored_witness :
  exists s new,
    (run_request (extract_pain_points fluent_env 50) store3).2
    = extend store3 new s
    /\ Forall (fun p => PainPoint.opportunity_score p <= 100) new.
Proof.
  assert (Hrun : run_request (extract_pain_points fluent_env 50) store3
                 = (Ok (mkExtractionResponse None 1
                          (Some "Analysis 2024-05-01 10:00") 2 2 0 (Some 1)),
                    (run_request (extract_pain_points fluent_env 50)
                                 store3).2))
    by (vm_compute; reflexivity).
  destruct (stored_pain_points_scored fluent_env 50 store3 _ _ Hrun)
    as (s & new & Hd & Hall).
  exists s, new. split; [exact Hd|].
  eapply Forall_impl; [exact Hall|].
  intros p (j & r & answer & H). tauto.
Defined.

Lemma yield_of_complete_answer env sid j r answer :
  complete env j (RawData.content r) = Some answer ->
  is_Some (PainPointDict.problem_statement answer) ->
  is_Some (PainPointDict.category answer) ->
  is_Some (PainPointDict.severity answer) ->
  exists p, yield env sid j r = Some p
            /\ PainPoint.raw_data_id p = Some (RawData.id r).
Proof.
  intros Hans [ps Hps] [cat Hcat] [sev Hsev].
  unfold yield, extract. rewrite Hans, (score_of_dict _ _ _ Hsev).
  cbn [mbind option_bind]. unfold pain_point_of. cbn.
  rewrite Hps, Hcat, Hsev. eexists. split; reflexivity.
Qed.

Lemma length_omap_all_some {A B} (f : nat -> A -> option B) (l : list A) :
  (forall j x, is_Some (f j x)) ->
  length (omap id (imap f l)) = length l.
Proof.
  revert f. induction l as [|x l IH]; intros f Hf; [reflexivity|].
  cbn [imap omap list_omap]. destruct (Hf 0%nat x) as [b ->].
  cbn [id length]. f_equal. apply (IH (f ∘ S)). intros; apply Hf.
Qed.

(** A request on a store without candidates, with storage working. *)
Lemma empty_request env limit d :
  (forall n, db_error env n = None) ->
  unique_source_ids (raw_data d) = true ->
  candidates limit d = [] ->
  exists resp d',
    run_request (extract_pain_points env limit) d = (Ok resp, d')
    /\ resp_message resp = Some "No new items to extract"
    /\ resp_items_processed resp = 0
    /\ resp_pain_points_extracted resp = 0
    /\ pain_points d' = pain_points d
    /\ raw_data d' = raw_data d.
Proof.
  intros Hdb Hu Hempty.
  destruct (run_request (extract_pain_points env limit) d) as [r d'] eqn:Hrun.
  apply run_outcome in Hrun.
  inversion Hrun as [e [H0|H0] | msg [n Hn] | msg t [[Ha Hc]|[n Hn]]
                     | t Hc | new tally duration t Hc Hloop]; subst;
    try (exfalso; first [apply H0, Hdb | congruence | contradiction]);
    try (rewrite Hdb in Hn; discriminate Hn).
  eexists _, _. split; [reflexivity|].
  unfold extend. cbn. rewrite app_nil_r. auto.
Qed.

Lemma yields_reference_candidates (f : nat -> RawData.t -> option PainPoint.t)
    (l : list RawData.t) :
  (forall j r p, f j r = Some p ->
     PainPoint.raw_data_id p = Some (RawData.id r)) ->
  (PainPoint.raw_data_id <$> omap id (imap f l))
  `sublist_of` ((fun r => Some (RawData.id r)) <$> l).
Proof.
  revert f. induction l as [|r l IH]; intros f Hf; [constructor|].
  rewrite imap_cons. cbn [omap list_omap id fmap list_fmap].
  destruct (f 0%nat r) as [p|] eqn:Hp; cbn [fmap list_fmap].
  - rewrite (Hf 0%nat r p Hp). apply sublist_skip, IH.
    intros j r' p'. apply Hf.
  - apply sublist_cons, IH. intros j r' p'. apply Hf.
Qed.

Lemma sublist_full {A} (l1 l2 : list A) :
  l1 `sublist_of` l2 -> (length l2 <= length l1)%nat -> l1 = l2.
Proof.
  induction 1 as [|x l1 l2 Hsub IH|x l1 l2 Hsub IH]; cbn [length]; intros Hlen.
  - reflexivity.
  - f_equal. apply IH. lia.
  - apply sublist_length in Hsub. lia.
Qed.

(** The references of the rows of a request that answered normally. *)
Lemma completed_references env limit d resp d' :
  run_request (extract_pain_points env limit) d = (Ok resp, d') ->
  exists s new,
    d' = extend d new s
    /\ ExtractionSession.id s = resp_session_id resp
    /\ with_id 0 <$> new
       = omap id (imap (yield env (resp_session_id resp)) (candidates limit d))
    /\ (PainPoint.raw_data_id <$> new)
       `sublist_of` ((fun r => Some (RawData.id r)) <$> candidates limit d)
    /\ resp_items_skipped resp
       = Z.of_nat (length (candidates limit d)) - Z.of_nat (length new).
Proof.
  intros Hrun.
  destruct (completed_rows _ _ _ _ _ Hrun)
    as (s & new & Hd & Hid & Hrows & _ & _ & Hskip & _ & _ & Hr3).
  exists s, new. split; [exact Hd|]. split; [exact Hid|].
  split; [exact Hrows|]. split; [|rewrite Hr3; exact Hskip].
  assert (Href : PainPoint.raw_data_id <$> new
                 = PainPoint.raw_data_id <$> (with_id 0 <$> new)).
  { rewrite <- list_fmap_compose. reflexivity. }
  rewrite Href, Hrows. apply yields_reference_candidates.
  intros j r p Hp. apply yield_fields in Hp as (Hrid & _). exact Hrid.
Qed.

(** X5: which candidates of a request that answered normally get a pain
    point.  With unique raw keys, the new rows reference candidates of
    the batch, in batch order and none twice, and the candidate at
    position [j] is referenced by a new row exactly when the adapter
    answered its call (the [j]-th of the batch) with a record that has a
    severity (so that it can be scored), a problem statement and a
    category (so that the row can be built); every other candidate is
    passed over, and the request answers normally all the same. *)
Theorem extraction_stores_yields env limit d resp d'
    (Hpk : NoDup (RawData.id <$> raw_data d))
    (Hrun : run_request (extract_pain_points env limit) d = (Ok resp, d')) :
  exists s new,
    d' = extend d new s
    /\ ExtractionSession.id s = resp_session_id resp
    /\ (PainPoint.raw_data_id <$> new)
       `sublist_of` ((fun r => Some (RawData.id r)) <$> candidates limit d)
    /\ forall j r,
         candidates limit d !! j = Some r ->
         (exists p, p ∈ new /\ PainPoint.raw_data_id p = Some (RawData.id r))
         <-> (exists answer,
                complete env j (RawData.content r) = Some answer
                /\ is_Some (PainPointDict.severity answer)
                /\ is_Some (PainPointDict.problem_statement answer)
                /\ is_Some (PainPointDict.category answer)).
Proof.
  destruct (completed_references _ _ _ _ _ Hrun)
    as (s & new & Hd & Hid & Hrows & Hsub & _).
  exists s, new. split; [exact Hd|]. split; [exact Hid|].
  split; [exact Hsub|].
  intros j r Hj. split.
  - intros (p & Hp & Hrid).
    assert (Hin : with_id 0 p ∈ with_id 0 <$> new)
      by (apply list_elem_of_fmap; eauto).
    rewrite Hrows in Hin.
    apply list_elem_of_omap in Hin as (o & Ho & Hsome). cbn [id] in Hsome.
    apply elem_of_lookup_imap in Ho as (j' & r' & -> & Hj').
    apply yield_fields in Hsome
      as (Hrid' & _ & _ & answer & Hans & Hps & Hcat & Hsev).
    cbn [with_id PainPoint.raw_data_id PainPoint.problem_statement
         PainPoint.category PainPoint.severity] in *.
    assert (Heq : RawData.id r' = RawData.id r) by congruence.
    assert (Hnd : NoDup (RawData.id <$> candidates limit d))
      by (apply candidates_ids_NoDup; exact Hpk).
    assert (j' = j) as ->.
    { apply (NoDup_lookup (RawData.id <$> candidates limit d) j' j
                          (RawData.id r) Hnd).
      - rewrite list_lookup_fmap, Hj'. cbn. f_equal. exact Heq.
      - rewrite list_lookup_fmap, Hj. reflexivity. }
    rewrite Hj in Hj'. injection Hj' as <-.
    exists answer. rewrite Hps, Hcat, Hsev. eauto.
  - intros (answer & Hans & Hsev & Hps & Hcat).
    destruct (yield_of_complete_answer env (resp_session_id resp) j r answer
                Hans Hps Hcat Hsev) as (p0 & Hy & Hrid).
    assert (Hin : p0 ∈ omap id (imap (yield env (resp_session_id resp))
                                     (candidates limit d))).
    { apply list_elem_of_omap. exists (Some p0). split; [|reflexivity].
      rewrite <- Hy. apply elem_of_lookup_imap_2. exact Hj. }
    rewrite <- Hrows in Hin.
    apply list_elem_of_fmap in Hin as (p & -> & Hp).
    exists p. split; [exact Hp | exact Hrid].
Qed.

Lemma extraction_stores_yields_witness :
  exists s new,
    (run_request (extract_pain_points fluent_env 50) store3).2
    = extend store3 new s
    /\ exists p, p ∈ new /\ PainPoint.raw_data_id p = Some 8%nat.
Proof.
  assert (Hrun : run_request (extract_pain_points fluent_env 50) store3
                 = (Ok (mkExtractionResponse None 1
                          (Some "Analysis 2024-05-01 10:00") 2 2 0 (Some 1)),
                    (run_request (extract_pain_points fluent_env 50)
                                 store3).2))
    by (vm_compute; reflexivity).
  assert (Hpk : NoDup (RawData.id <$> raw_data store3))
    by exact (bool_decide_unpack (NoDup [1%nat; 8%nat]) I).
  destruct (extraction_stores_yields fluent_env 50 store3 _ _ Hpk Hrun)
    as (s & new & Hd & _ & _ & Hiff).
  exists s, new. split; [exact Hd|].
  apply (Hiff 1%nat (sample_raw 8 "t3_b") eq_refl).
  exists high_reply. repeat split; cbn; eauto.
Defined.

(** X8: extraction reaches a fixed point.  When a request whose limit is
    at least the number of raw items answers normally and reports no
    skipped item, every raw item has a pain point afterwards and no raw
    item is a candidate, whatever the limit; a later request that answers
    normally reports that there is nothing to extract and stores no pain
    point. *)
Theorem extraction_drains_candidates env limit d resp d'
    (Hrun : run_request (extract_pain_points env limit) d = (Ok resp, d'))
    (Hlimit : (length (raw_data d) <= limit)%nat)
    (Hskip : resp_items_skipped resp = 0) :
  (forall r, r ∈ raw_data d' ->
     RawData.id r ∈ omap PainPoint.raw_data_id (pain_points d'))
  /\ (forall limit', candidates limit' d' = [])
  /\ (forall env' limit' resp2 d'',
        run_request (extract_pain_points env' limit') d' = (Ok resp2, d'') ->
        resp_message resp2 = Some "No new items to extract"
        /\ resp_pain_points_extracted resp2 = 0
        /\ pain_points d'' = pain_points d').
Proof.
  destruct (completed_references _ _ _ _ _ Hrun)
    as (s & new & Hd & _ & _ & Hsub & Hcount).
  assert (Hrefs : PainPoint.raw_data_id <$> new
                  = (fun r => Some (RawData.id r)) <$> candidates limit d).
  { apply sublist_full; [exact Hsub|]. rewrite !length_fmap. lia. }
  assert (Hyield : forall r, r ∈ candidates limit d ->
            RawData.id r ∈ omap PainPoint.raw_data_id new).
  { intros r Hr. apply list_elem_of_lookup in Hr as [j Hj].
    assert (Hj' : (PainPoint.raw_data_id <$> new) !! j
                  = Some (Some (RawData.id r)))
      by (rewrite Hrefs, list_lookup_fmap, Hj; reflexivity).
    rewrite list_lookup_fmap in Hj'.
    destruct (new !! j) as [p|] eqn:Hp; [|discriminate].
    cbn in Hj'. injection Hj' as Hrid.
    apply list_elem_of_omap. exists p. split; [|exact Hrid].
    eapply list_elem_of_lookup_2; eauto. }
  assert (Hcovered : forall r, r ∈ raw_data d' ->
            RawData.id r ∈ omap PainPoint.raw_data_id (pain_points d')).
  { intros r Hr. subst d'. unfold extend in *.
    cbn [raw_data pain_points] in *. rewrite omap_app. apply elem_of_app.
    destruct (decide (RawData.id r
                      ∈ omap PainPoint.raw_data_id (pain_points d)))
      as [Hold|Hnew]; [left; exact Hold | right].
    apply Hyield. unfold candidates, select_candidates.
    rewrite take_ge
      by (etransitivity; [apply length_filter | exact Hlimit]).
    apply list_elem_of_filter. split; [|exact Hr].
    unfold candidate. case_bool_decide; [reflexivity|].
    apply bool_decide_eq_true. unfold processed_ids_of.
    rewrite elem_of_list_to_set. exact Hnew. }
  assert (Hnone : forall limit', candidates limit' d' = []).
  { intros limit'. apply elem_of_nil_inv. intros r Hr.
    unfold candidates, select_candidates in Hr.
    apply (subseteq_take limit') in Hr.
    apply list_elem_of_filter in Hr as [Hcand Hr].
    specialize (Hcovered r Hr).
    assert (Hset : RawData.id r ∈ processed_ids_of d')
      by (unfold processed_ids_of; apply elem_of_list_to_set; exact Hcovered).
    unfold candidate in Hcand. case_bool_decide as Hempty.
    - rewrite Hempty in Hset. exact (not_elem_of_empty _ Hset).
    - apply bool_decide_eq_true in Hcand. contradiction. }
  split; [exact Hcovered|]. split; [exact Hnone|].
  intros env' limit' resp2 d'' Hrun2. apply run_outcome in Hrun2.
  inversion Hrun2 as [ | | | t Hc | new2 tally duration t Hc Hloop]; subst.
  - unfold extend. cbn. rewrite app_nil_r. auto.
  - exfalso. apply Hc, Hnone.
Qed.

Lemma extraction_drains_candidates_witness :
  candidates 10 (run_request (extract_pain_points fluent_env 50) store3).2 = [].
Proof.
  assert (Hrun : run_request (extract_pain_points fluent_env 50) store3
                 = (Ok (mkExtractionResponse None 1
                          (Some "Analysis 2024-05-01 10:00") 2 2 0 (Some 1)),
                    (run_request (extract_pain_points fluent_env 50)
                                 store3).2))
    by (vm_compute; reflexivity).
  assert (Hlimit : (length (raw_data store3) <= 50)%nat) by (cbn; lia).
  exact (proj1 (proj2 (extraction_drains_candidates fluent_env 50 store3 _ _
                         Hrun Hlimit eq_refl)) 10%nat).
Defined.

(** ** What every request preserves *)

(** The save loop under any storage behaviour: rows are only appended,
    with fresh keys and identifiers that are not stored yet. *)
Lemma save_items_any env items a s c n t :
  exists r new n',
    save_items env items (a, s) (mkWorld c c n t)
    = (r, let c' := mkDb (raw_data c ++ new) (pain_points c)
                         (extraction_sessions c) in
          mkWorld c' c' n' t)
    /\ (NoDup (RawData.id <$> raw_data c) ->
        NoDup (RawData.id <$> raw_data c ++ new))
    /\ (NoDup (RawData.source_id <$> raw_data c) ->
        NoDup (RawData.source_id <$> raw_data c ++ new))
    /\ Forall (fun r => RawData.processed r = false
                        /\ RawData.sentiment_score r = None
                        /\ RawData.is_negative r = None) new.
Proof.
  revert a s c n. induction items as [|item rest IH]; intros a s c n.
  - exists (Ok (a, s)), [], n. rewrite app_nil_r. destruct c.
    repeat split; auto.
  - cbn [save_items]. unfold mbind, M_bind.
    unfold save_item at 1.
    unfold try_except, mbind, M_bind, modify_work, db_commit, set_work,
      db_rollback, raise.
    cbn [work committed db_ops clock_reads is_IntegrityError].
    destruct (db_error env n) as [msg|].
    { exists (Raise (OperationalError msg)), [], (S n).
      rewrite app_nil_r. destruct c. repeat split; auto. }
    destruct (unique_source_ids (raw_data (add_raw item c))) eqn:Hu.
    + cbn [is_IntegrityError mret M_ret fst snd].
      destruct (IH (S a) s (add_raw item c) (S n))
        as (r & new & n' & Hrun & Hid & Hsid & Hnew).
      exists r, (new_raw (next_id (RawData.id <$> raw_data c)) item :: new), n'.
      cbn [add_raw raw_data pain_points extraction_sessions] in *.
      rewrite <- app_assoc in *. cbn [app] in *.
      split; [exact Hrun|]. split; [|split].
      * intros Hnd. apply Hid. rewrite fmap_app. apply NoDup_app.
        split; [exact Hnd|]. split; [|apply NoDup_singleton].
        intros x Hx Hx'. apply list_elem_of_singleton in Hx'. subst x.
        exact (next_id_fresh _ Hx).
      * intros _. apply Hsid. apply bool_decide_eq_true in Hu. exact Hu.
      * constructor; [repeat split | exact Hnew].
    + cbn [is_IntegrityError mret M_ret fst snd].
      apply (IH a (S s) c (S n)).
Qed.

Lemma ingest_effect env items d :
  exists new,
    (run_request (ingest env items) d).2
    = mkDb (raw_data d ++ new) (pain_points d) (extraction_sessions d)
    /\ (NoDup (RawData.id <$> raw_data d) ->
        NoDup (RawData.id <$> raw_data d ++ new))
    /\ (NoDup (RawData.source_id <$> raw_data d) ->
        NoDup (RawData.source_id <$> raw_data d ++ new))
    /\ Forall (fun r => RawData.processed r = false
                        /\ RawData.sentiment_score r = None
                        /\ RawData.is_negative r = None) new.
Proof.
  destruct (save_items_any env items 0 0 d 0 0)
    as (r & new & n' & Hrun & Hrest).
  exists new. split; [|exact Hrest].
  unfold run_request, ingest, try_except, mbind, M_bind. rewrite Hrun.
  destruct r; reflexivity.
Qed.

(** The sentiment pass either changes nothing or marks the selected
    rows. *)
Lemma sentiment_pass_effect env limit d :
  (sentiment_pass env limit (mkWorld d d 0 0)).2 = mkWorld d d 1 0
  \/ (sentiment_pass env limit (mkWorld d d 0 0)).2 = mkWorld d d 2 0
  \/ exists negs,
       committed (sentiment_pass env limit (mkWorld d d 0 0)).2
       = mark_all negs (select_unprocessed limit d) d.
Proof.
  rewrite sentiment_pass_run. cbv zeta.
  destruct (db_error env 0); [auto|].
  destruct (select_unprocessed limit d) as [|it rest] eqn:Hsel; [auto|].
  destruct (filter_negative env _) as [negs|e0]; [|auto].
  destruct (db_error env 1); [auto|].
  destruct (unique_source_ids (raw_data d)); [|auto].
  right; right. eexists. reflexivity.
Qed.

Lemma sentiment_committed env limit d :
  committed (sentiment_pass env limit (mkWorld d d 0 0)).2 = d
  \/ exists negs,
       committed (sentiment_pass env limit (mkWorld d d 0 0)).2
       = mark_all negs (select_unprocessed limit d) d.
Proof.
  destruct (sentiment_pass_effect env limit d) as [->|[->|H]]; auto.
Qed.

Lemma process_sentiment_committed env limit d :
  (run_request (process_sentiment env limit) d).2
  = committed (sentiment_pass env limit (mkWorld d d 0 0)).2.
Proof.
  unfold run_request, process_sentiment, try_except, raise.
  destruct (sentiment_pass env limit (mkWorld d d 0 0)) as [[resp|e] w];
    reflexivity.
Qed.

Lemma scheduler_sentiment_committed env d :
  (run_request (scheduler_process_sentiment env) d).2
  = committed (sentiment_pass env 100 (mkWorld d d 0 0)).2.
Proof.
  unfold run_request, scheduler_process_sentiment.
  destruct (sentiment_pass env 100 (mkWorld d d 0 0)) as [r w]; reflexivity.
Qed.

Lemma mark_identity negs r : raw_identity (mark negs r) = raw_identity r.
Proof. unfold mark, raw_identity. case_bool_decide; reflexivity. Qed.

Lemma mark_all_identity negs items d :
  raw_identity <$> raw_data (mark_all negs items d)
  = raw_identity <$> raw_data d.
Proof.
  rewrite mark_all_spec. cbn [raw_data]. rewrite <- list_fmap_compose.
  apply list_fmap_ext. intros i r _. cbn.
  case_bool_decide; [apply mark_identity | reflexivity].
Qed.

(** The effect of any request, table by table. *)
Lemma serve_effect q d :
  raw_identity <$> raw_data d `prefix_of` raw_identity <$> raw_data (serve q d)
  /\ pain_points d `prefix_of` pain_points (serve q d)
  /\ extraction_sessions d `prefix_of` extraction_sessions (serve q d).
Proof.
  destruct q as [env items|env limit|env|env limit|env]; cbn [serve].
  - destruct (ingest_effect env items d) as (new & -> & _).
    cbn [raw_data pain_points extraction_sessions]. rewrite fmap_app.
    repeat split; [apply prefix_app_r| |]; reflexivity.
  - rewrite process_sentiment_committed.
    destruct (sentiment_committed env limit d) as [->|[negs ->]];
      [repeat split; reflexivity|].
    rewrite mark_all_identity, mark_all_spec. repeat split; reflexivity.
  - rewrite scheduler_sentiment_committed.
    destruct (sentiment_committed env 100 d) as [->|[negs ->]];
      [repeat split; reflexivity|].
    rewrite mark_all_identity, mark_all_spec. repeat split; reflexivity.
  - pose proof (extract_pain_points_outcome env limit d) as Hout.
    destruct (run_request (extract_pain_points env limit) d) as [r d'].
    cbn [fst snd] in *.
    destruct Hout; repeat split; try reflexivity;
      unfold extend; cbn [raw_data pain_points extraction_sessions];
      try reflexivity; apply prefix_app_r; reflexivity.
  - rewrite scheduled_task_stores_nothing. repeat split; reflexivity.
Qed.

(** X9: nothing stored is ever deleted or rewritten by the pipeline.
    After any sequence of requests of any kind, under any adapter answers
    and storage failures, the raw rows of the start are still there, in
    place, with their key, source, source identifier, text and metadata;
    the pain points of the start are the head of the pain point table,
    unchanged; and so are the sessions: a session, once written, is
    frozen. *)
Theorem stored_rows_are_kept qs d :
  raw_identity <$> raw_data d
    `prefix_of` raw_identity <$> raw_data (serve_all qs d)
  /\ pain_points d `prefix_of` pain_points (serve_all qs d)
  /\ extraction_sessions d `prefix_of` extraction_sessions (serve_all qs d).
Proof.
  unfold serve_all. revert d. induction qs as [|q qs IH]; intros d.
  - repeat split; reflexivity.
  - cbn [foldl]. destruct (serve_effect q d) as (Hr & Hp & Hs).
    destruct (IH (serve q d)) as (Hr' & Hp' & Hs').
    repeat split; etransitivity; eauto.
Qed.

(** The save loop hands out fresh primary keys. *)
Lemma save_loop_keys sid data d t :
  NoDup (PainPoint.id <$> pain_points d) ->
  NoDup (PainPoint.id <$> pain_points (foldl (save_pain_point sid) (d, t) data).1).
Proof.
  revert d t. induction data as [|pp rest IH]; intros d t Hnd; [exact Hnd|].
  cbn [foldl]. rewrite save_pain_point_step.
  destruct (pain_point_of (Some sid)
              (next_id (PainPoint.id <$> pain_points d)) pp) as [p|] eqn:Hp;
    [|apply IH; exact Hnd].
  apply IH. cbn [add_pain_point pain_points]. rewrite fmap_app.
  apply NoDup_app. split; [exact Hnd|]. split; [|apply NoDup_singleton].
  intros x Hx Hx'. apply list_elem_of_singleton in Hx'. subst x.
  assert (Hid : PainPoint.id p = next_id (PainPoint.id <$> pain_points d)).
  { unfold pain_point_of in Hp.
    destruct (PainPointDict.problem_statement pp);
      destruct (PainPointDict.category pp);
      destruct (PainPointDict.severity pp); try discriminate.
    injection Hp as <-. reflexivity. }
  rewrite Hid in Hx. exact (next_id_fresh _ Hx).
Qed.

(** What a request to the extraction endpoint leaves in the store. *)
Lemma extraction_effect env limit d :
  exists new s,
    ((run_request (extract_pain_points env limit) d).2 = d
     \/ (run_request (extract_pain_points env limit) d).2 = extend d new s)
    /\ ExtractionSession.id s
       = next_id (ExtractionSession.id <$> extraction_sessions d)
    /\ (NoDup (PainPoint.id <$> pain_points d) ->
        NoDup (PainPoint.id <$> pain_points d ++ new))
    /\ Forall (fun p => PainPoint.extraction_session_id p
                        = Some (ExtractionSession.id s)) new
    /\ omap PainPoint.raw_data_id new
       `sublist_of` (RawData.id <$> candidates limit d).
Proof.
  pose proof (extract_pain_points_outcome env limit d) as Hout.
  destruct (run_request (extract_pain_points env limit) d) as [r d'].
  cbn [fst snd] in *.
  assert (Hnil : forall s : ExtractionSession.t,
    (NoDup (PainPoint.id <$> pain_points d) ->
     NoDup (PainPoint.id <$> pain_points d ++ []))
    /\ Forall (fun p => PainPoint.extraction_session_id p
                        = Some (ExtractionSession.id s)) []
    /\ omap PainPoint.raw_data_id []
       `sublist_of` (RawData.id <$> candidates limit d)).
  { intros s. rewrite app_nil_r. repeat split; auto.
    apply sublist_nil_l. }
  destruct Hout as [e H|msg H|msg t H|t H|new tally duration t Hc Hloop].
  - exists [], (opened env d). split; [auto|]. split; [reflexivity|apply Hnil].
  - exists [], (opened env d). split; [auto|]. split; [reflexivity|apply Hnil].
  - exists [], (ExtractionSession.fail msg t (opened env d)).
    split; [auto|]. split; [reflexivity|apply Hnil].
  - exists [], (ExtractionSession.complete_empty t (opened env d)).
    split; [auto|]. split; [reflexivity|apply Hnil].
  - exists new, (finalize (length (candidates limit d)) tally duration t
                          (opened env d)).
    split; [auto|]. split; [reflexivity|].
    pose proof (save_loop_keys (ExtractionSession.id (opened env d))
                  (batch_extract env (items_dict_of (candidates limit d)))
                  (extend d [] (opened env d)) initial_tally) as Hkeys.
    rewrite Hloop in Hkeys. unfold extend in Hkeys.
    cbn [fst pain_points] in Hkeys. rewrite app_nil_r in Hkeys.
    apply completed_loop_facts in Hloop as (_ & _ & _ & Hall & Hsub).
    split; [exact Hkeys|]. split; [exact Hall|].
    etransitivity; [exact Hsub|]. rewrite <- items_dict_ids.
    apply batch_extract_ids.
Qed.

Lemma raw_identity_id (rows : list RawData.t) :
  RawData.id <$> rows = (fun x => x.1.1.1.1) <$> (raw_identity <$> rows).
Proof. rewrite <- list_fmap_compose. reflexivity. Qed.

Lemma raw_identity_source_id (rows : list RawData.t) :
  RawData.source_id <$> rows = (fun x => x.1.1.2) <$> (raw_identity <$> rows).
Proof. rewrite <- list_fmap_compose. reflexivity. Qed.

Lemma mark_all_ids negs items d :
  RawData.id <$> raw_data (mark_all negs items d) = RawData.id <$> raw_data d.
Proof. rewrite !raw_identity_id, mark_all_identity. reflexivity. Qed.

Lemma mark_all_consistent negs items d :
  consistent d -> consistent (mark_all negs items d).
Proof.
  intros [Hk Hs Hp Hss Hr Hsr].
  constructor; rewrite ?mark_all_ids, ?mark_all_source_ids; auto;
    rewrite mark_all_spec; cbn [pain_points extraction_sessions]; auto.
Qed.

Lemma serve_consistent q d : consistent d -> consistent (serve q d).
Proof.
  intros Hd.
  destruct q as [env items|env limit|env|env limit|env]; cbn [serve].
  - destruct Hd as [Hk Hs Hp Hss Hr Hsr].
    destruct (ingest_effect env items d) as (new & -> & Hid & Hsid & _).
    constructor; cbn [raw_data pain_points extraction_sessions]; auto.
    intros p i Hin Hi. rewrite fmap_app. apply elem_of_app. left. eauto.
  - rewrite process_sentiment_committed.
    destruct (sentiment_committed env limit d) as [->|[negs ->]];
      [exact Hd | apply mark_all_consistent; exact Hd].
  - rewrite scheduler_sentiment_committed.
    destruct (sentiment_committed env 100 d) as [->|[negs ->]];
      [exact Hd | apply mark_all_consistent; exact Hd].
  - destruct (extraction_effect env limit d)
      as (new & s & [->| ->] & Hsid & Hkeys & Hall & Hsub); [exact Hd|].
    destruct Hd as [Hk Hs Hp Hss Hr Hsr].
    constructor; unfold extend;
      cbn [raw_data pain_points extraction_sessions]; auto.
    + rewrite fmap_app. apply NoDup_app. split; [exact Hss|].
      split; [|apply NoDup_singleton].
      intros x Hx Hx'. apply list_elem_of_singleton in Hx'. subst x.
      rewrite Hsid in Hx. exact (next_id_fresh _ Hx).
    + intros p i Hin Hi. apply elem_of_app in Hin as [Hin|Hin]; [eauto|].
      assert (Hmem : i ∈ omap PainPoint.raw_data_id new).
      { apply list_elem_of_omap. exists p. split; assumption. }
      apply (sublist_subseteq _ _ Hsub) in Hmem.
      revert Hmem. apply sublist_subseteq, fmap_sublist, candidates_sublist.
    + intros p i Hin Hi. rewrite fmap_app. apply elem_of_app.
      apply elem_of_app in Hin as [Hin|Hin]; [left; eauto|].
      right. rewrite Forall_forall in Hall. rewrite (Hall p Hin) in Hi.
      injection Hi as <-. apply list_elem_of_singleton. reflexivity.
  - rewrite scheduled_task_stores_nothing. exact Hd.
Qed.

(** X10: the relational shape of the store is an invariant of the
    pipeline.  If primary keys are unique in the three tables, source
    identifiers are unique, and every pain point that names a raw row or
    a session names a stored one, then the same holds after any sequence
    of requests of any kind, whatever the adapters answer and whichever
    round trips fail. *)
Theorem requests_keep_store_consistent qs d (Hd : consistent d) :
  consistent (serve_all qs d).
Proof.
  unfold serve_all. revert d Hd. induction qs as [|q qs IH]; intros d Hd.
  - exact Hd.
  - cbn [foldl]. apply IH, serve_consistent, Hd.
Qed.

Lemma requests_keep_store_consistent_witness :
  consistent
    (serve_all [IngestRequest calm_env [sample_candidate; other_candidate];
                SentimentRequest harsh_env 10;
                ExtractionRequest fluent_env 10;
                ScheduledExtraction fluent_env;
                IngestRequest outage_env [sample_candidate]]
               empty_store).
Proof.
  apply requests_keep_store_consistent.
  constructor; cbn [empty_store raw_data pain_points extraction_sessions
                    fmap list_fmap]; try apply NoDup_nil_2;
    intros p i Hp; apply elem_of_nil in Hp; destruct Hp.
Defined.

Lemma serve_one_per_item q d :
  NoDup (RawData.id <$> raw_data d) ->
  NoDup (omap PainPoint.raw_data_id (pain_points d)) ->
  NoDup (RawData.id <$> raw_data (serve q d))
  /\ NoDup (omap PainPoint.raw_data_id (pain_points (serve q d))).
Proof.
  intros Hpk Hone.
  destruct q as [env items|env limit|env|env limit|env]; cbn [serve].
  - destruct (ingest_effect env items d) as (new & -> & Hid & _).
    cbn [raw_data pain_points]. auto.
  - rewrite process_sentiment_committed.
    destruct (sentiment_committed env limit d) as [->|[negs ->]]; [auto|].
    rewrite mark_all_ids, mark_all_spec. cbn [pain_points]. auto.
  - rewrite scheduler_sentiment_committed.
    destruct (sentiment_committed env 100 d) as [->|[negs ->]]; [auto|].
    rewrite mark_all_ids, mark_all_spec. cbn [pain_points]. auto.
  - destruct (run_request (extract_pain_points env limit) d) as [r d']
      eqn:Hrun. cbn [snd].
    destruct (extraction_keeps_one_per_item _ _ _ _ _ Hrun Hpk Hone)
      as (-> & new & -> & Hnd). auto.
  - rewrite scheduled_task_stores_nothing. auto.
Qed.

(** X11: ingestion and sentiment passes between the extraction runs do
    not break the one-pain-point-per-item rule: with unique raw keys and
    at most one pain point per raw item at the start, every sequence of
    requests of any kind ends with at most one pain point per raw item
    (and unique raw keys). *)
Theorem one_pain_point_per_item_under_any_requests qs d
    (Hpk : NoDup (RawData.id <$> raw_data d))
    (Hone : NoDup (omap PainPoint.raw_data_id (pain_points d))) :
  NoDup (RawData.id <$> raw_data (serve_all qs d))
  /\ NoDup (omap PainPoint.raw_data_id (pain_points (serve_all qs d))).
Proof.
  unfold serve_all. revert d Hpk Hone.
  induction qs as [|q qs IH]; intros d Hpk Hone; [auto|].
  cbn [foldl]. destruct (serve_one_per_item q d Hpk Hone). apply IH; auto.
Qed.

Lemma one_pain_point_per_item_under_any_requests_witness :
  let d := serve_all [ExtractionRequest fluent_env 1;
                      IngestRequest calm_env [other_candidate];
                      SentimentRequest harsh_env 10;
                      ExtractionRequest fluent_env 10;
                      ExtractionRequest fluent_env 10]
                     store1 in
  NoDup (RawData.id <$> raw_data d)
  /\ NoDup (omap PainPoint.raw_data_id (pain_points d)).
Proof.
  assert (Hpk : NoDup (RawData.id <$> raw_data store1))
    by exact (bool_decide_unpack (NoDup [1%nat]) I).
  apply one_pain_point_per_item_under_any_requests;
    [exact Hpk | apply NoDup_nil_2].
Defined.

Lemma serve_keys q d :
  NoDup (RawData.id <$> raw_data d) ->
  NoDup (RawData.id <$> raw_data (serve q d)).
Proof.
  intros Hpk.
  destruct q as [env items|env limit|env|env limit|env]; cbn [serve].
  - destruct (ingest_effect env items d) as (new & -> & Hid & _).
    cbn [raw_data]. auto.
  - rewrite process_sentiment_committed.
    destruct (sentiment_committed env limit d) as [->|[negs ->]]; auto.
    rewrite mark_all_ids. exact Hpk.
  - rewrite scheduler_sentiment_committed.
    destruct (sentiment_committed env 100 d) as [->|[negs ->]]; auto.
    rewrite mark_all_ids. exact Hpk.
  - destruct (extraction_effect env limit d)
      as (new & s & [->| ->] & _); exact Hpk.
  - rewrite scheduled_task_stores_nothing. exact Hpk.
Qed.

Lemma serve_keeps_processed q d k r :
  NoDup (RawData.id <$> raw_data d) ->
  raw_data d !! k = Some r -> RawData.processed r = true ->
  raw_data (serve q d) !! k = Some r.
Proof.
  intros Hpk Hk Hp.
  assert (Hmark : forall negs limit,
            raw_data (mark_all negs (select_unprocessed limit d) d) !! k
            = Some r).
  { intros negs limit. rewrite mark_all_spec. cbn [raw_data].
    rewrite list_lookup_fmap, Hk. cbn [fmap option_fmap option_map].
    rewrite bool_decide_eq_false_2; [reflexivity|].
    intros Hin. apply list_elem_of_fmap in Hin as (r' & Hid & Hr').
    apply select_unprocessed_spec in Hr' as (Hr' & Hp' & _).
    assert (r = r').
    { apply (NoDup_fmap_eq RawData.id (raw_data d)); auto.
      eapply list_elem_of_lookup_2; eauto. }
    subst r'. congruence. }
  destruct q as [env items|env limit|env|env limit|env]; cbn [serve].
  - destruct (ingest_effect env items d) as (new & -> & _).
    cbn [raw_data]. apply lookup_app_l_Some. exact Hk.
  - rewrite process_sentiment_committed.
    destruct (sentiment_committed env limit d) as [->|[negs ->]]; auto.
  - rewrite scheduler_sentiment_committed.
    destruct (sentiment_committed env 100 d) as [->|[negs ->]]; auto.
  - destruct (extraction_effect env limit d)
      as (new & s & [->| ->] & _); exact Hk.
  - rewrite scheduled_task_stores_nothing. exact Hk.
Qed.

(** X12: the verdict of the sentiment pass is final.  With unique raw
    keys, a row that is marked processed stays exactly as it is, field by
    field and at its position, through every later request of any kind:
    no later pass rescores it, and ingestion and extraction do not touch
    it. *)
Theorem processed_rows_are_final qs d k r
    (Hpk : NoDup (RawData.id <$> raw_data d))
    (Hk : raw_data d !! k = Some r)
    (Hp : RawData.processed r = true) :
  raw_data (serve_all qs d) !! k = Some r.
Proof.
  unfold serve_all. revert d Hpk Hk.
  induction qs as [|q qs IH]; intros d Hpk Hk; [exact Hk|].
  cbn [foldl]. apply IH.
  - apply serve_keys, Hpk.
  - apply serve_keeps_processed; assumption.
Qed.

Lemma processed_rows_are_final_witness :
  let r := RawData.set_processed (sample_raw 1 "t3_a") in
  raw_data (serve_all [SentimentRequest harsh_env 10;
                       IngestRequest calm_env [other_candidate];
                       ScheduledSentiment harsh_env;
                       ExtractionRequest fluent_env 10]
                      (mkDb [r] [] [])) !! 0%nat
  = Some r.
Proof.
  assert (Hpk : NoDup [1%nat])
    by exact (bool_decide_unpack (NoDup [1%nat]) I).
  apply processed_rows_are_final; [exact Hpk | reflexivity | reflexivity].
Defined.

Lemma candidates_of_eligible limit d :
  candidates limit d = take limit (eligible d).
Proof. reflexivity. Qed.

Lemma eligible_after_marking negs items d :
  items_dict_of (eligible (mark_all negs items d))
  = items_dict_of (eligible d).
Proof.
  unfold eligible, processed_ids_of.
  rewrite mark_all_spec. cbn [raw_data pain_points].
  set (g := fun r => if bool_decide (RawData.id r ∈ RawData.id <$> items)
                     then mark negs r else r).
  set (c := candidate _).
  assert (Hg : forall r, raw_identity (g r) = raw_identity r).
  { intros r. unfold g. case_bool_decide; [apply mark_identity|reflexivity]. }
  assert (Hfilter : forall rows : list RawData.t,
            filter (fun r => c r = true) (g <$> rows)
            = g <$> filter (fun r => c r = true) rows).
  { induction rows as [|r rows IHrows]; [reflexivity|].
    cbn [fmap list_fmap]. rewrite !filter_cons.
    assert (Hc : c (g r) = c r).
    { unfold c, candidate. pose proof (Hg r) as Hr. unfold raw_identity in Hr.
      injection Hr as -> _ _ _ _. reflexivity. }
    rewrite Hc. destruct (decide (c r = true)); cbn [fmap list_fmap];
      [f_equal|]; exact IHrows. }
  rewrite Hfilter. unfold items_dict_of.
  rewrite <- list_fmap_compose. apply list_fmap_ext. intros i r _.
  cbn. pose proof (Hg r) as Hr. unfold raw_identity in Hr.
  injection Hr as -> _ _ -> ->. reflexivity.
Qed.

Lemma eligible_after_sentiment env n d :
  items_dict_of
    (eligible (committed (sentiment_pass env n (mkWorld d d 0 0)).2))
  = items_dict_of (eligible d).
Proof.
  destruct (sentiment_committed env n d) as [->|[negs ->]];
    [reflexivity | apply eligible_after_marking].
Qed.

(** X13: the extraction endpoint does not look at the sentiment columns.
    The rows that satisfy the conditions of the candidate query are the
    same, with the same keys, texts and metadata, whether a sentiment
    pass, by request or scheduled, has run before or not, whatever that
    pass decided: rows judged not negative stay candidates like the
    others.  The query has no ORDER BY, so the statement is up to the
    order of the rows; it carries over to the batch handed to the
    extractor when the limit does not cut the result. *)
Theorem extraction_ignores_sentiment env n d :
  items_dict_of (eligible (serve (SentimentRequest env n) d))
    ≡ₚ items_dict_of (eligible d)
  /\ items_dict_of (eligible (serve (ScheduledSentiment env) d))
       ≡ₚ items_dict_of (eligible d)
  /\ forall limit,
       (length (eligible d) <= limit)%nat ->
       items_dict_of (candidates limit (serve (SentimentRequest env n) d))
         ≡ₚ items_dict_of (candidates limit d)
       /\ items_dict_of (candidates limit (serve (ScheduledSentiment env) d))
            ≡ₚ items_dict_of (candidates limit d).
Proof.
  cbn [serve].
  rewrite process_sentiment_committed, scheduler_sentiment_committed.
  pose proof (eligible_after_sentiment env n d) as Hn.
  pose proof (eligible_after_sentiment env 100 d) as Hs.
  split; [rewrite Hn; reflexivity|]. split; [rewrite Hs; reflexivity|].
  intros limit Hlimit. rewrite !candidates_of_eligible.
  assert (Hlen : forall d' : Db,
            items_dict_of (eligible d') = items_dict_of (eligible d) ->
            take limit (eligible d') = eligible d').
  { intros d' Heq. apply take_ge.
    apply (f_equal length) in Heq. unfold items_dict_of in Heq.
    rewrite !length_fmap in Heq. lia. }
  rewrite (Hlen _ Hn), (Hlen _ Hs), (take_ge (eligible d)) by exact Hlimit.
  rewrite Hn, Hs. split; reflexivity.
Qed.

(** ** The other save loops *)

Lemma add_all_rows results d :
  exists rows,
    add_all results d
    = mkDb (raw_data d ++ rows) (pain_points d) (extraction_sessions d)
    /\ RawData.source_id <$> rows = CandidateItem.source_id <$> results.
Proof.
  unfold add_all. revert d. induction results as [|item rest IH]; intros d.
  - exists []. rewrite app_nil_r. destruct d. auto.
  - cbn [foldl]. destruct (IH (add_raw item d)) as (rows & -> & Hids).
    exists (new_raw (next_id (RawData.id <$> raw_data d)) item :: rows).
    cbn [add_raw raw_data pain_points extraction_sessions].
    rewrite <- app_assoc. split; [reflexivity|].
    cbn [fmap list_fmap]. rewrite <- Hids. reflexivity.
Qed.

(** Without a clash of identifiers the save loop accepts every item. *)
Lemma spec_ingest_no_clash items rows pp ss a s :
  NoDup ((RawData.source_id <$> rows) ++ (CandidateItem.source_id <$> items)) ->
  spec_ingest items rows a s
  = ((a + length items)%nat, s, raw_data (add_all items (mkDb rows pp ss))).
Proof.
  unfold add_all. revert rows a.
  induction items as [|item rest IH]; intros rows a Hnd.
  - cbn. rewrite Nat.add_0_r. reflexivity.
  - cbn [spec_ingest foldl length].
    cbn [fmap list_fmap] in Hnd.
    rewrite bool_decide_eq_false_2; cycle 1.
    { apply NoDup_app in Hnd as (_ & Hdisj & _). intros Hin.
      apply (Hdisj _ Hin). apply elem_of_cons. auto. }
    rewrite IH.
    + cbn [add_raw raw_data pain_points extraction_sessions].
      f_equal. f_equal. lia.
    + rewrite fmap_app. cbn [fmap list_fmap new_raw RawData.source_id].
      rewrite <- app_assoc. exact Hnd.
Qed.

(** X14: [/scrape/reddit] stores a batch whole or not at all.  When an
    identifier of the batch is already stored, or occurs twice in the
    batch, the request answers 500 and not one item of the batch is
    stored, the new ones included. *)
Theorem scrape_reddit_stores_nothing_on_a_duplicate env sub results d
    (Hsub : sub <> "")
    (Hdup : ~ NoDup ((RawData.source_id <$> raw_data d)
                     ++ (CandidateItem.source_id <$> results))) :
  exists msg,
    run_request (scrape_reddit env (Some sub) results) d
    = (Raise (HTTPException 500 msg), d).
Proof.
  unfold scrape_reddit. rewrite bool_decide_eq_false_2; cycle 1.
  { intros [H|H]; [discriminate|]. injection H as ->. auto. }
  unfold run_request, try_except, mbind, M_bind, modify_work, db_commit,
    set_work, raise.
  cbn [work committed db_ops clock_reads].
  destruct (db_error env 0) as [msg|]; [exists msg; reflexivity|].
  destruct (add_all_rows results d) as (rows & -> & Hids).
  cbn [raw_data]. unfold unique_source_ids.
  rewrite bool_decide_eq_false_2; [eexists; reflexivity|].
  rewrite fmap_app, Hids. exact Hdup.
Qed.

Lemma scrape_reddit_stores_nothing_on_a_duplicate_witness :
  exists msg,
    run_request (scrape_reddit calm_env (Some "saas")
                   [other_candidate; sample_candidate]) store1
    = (Raise (HTTPException 500 msg), store1).
Proof.
  apply scrape_reddit_stores_nothing_on_a_duplicate; [discriminate|].
  intros Hnd. apply (bool_decide_pack _) in Hnd. vm_compute in Hnd.
  exact Hnd.
Defined.

(** X15: when no identifier of the batch is stored or repeated and
    storage works, [/scrape/reddit] and the duplicate-tolerant loop leave
    the same store, and both report every item as scraped. *)
Theorem scrape_reddit_agrees_with_save_loop env env' sub results d
    (Hsub : sub <> "")
    (Hdb : db_error env 0 = None)
    (Hdb' : forall n, db_error env' n = None)
    (Hnd : NoDup ((RawData.source_id <$> raw_data d)
                  ++ (CandidateItem.source_id <$> results))) :
  exists rows,
    let d' := mkDb (raw_data d ++ rows) (pain_points d)
                   (extraction_sessions d) in
    length rows = length results
    /\ run_request (scrape_reddit env (Some sub) results) d
       = (Ok (length results), d')
    /\ run_request (ingest env' results) d
       = (Ok (mkIngestResponse (length results) 0 (length results)), d').
Proof.
  destruct (add_all_rows results d) as (rows & Hall & Hids).
  exists rows. cbv zeta. split; [|split].
  - rewrite <- (length_fmap RawData.source_id), Hids, length_fmap.
    reflexivity.
  - unfold scrape_reddit. rewrite bool_decide_eq_false_2; cycle 1.
    { intros [H|H]; [discriminate|]. injection H as ->. auto. }
    unfold run_request, try_except, mbind, M_bind, modify_work, db_commit,
      set_work, raise.
    cbn [work committed db_ops clock_reads]. rewrite Hdb, Hall.
    cbn [raw_data]. unfold unique_source_ids.
    rewrite bool_decide_eq_true_2; [reflexivity|].
    rewrite fmap_app, Hids. exact Hnd.
  - assert (Hu : unique_source_ids (raw_data d) = true).
    { apply bool_decide_eq_true. apply NoDup_app in Hnd as (H & _). exact H. }
    destruct (save_items_run env' results 0 0 d 0 0 Hdb' Hu) as (n' & Hrun).
    unfold run_request, ingest, try_except, mbind, M_bind. rewrite Hrun.
    rewrite (spec_ingest_no_clash results (raw_data d) (pain_points d)
               (extraction_sessions d) 0 0 Hnd).
    cbv zeta. cbn [fst snd committed mret M_ret].
    destruct d as [rows0 pp ss]. cbn [raw_data pain_points
      extraction_sessions] in *. rewrite Hall. reflexivity.
Qed.

Lemma scrape_reddit_agrees_with_save_loop_witness :
  exists row,
    run_request (scrape_reddit calm_env (Some "saas") [other_candidate]) store1
    = (Ok 1%nat, mkDb (raw_data store1 ++ [row]) [] [])
    /\ run_request (ingest harsh_env [other_candidate]) store1
       = (Ok (mkIngestResponse 1 0 1), mkDb (raw_data store1 ++ [row]) [] []).
Proof.
  assert (Hnd : NoDup ((RawData.source_id <$> raw_data store1)
                       ++ (CandidateItem.source_id <$> [other_candidate])))
    by exact (bool_decide_unpack (NoDup ["t3_a"; "t3_b"]) I).
  destruct (scrape_reddit_agrees_with_save_loop calm_env harsh_env "saas"
              [other_candidate] store1)
    as (rows & Hlen & Hone & Htwo);
    [discriminate | reflexivity | reflexivity | exact Hnd |].
  destruct rows as [|row [|row' rows]]; try discriminate Hlen.
  exists row. split; [exact Hone | exact Htwo].
Defined.

Lemma save_item_counts env item a s w :
  save_item env item (a, s) w
  = match save_item env item (0, 0)%nat w with
    | (Ok c, w') => (Ok ((a + c.1)%nat, (s + c.2)%nat), w')
    | (Raise e, w') => (Raise e, w')
    end
  /\ match save_item env item (0, 0)%nat w with
     | (Ok c, _) => (c.1 + c.2 = 1)%nat
     | (Raise _, _) => True
     end.
Proof.
  unfold save_item, try_except, mbind, M_bind, modify_work, db_commit,
    set_work, db_rollback, raise, mret, M_ret.
  cbn [work committed db_ops clock_reads fst snd].
  destruct (db_error env (db_ops w)); [split; [reflexivity|exact I]|].
  destruct (unique_source_ids (raw_data (add_raw item (work w))));
    cbn [is_IntegrityError fst snd]; rewrite ?Nat.add_0_r, ?Nat.add_1_r;
    split; reflexivity.
Qed.

(** The counters of the save loop only add up: starting the loop from
    other counts shifts its result. *)
Lemma save_items_counts env items a s w :
  save_items env items (a, s) w
  = match save_items env items (0, 0)%nat w with
    | (Ok c, w') => (Ok ((a + c.1)%nat, (s + c.2)%nat), w')
    | (Raise e, w') => (Raise e, w')
    end
  /\ match save_items env items (0, 0)%nat w with
     | (Ok c, _) => (c.1 + c.2 = length items)%nat
     | (Raise _, _) => True
     end.
Proof.
  revert a s w. induction items as [|item rest IH]; intros a s w.
  - cbn. rewrite !Nat.add_0_r. auto.
  - cbn [save_items]. unfold mbind, M_bind.
    destruct (save_item_counts env item a s w) as [-> Hone].
    destruct (save_item env item (0, 0)%nat w) as [[[a1 s1]|e] w1];
      [|auto].
    cbn [fst snd] in *.
    destruct (IH (a + a1)%nat (s + s1)%nat w1) as [-> _].
    destruct (IH a1 s1 w1) as [-> Hrest].
    destruct (save_items env rest (0, 0)%nat w1) as [[[a2 s2]|e] w2];
      [|auto].
    cbn [fst snd length] in *. split; [|lia].
    rewrite !Nat.add_assoc. reflexivity.
Qed.

Lemma save_items_app env l1 l2 c w :
  save_items env (l1 ++ l2) c w
  = (c' ← save_items env l1 c; save_items env l2 c') w.
Proof.
  revert c w. induction l1 as [|item rest IH]; intros c w; [reflexivity|].
  cbn [app save_items]. unfold mbind, M_bind.
  destruct (save_item env item c w) as [[c1|e] w1]; [|reflexivity].
  rewrite IH. reflexivity.
Qed.

(** X16: [/scrape/reddit-with-comments] is one run of the
    duplicate-tolerant loop over the posts followed by the comments,
    under any storage behaviour: both leave the same store, fail with the
    same error, and when they answer, the two pairs of counters add up to
    the counters of the single run; saved and skipped count every post
    and every comment once. *)
Theorem comments_loop_is_one_ingestion env posts comments d :
  (run_request (scrape_reddit_with_comments env posts comments) d).2
  = (run_request (ingest env (posts ++ comments)) d).2
  /\ match (run_request (scrape_reddit_with_comments env posts comments) d).1,
           (run_request (ingest env (posts ++ comments)) d).1 with
     | Ok a, Ok b =>
         total_items a = items_scraped b
         /\ (posts_skipped a + comments_skipped a)%nat = items_skipped b
         /\ (posts_scraped a + posts_skipped a)%nat = length posts
         /\ (comments_scraped a + comments_skipped a)%nat = length comments
     | Raise e, Raise e' => e = e'
     | _, _ => False
     end.
Proof.
  pose proof (save_items_app env posts comments (0, 0)%nat (mkWorld d d 0 0))
    as Happ.
  unfold run_request, scrape_reddit_with_comments, ingest, try_except,
    mbind, M_bind in *.
  rewrite Happ.
  destruct (save_items_counts env posts 0 0 (mkWorld d d 0 0)) as [_ Hposts].
  destruct (save_items env posts (0, 0)%nat (mkWorld d d 0 0))
    as [[[a1 s1]|e] w1]; [|cbn; auto].
  destruct (save_items_counts env comments a1 s1 w1) as [-> Hcomments].
  destruct (save_items env comments (0, 0)%nat w1) as [[[a2 s2]|e] w2];
    cbn in *; auto.
Qed.

(** ** Read endpoints *)

#[global] Instance score_desc_transitive : Transitive score_desc.
Proof. unfold score_desc. intros p q r Hpq Hqr. lia. Qed.

#[global] Instance score_desc_total : Total score_desc.
Proof. unfold score_desc. intros p q. lia. Qed.

Lemma sort_by_score_ordering : Ordering sort_by_score.
Proof.
  constructor; intros rows.
  - apply (Sorted_merge_sort score_desc).
  - apply merge_sort_Permutation.
Qed.

Lemma filter_if_spec {A} (value : option A) falsy cond query p :
  p ∈ filter_if value falsy cond query
  <-> p ∈ query
      /\ (forall v, value = Some v -> falsy v = false -> cond v p = true).
Proof.
  unfold filter_if. destruct value as [v|].
  - destruct (falsy v) eqn:Hf.
    + split; [intros Hin; split; [exact Hin|] | intros [Hin _]; exact Hin].
      intros v' [= <-] Hf'. congruence.
    + rewrite list_elem_of_filter. split.
      * intros [Hc Hin]. split; [exact Hin|]. intros v' [= <-] _. exact Hc.
      * intros [Hin Hc]. split; [apply (Hc v); auto | exact Hin].
  - split; [intros Hin; split; [exact Hin|discriminate] | intros [Hin _]; exact Hin].
Qed.

Lemma ordered_take order_by (Hord : Ordering order_by) limit query :
  Sorted score_desc (take limit (order_by query))
  /\ (length (take limit (order_by query)) <= limit)%nat
  /\ (forall p, p ∈ take limit (order_by query) -> p ∈ query)
  /\ (forall p, p ∈ query ->
        p ∈ take limit (order_by query)
        \/ (length (take limit (order_by query)) = limit
            /\ forall q, q ∈ take limit (order_by query) -> score_desc q p)).
Proof.
  destruct Hord as [Hsorted Hperm].
  pose proof (Sorted_StronglySorted _ _ (Hsorted query)) as Hss.
  rewrite <- (take_drop limit (order_by query)) in Hss.
  split; [|split; [|split]].
  - apply StronglySorted_Sorted. eapply StronglySorted_app_1_l. exact Hss.
  - rewrite length_take. lia.
  - intros p Hp. rewrite <- (Hperm query).
    apply (subseteq_take limit). exact Hp.
  - intros p Hp. rewrite <- (Hperm query) in Hp.
    rewrite <- (take_drop limit (order_by query)) in Hp.
    apply elem_of_app in Hp as [Hp|Hp]; [left; exact Hp|]. right. split.
    + rewrite length_take. apply Nat.min_l.
      destruct (decide (limit <= length (order_by query))%nat) as [|Hn];
        [assumption|].
      rewrite drop_ge in Hp by lia. apply elem_of_nil in Hp. destruct Hp.
    + intros q Hq. eapply StronglySorted_app_1_elem_of; eauto.
Qed.

(** The validation, row by row. *)
Lemma to_response_fields p b :
  to_response p = Some b ->
  PainPoint.context p = Some (PainPointResponse.context b)
  /\ PainPointResponse.id b = PainPoint.id p
  /\ PainPointResponse.problem_statement b = PainPoint.problem_statement p
  /\ PainPointResponse.category b = PainPoint.category p
  /\ PainPointResponse.severity b = PainPoint.severity p
  /\ PainPointResponse.opportunity_score b = PainPoint.opportunity_score p
  /\ PainPointResponse.tags b = PainPoint.tags p.
Proof.
  unfold to_response. destruct (PainPoint.context p) as [c|]; [|discriminate].
  cbn. intros [= <-]. repeat split.
Qed.



Lemma filter_none {A} (P : A -> Prop) `{forall x, Decision (P x)} (l : list A) :
  (forall x, x ∈ l -> ~ P x) -> filter P l = [].
Proof.
  induction l as [|a l IH]; intros Hno; [reflexivity|].
  rewrite filter_cons. destruct (decide (P a)) as [Hp|_].
  - destruct (Hno a); [apply elem_of_cons; auto | exact Hp].
  - apply IH. intros x Hx. apply Hno. apply elem_of_cons. auto.
Qed.

Lemma filter_all {A} (P : A -> Prop) `{forall x, Decision (P x)} (l : list A) :
  Forall P l -> filter P l = l.
Proof.
  induction 1 as [|a l Hp Hall IH]; [reflexivity|].
  rewrite filter_cons. destruct (decide (P a)); [|contradiction].
  f_equal. exact IH.
Qed.

(** X18: [/extraction-sessions/{id}] answers 404, with the identifier in
    the message, exactly when no session has that identifier: the 404
    raised inside the [try] is passed on by the [except HTTPException]
    clause and not turned into a 500, and a request for a stored session
    never ends in 404. *)
Theorem unknown_session_is_not_found env order_by session_id d
    (Hdb : db_error env 0 = None) :
  session_id ∉ ExtractionSession.id <$> extraction_sessions d
  <-> run_request (get_extraction_session_detail env order_by session_id) d
      = (Raise (HTTPException 404
                  (String.append "Session "
                     (String.append (pretty session_id) " not found"))), d).
Proof.
  unfold run_request, get_extraction_session_detail, try_except, mbind,
    M_bind, db_query, raise.
  cbn [work committed db_ops clock_reads]. rewrite Hdb.
  destruct (filter (fun s => ExtractionSession.id s = session_id)
                   (extraction_sessions d)) as [|s rest] eqn:Hf;
    cbn [head].
  - split; [reflexivity|]. intros _ Hin.
    apply list_elem_of_fmap in Hin as (s & Hid & Hs).
    assert (Hmem : s ∈ filter (fun s => ExtractionSession.id s = session_id)
                              (extraction_sessions d))
      by (apply list_elem_of_filter; auto).
    rewrite Hf in Hmem. apply elem_of_nil in Hmem. exact Hmem.
  - split.
    + intros Hno. exfalso. apply Hno.
      assert (Hmem : s ∈ filter (fun s => ExtractionSession.id s = session_id)
                                (extraction_sessions d))
        by (rewrite Hf; apply elem_of_cons; auto).
      apply list_elem_of_filter in Hmem as [Hid Hs].
      apply list_elem_of_fmap. exists s. auto.
    + cbn [work committed db_ops clock_reads mret M_ret].
      destruct (db_error env 1); cbn; intros [=].
Qed.

Lemma unknown_session_is_not_found_witness :
  run_request (get_extraction_session_detail calm_env sort_by_score 2) store4
  = (Raise (HTTPException 404 "Session 2 not found"), store4).
Proof.
  apply (unknown_session_is_not_found calm_env sort_by_score 2 store4);
    [reflexivity|].
  intros Hin. apply (bool_decide_pack _) in Hin. vm_compute in Hin.
  exact Hin.
Defined.

(** X19: the detail page of a run agrees with its scorecard.  On a store
    whose pain points reference stored sessions only, after an extraction
    request that answered normally, the detail request for the session of
    the answer (with storage working) returns that session, completed,
    together with exactly the pain points that the run stored, in
    descending order of the score; their number is the session's
    [pain_points_extracted] and the answer's. *)
Theorem session_detail_lists_the_run env env' order_by limit d resp d'
    (Hd : consistent d)
    (Hord : Ordering order_by)
    (Hrun : run_request (extract_pain_points env limit) d = (Ok resp, d'))
    (Hdb0 : db_error env' 0 = None)
    (Hdb1 : db_error env' 1 = None) :
  exists s new,
    d' = extend d new s
    /\ run_request (get_extraction_session_detail env' order_by
                      (resp_session_id resp)) d'
       = (Ok (mkSessionDetail s (order_by new)), d')
    /\ ExtractionSession.id s = resp_session_id resp
    /\ ExtractionSession.status s = completed
    /\ order_by new ≡ₚ new
    /\ Sorted score_desc (order_by new)
    /\ ExtractionSession.pain_points_extracted s
       = Z.of_nat (length (order_by new))
    /\ resp_pain_points_extracted resp = Z.of_nat (length (order_by new)).
Proof.
  apply run_outcome in Hrun.
  assert (Hfresh : forall p,
            p ∈ pain_points d ->
            PainPoint.extraction_session_id p
            <> Some (next_id (ExtractionSession.id <$> extraction_sessions d))).
  { intros p Hp Hid. apply (next_id_fresh
      (ExtractionSession.id <$> extraction_sessions d)).
    eapply (session_references d Hd); eauto. }
  assert (Hdetail : forall (s : ExtractionSession.t) new,
            ExtractionSession.id s
            = next_id (ExtractionSession.id <$> extraction_sessions d) ->
            Forall (fun p => PainPoint.extraction_session_id p
                             = Some (ExtractionSession.id s)) new ->
            run_request (get_extraction_session_detail env' order_by
                           (ExtractionSession.id s)) (extend d new s)
            = (Ok (mkSessionDetail s (order_by new)), extend d new s)).
  { intros s new Hid Hall.
    unfold run_request, get_extraction_session_detail, try_except, mbind,
      M_bind, db_query, raise, mret, M_ret.
    cbn [work committed db_ops clock_reads]. rewrite Hdb0.
    unfold extend at 1. cbn [extraction_sessions].
    rewrite filter_app, (filter_none _ (extraction_sessions d)); cycle 1.
    { intros s' Hs' Heq. apply (next_id_fresh
        (ExtractionSession.id <$> extraction_sessions d)).
      rewrite <- Hid, <- Heq. apply list_elem_of_fmap. eauto. }
    rewrite filter_cons. destruct (decide _) as [_|Hne]; [|congruence].
    cbn [app head filter list_filter work committed db_ops clock_reads].
    rewrite Hdb1.
    unfold extend at 1. cbn [pain_points].
    rewrite filter_app, (filter_none _ (pain_points d)), filter_all;
      [reflexivity | exact Hall |].
    intros p Hp Heq. rewrite Hid in Heq. exact (Hfresh p Hp Heq). }
  inversion Hrun as [ | | | t Hc | new tally duration t Hc Hloop]; subst.
  - exists (ExtractionSession.complete_empty t (opened env d)), [].
    split; [reflexivity|]. split.
    { apply (Hdetail (ExtractionSession.complete_empty t (opened env d)) []);
        [reflexivity | constructor]. }
    pose proof (Permutation_length (ordering_permutation _ Hord [])) as Hlen.
    cbn [length] in Hlen. rewrite Hlen.
    repeat split; [apply (ordering_permutation _ Hord)
                  |apply (ordering_sorted _ Hord)].
  - apply completed_loop_facts in Hloop as (Hsaved & _ & _ & Hall & _).
    exists (finalize (length (candidates limit d)) tally duration t
                     (opened env d)), new.
    split; [reflexivity|]. split.
    { apply (Hdetail (finalize (length (candidates limit d)) tally duration t
                               (opened env d)) new);
        [reflexivity | exact Hall]. }
    rewrite (Permutation_length (ordering_permutation _ Hord new)).
    cbn [resp_session_id resp_pain_points_extracted finalize
         ExtractionSession.id ExtractionSession.status
         ExtractionSession.pain_points_extracted].
    repeat split; [apply (ordering_permutation _ Hord)
                  |apply (ordering_sorted _ Hord) | exact Hsaved | exact Hsaved].
Qed.

Lemma session_detail_lists_the_run_witness :
  exists s rows,
    run_request (get_extraction_session_detail calm_env sort_by_score 1)
                (run_request (extract_pain_points fluent_env 10) store3).2
    = (Ok (mkSessionDetail s rows),
       (run_request (extract_pain_points fluent_env 10) store3).2)
    /\ ExtractionSession.status s = completed
    /\ ExtractionSession.pain_points_extracted s = Z.of_nat (length rows).
Proof.
  assert (Hrun : run_request (extract_pain_points fluent_env 10) store3
                 = (Ok (mkExtractionResponse None 1
                          (Some "Analysis 2024-05-01 10:00") 2 2 0 (Some 1)),
                    (run_request (extract_pain_points fluent_env 10)
                                 store3).2))
    by (vm_compute; reflexivity).
  assert (Hkeys : NoDup [1%nat; 8%nat])
    by exact (bool_decide_unpack (NoDup [1%nat; 8%nat]) I).
  assert (Hsids : NoDup ["t3_a"; "t3_b"])
    by exact (bool_decide_unpack (NoDup ["t3_a"; "t3_b"]) I).
  assert (Hd : consistent store3).
  { constructor; cbn [store3 raw_data pain_points extraction_sessions
                      fmap list_fmap]; try assumption; try apply NoDup_nil_2;
      intros p i Hp; apply elem_of_nil in Hp; destruct Hp. }
  destruct (session_detail_lists_the_run fluent_env calm_env sort_by_score
              10 store3 _ _ Hd sort_by_score_ordering Hrun eq_refl eq_refl)
    as (s & new & _ & Hdetail & _ & Hstatus & _ & _ & Hcount & _).
  exists s, (sort_by_score new).
  split; [exact Hdetail|]. split; [exact Hstatus | exact Hcount].
Defined.
